(** * ai-fitness-coach: workout parser and derived analytics

    A shallow embedding of the parsing and analytics core of the
    application ([workout_parser.py] and the PR / recovery / overload /
    search-index logic of [app.py]) together with the properties of its
    specification.

    Conventions of the embedding.
    - A Python [str] is a [list ascii].  The character classes used by
      [str.strip], [str.isdigit], [str.lower] and by the regular
      expressions ([\s], [\d], [[a-zA-Z]]) are modelled on the ASCII range;
      code points above 127 are ordinary characters.
    - A Python [int] is a [Z].
    - A Python [dict] is a stdpp [gmap], a list is a [list].
    - The float arithmetic of the overload engine is modelled by exact
      rationals ([Q]), see the section on progressive overload. *)

From Stdlib Require Import ZArith QArith Ascii String List Bool Lia Sorted.
From stdpp Require Import base option list gmap strings.

Local Open Scope Z_scope.
Local Open Scope list_scope.

(** ** Python strings *)

Module PyStr.

Abbreviation str := (list ascii).

(** String literals. *)
Definition lit (s : string) : str := list_ascii_of_string s.

Definition code (c : ascii) : N := N_of_ascii c.

(** [c.isspace()] on the ASCII range: TAB, LF, VT, FF, CR, FS, GS, RS, US
    and the space. The class [\s] of [re] is the same set. *)
Definition is_space (c : ascii) : bool :=
  let n := code c in
  (((9 <=? n) && (n <=? 13)) || ((28 <=? n) && (n <=? 32)))%N.

(** [c.isdigit()] and [\d] on the ASCII range. *)
Definition is_digit (c : ascii) : bool :=
  let n := code c in ((48 <=? n) && (n <=? 57))%N.

Definition is_upper (c : ascii) : bool :=
  let n := code c in ((65 <=? n) && (n <=? 90))%N.

Definition is_lower (c : ascii) : bool :=
  let n := code c in ((97 <=? n) && (n <=? 122))%N.

Definition is_alpha (c : ascii) : bool := is_upper c || is_lower c.

Definition ch_eqb (a b : ascii) : bool := Ascii.eqb a b.

Fixpoint str_eqb (a b : str) : bool :=
  match a, b with
  | [], [] => true
  | x :: a', y :: b' => ch_eqb x y && str_eqb a' b'
  | _, _ => false
  end.

(** [s.lstrip()] *)
Fixpoint lstrip (s : str) : str :=
  match s with
  | [] => []
  | c :: r => if is_space c then lstrip r else s
  end.

(** [s.rstrip()] *)
Fixpoint rstrip (s : str) : str :=
  match s with
  | [] => []
  | c :: r =>
      match rstrip r with
      | [] => if is_space c then [] else [c]
      | r' => c :: r'
      end
  end.

(** [s.strip()] *)
Definition strip (s : str) : str := rstrip (lstrip s).

(** [s.startswith(p)] *)
Fixpoint startswith (p s : str) : bool :=
  match p, s with
  | [], _ => true
  | _ :: _, [] => false
  | x :: p', y :: s' => ch_eqb x y && startswith p' s'
  end.

(** [s.endswith(suffix)] *)
Fixpoint endswith (suffix s : str) : bool :=
  str_eqb suffix s ||
  match s with
  | [] => false
  | _ :: r => endswith suffix r
  end.

(** [sub in s] *)
Fixpoint contains (sub s : str) : bool :=
  startswith sub s ||
  match s with
  | [] => false
  | _ :: r => contains sub r
  end.

(** [s.split(sep, 1)] for a non-empty separator: the text before the first
    occurrence of [sep] and the text after it, or [s] alone. *)
Fixpoint split1 (sep s : str) : list str :=
  if startswith sep s then [[]; skipn (length sep) s]
  else
    match s with
    | [] => [[]]
    | c :: r =>
        match split1 sep r with
        | h :: t => (c :: h) :: t
        | [] => [[c]]
        end
    end.

(** [s.split(c)] for a one-character separator. *)
Fixpoint split_on (c : ascii) (s : str) : list str :=
  match s with
  | [] => [[]]
  | x :: r =>
      if ch_eqb x c then [] :: split_on c r
      else
        match split_on c r with
        | h :: t => (x :: h) :: t
        | [] => [[x]]
        end
  end.

(** [s.isdigit()]: non-empty and made of digits. *)
Definition isdigit (s : str) : bool :=
  match s with
  | [] => false
  | _ => forallb is_digit s
  end.

Definition digit_val (c : ascii) : Z := Z.of_N (code c) - 48.

(** [int(s)] on a string of digits. *)
Definition int_of_digits (s : str) : Z :=
  fold_left (fun acc c => 10 * acc + digit_val c) s 0.

Definition digit_char (d : Z) : ascii := ascii_of_N (Z.to_N (48 + d)).

(** The digits of a non-negative integer, most significant first. *)
Fixpoint digits_of (fuel : nat) (n : Z) (acc : str) : str :=
  match fuel with
  | O => acc
  | S f =>
      let acc' := digit_char (n mod 10) :: acc in
      if n <? 10 then acc' else digits_of f (n / 10) acc'
  end.

(** [str(n)], as the f-strings of the application format an integer. *)
Definition str_of_int (n : Z) : str :=
  if n <? 0 then lit "-" ++ digits_of (S (Z.to_nat (Z.log2 (- n)))) (- n) []
  else digits_of (S (Z.to_nat (Z.log2 n))) n [].

(** [c.lower()] on the ASCII range. *)
Definition lower_char (c : ascii) : ascii :=
  if is_upper c then ascii_of_N (code c + 32) else c.

(** [s.lower()] *)
Definition lower (s : str) : str := map lower_char s.

(** The longest prefix whose characters satisfy [p], and the rest. *)
Fixpoint span (p : ascii -> bool) (s : str) : str * str :=
  match s with
  | [] => ([], [])
  | c :: r =>
      if p c then let '(a, b) := span p r in (c :: a, b) else ([], s)
  end.

End PyStr.

(** ** The exercise-line parser ([workout_parser.py]) *)

Module Parser.
Import PyStr.

Record ExerciseSet := mkSet { weight : Z; reps : Z }.

(** The dictionary returned by [parse_exercise_line]. The key
    [original_line] is present in the weighted form only. *)
Record ParsedExercise := mkExercise {
  exercise : str;
  sets : list ExerciseSet;
  first_weight : Z;
  first_reps : Z;
  total_sets : Z;
  max_weight : Z;
  max_reps : Z;
  is_bodyweight : bool;
  original_line : option str
}.

(** [max(xs)] for a non-empty list of integers. *)
Definition py_max (xs : list Z) : Z :=
  match xs with
  | [] => 0
  | x :: r => fold_left Z.max r x
  end.

(** *** The three regular expressions

    Each pattern is compiled by hand into the deterministic matcher that
    the backtracking engine of [re] is equivalent to on it. The patterns
    are quoted with blanks between their tokens. *)

(** Name characters of the bodyweight pattern: [[a-zA-Z\s\-]]. *)
Definition is_name_char (c : ascii) : bool :=
  is_alpha c || is_space c || ch_eqb c "-"%char.

(** The number list [ \d+ (?: \s* , \s* \d+ )* $ ]: an automaton with four
    states. *)
Inductive nums_state := NStart | NDigits | NAfterSpace | NAfterComma.

Fixpoint nums_run (st : nums_state) (s : str) : bool :=
  match s with
  | [] => match st with NDigits => true | _ => false end
  | c :: r =>
      match st with
      | NStart => if is_digit c then nums_run NDigits r else false
      | NDigits =>
          if is_digit c then nums_run NDigits r
          else if is_space c then nums_run NAfterSpace r
          else if ch_eqb c ","%char then nums_run NAfterComma r
          else false
      | NAfterSpace =>
          if is_space c then nums_run NAfterSpace r
          else if ch_eqb c ","%char then nums_run NAfterComma r
          else false
      | NAfterComma =>
          if is_space c then nums_run NAfterComma r
          else if is_digit c then nums_run NDigits r
          else false
      end
  end.

Definition ends_with_space (s : str) : bool :=
  match rev s with
  | c :: _ => is_space c
  | [] => false
  end.

(** [re.match] of [ ^ ( [a-zA-Z\s\-]+? ) \s+ ( \d+ (?: \s* , \s* \d+ )* ) $ ]
    on the line, giving groups 1 and 2.

    Neither the name class nor [\s] contains a digit and group 2 starts
    with one, so group 2 starts at the first digit of the line and runs to
    its end. The text [p] before it is made of name characters and ends
    with white space; the lazy group 1 is the shortest non-empty prefix of
    [p] that is followed by white space only: the first character of [p]
    followed by the rest of [p] without its trailing white space. The line
    is stripped before the match, so [$] is the end of the string. *)
Definition match_bodyweight (line : str) : option (str * str) :=
  let '(p, nums) := span (fun c => negb (is_digit c)) line in
  match p with
  | [] => None
  | c :: r =>
      if forallb is_name_char p && ends_with_space r && nums_run NStart nums
      then Some (c :: rstrip r, nums)
      else None
  end.

(** [re.match] of [ ( \d+ ) \s* (?: \( [^)]+ \) )? \s* \* ] on [s], giving
    group 1.

    Every step is forced: the digits are followed by a character that is
    no digit, the parenthesised qualifier runs to the first closing
    parenthesis, and an opening parenthesis that starts no qualifier cannot
    be the asterisk. *)
Definition match_weight (s : str) : option str :=
  let '(ds, r1) := span is_digit s in
  match ds with
  | [] => None
  | _ =>
      match lstrip r1 with
      | "*"%char :: _ => Some ds
      | "("%char :: r2 =>
          let '(q, r3) := span (fun c => negb (ch_eqb c ")"%char)) r2 in
          match q, r3 with
          | _ :: _, ")"%char :: r4 =>
              match lstrip r4 with
              | "*"%char :: _ => Some ds
              | _ => None
              end
          | _, _ => None
          end
      | _ => None
      end
  end.

(** [ ( \d+ ) \s* \* \s* ( \d+ ) ] matched at the start of [s]. *)
Definition match_weight_reps_here (s : str) : option (str * str) :=
  let '(w, r1) := span is_digit s in
  match w with
  | [] => None
  | _ =>
      match lstrip r1 with
      | "*"%char :: r2 =>
          let '(r, _) := span is_digit (lstrip r2) in
          match r with
          | [] => None
          | _ => Some (w, r)
          end
      | _ => None
      end
  end.

(** [re.search] of the same pattern: the leftmost match. *)
Fixpoint search_weight_reps (s : str) : option (str * str) :=
  match match_weight_reps_here s with
  | Some m => Some m
  | None =>
      match s with
      | [] => None
      | _ :: r => search_weight_reps r
      end
  end.

(** *** [parse_exercise_line] *)

(** The body of the loop over the comma-separated parts of a rep list: the
    state is the current weight and the sets collected so far. *)
Definition parse_part (st : Z * list ExerciseSet) (part : str)
  : Z * list ExerciseSet :=
  let '(current_weight, acc) := st in
  if contains (lit "*") part then
    match search_weight_reps part with
    | Some (w, r) =>
        let current_weight' := int_of_digits w in
        (current_weight', acc ++ [mkSet current_weight' (int_of_digits r)])
    | None => st
    end
  else if isdigit part then
    (current_weight, acc ++ [mkSet current_weight (int_of_digits part)])
  else st.

(** [for part in [p.strip() for p in group.split(',')]] *)
Definition parse_parts (st : Z * list ExerciseSet) (group : str)
  : Z * list ExerciseSet :=
  fold_left parse_part (map strip (split_on ","%char group)) st.

(** The sets of a rep list: split at the semicolons when there is one, each
    group stripped and split at the commas; the current weight lives on
    across parts and groups. *)
Definition parse_reps (first_weight : Z) (reps_part : str) : list ExerciseSet :=
  if contains (lit ";") reps_part then
    snd (fold_left (fun st group => parse_parts st (strip group))
                   (split_on ";"%char reps_part) (first_weight, []))
  else
    snd (parse_parts (first_weight, []) reps_part).

(** The bodyweight form: [exercise reps, reps, reps]. The result is [None]
    when the pattern does not match or no rep count is found, and the line
    is then tried in the weighted form. *)
Definition parse_bodyweight (line : str) : option ParsedExercise :=
  match match_bodyweight line with
  | None => None
  | Some (g1, g2) =>
      let exercise_name := strip g1 in
      let reps := map (fun r => int_of_digits (strip r))
                      (filter (fun r => isdigit (strip r) = true)
                              (split_on ","%char g2)) in
      match reps with
      | [] => None
      | r0 :: _ =>
          let sets := map (mkSet 0) reps in
          Some (mkExercise exercise_name sets 0 r0 (Z.of_nat (length sets))
                           0 (py_max reps) true None)
      end
  end.

(** The weighted form: [exercise - weight * reps, reps, ...]. *)
Definition parse_weighted (line : str) : option ParsedExercise :=
  if negb (contains (lit " - ") line) then None
  else
    match split1 (lit " - ") line with
    | [p0; p1] =>
        let exercise_name := strip p0 in
        let weight_reps_part := strip p1 in
        match match_weight weight_reps_part with
        | None => None
        | Some g1 =>
            let first_weight := int_of_digits g1 in
            let reps_part :=
              if contains (lit "*") weight_reps_part then
                match split1 (lit "*") weight_reps_part with
                | [_; after] => after
                | _ => []
                end
              else [] in
            let sets := parse_reps first_weight reps_part in
            match sets with
            | [] => None
            | s0 :: _ =>
                Some (mkExercise exercise_name sets first_weight (reps s0)
                        (Z.of_nat (length sets))
                        (py_max (map weight sets)) (py_max (map reps sets))
                        (first_weight =? 0) (Some line))
            end
        end
    | _ => None
    end.

Definition parse_exercise_line (line : str) : option ParsedExercise :=
  let line := strip line in
  if str_eqb line [] || startswith (lit "SKIP") line
     || startswith (lit "run") line
  then None
  else
    match parse_bodyweight line with
    | Some e => Some e
    | None => parse_weighted line
    end.

(** *** [parse_workout_text] *)

Record ParsedWorkout := mkWorkout {
  exercises : list ParsedExercise;
  exercise_count : Z;
  workout_total_sets : Z
}.

Definition parse_workout_text (workout_text : str) : ParsedWorkout :=
  let lines := map strip
                 (filter (fun l => strip l <> []) (split_on "010"%char workout_text)) in
  let exercises := omap parse_exercise_line lines in
  mkWorkout exercises (Z.of_nat (length exercises))
            (fold_right Z.add 0 (map total_sets exercises)).

End Parser.

(** ** Dates

    [datetime.strptime] and the calendar arithmetic of [datetime] belong to
    the Python library; the application only observes a parsed value
    through its year, through the order of two values and through the
    [days] of a difference. A [datetime] is therefore its year, the ordinal
    of its day and the microseconds elapsed since midnight. *)

Module Dates.
Import PyStr.

Record datetime := mkDatetime { dt_year : Z; dt_day : Z; dt_usec : Z }.

Definition usec_per_day : Z := 86400000000.

Definition total_usec (d : datetime) : Z := dt_day d * usec_per_day + dt_usec d.

(** [(a - b).days]: a [timedelta] is normalised with its seconds and
    microseconds non-negative, so [days] is the floor of the quotient. *)
Definition days_between (a b : datetime) : Z :=
  (total_usec a - total_usec b) / usec_per_day.

(** [a < b] *)
Definition dt_ltb (a b : datetime) : bool := total_usec a <? total_usec b.

(** The formats tried, in this order, at every place that reads a workout
    date. *)
Definition date_formats : list str :=
  map lit ["%m/%d/%y %I:%M %p"; "%m/%d/%Y %I:%M %p"; "%m/%d/%y %H:%M";
           "%m/%d/%Y %H:%M"; "%m/%d/%y"; "%Y-%m-%d"; "%m-%d-%y";
           "%m/%d/%Y"]%string.

Section ParseDate.

(** [strptime date_str fmt] is [None] when [datetime.strptime] raises. *)
Variable strptime : str -> str -> option datetime.
(** [datetime.now()] *)
Variable today : datetime.

(** The guard against corrupted dates: a year beyond next year, or more
    than a day in the future. *)
Definition implausible (parsed : datetime) : bool :=
  (dt_year parsed >? dt_year today + 1) || (days_between parsed today >? 1).

(** The loop over the formats: a format that raises or gives an
    implausible date is skipped, the first other one wins. *)
Fixpoint try_formats (date_str : str) (fmts : list str) : option datetime :=
  match fmts with
  | [] => None
  | fmt :: rest =>
      match strptime date_str fmt with
      | Some parsed =>
          if implausible parsed then try_formats date_str rest
          else Some parsed
      | None => try_formats date_str rest
      end
  end.

(** [workout_date], [None] when the string is empty or no format fits. *)
Definition parse_workout_date (date_str : str) : option datetime :=
  if str_eqb date_str [] then None else try_formats date_str date_formats.

End ParseDate.

End Dates.

(** ** History before a workout and PR detection ([build_search_index]) *)

Module History.
Import PyStr Parser Dates.

(** A workout entry: [workout.get('date', '')] and
    [workout.get('text', '')]. *)
Record Workout := mkEntry { date : str; text : str }.

Record HistoryRecord := mkHist {
  best_weight : Z;
  best_reps : Z;
  best_weight_reps : Z
}.

(** [ex['exercise'].lower().strip()] *)
Definition ex_key (ex : ParsedExercise) : str := strip (lower (exercise ex)).

(** The body of the loop over the exercises of an earlier workout. *)
Definition record_exercise (history_before : gmap str HistoryRecord)
    (ex : ParsedExercise) : gmap str HistoryRecord :=
  let key := ex_key ex in
  let max_weight := max_weight ex in
  let first_reps := first_reps ex in
  match history_before !! key with
  | None =>
      <[key := mkHist max_weight first_reps
                      (if max_weight >? 0 then first_reps else 0)]>
        history_before
  | Some h =>
      let h1 :=
        if max_weight >? best_weight h
        then mkHist max_weight (best_reps h) first_reps
        else h in
      let h2 :=
        if first_reps >? best_reps h1
        then mkHist (best_weight h1) first_reps (best_weight_reps h1)
        else h1 in
      <[key := h2]> history_before
  end.

(** The body of the loop over the exercises of the workout under test: the
    state is the pair of [has_pr] and [has_strength_increase]. *)
Definition check_exercise (history_before : gmap str HistoryRecord)
    (flags : bool * bool) (ex : ParsedExercise) : bool * bool :=
  let '(has_pr, has_strength_increase) := flags in
  let current_weight := max_weight ex in
  let current_reps := first_reps ex in
  let is_bodyweight := is_bodyweight ex || (current_weight =? 0) in
  match history_before !! ex_key ex with
  | None => flags
  | Some hist =>
      if is_bodyweight then
        if current_reps >? best_reps hist
        then (true, has_strength_increase) else flags
      else if current_weight >? best_weight hist
      then (true, has_strength_increase)
      else if (current_weight =? best_weight hist)
              && (current_reps >? best_weight_reps hist)
      then (has_pr, true)
      else flags
  end.

(** The flags that one exercise sets on its own. *)
Definition exercise_flags (history_before : gmap str HistoryRecord)
    (ex : ParsedExercise) : bool * bool :=
  check_exercise history_before (false, false) ex.

Section Reconstruct.

Variable strptime : str -> str -> option datetime.
Variable today : datetime.

(** Whether [prev_workout] is folded into the history of a workout dated
    [workout_date]: its date parses and is strictly earlier. *)
Definition is_earlier (workout_date : datetime) (prev_workout : Workout) : bool :=
  match parse_workout_date strptime today (date prev_workout) with
  | Some prev_date => dt_ltb prev_date workout_date
  | None => false
  end.

(** The loop over all workouts that builds [history_before]. *)
Definition history_before (workouts : list Workout) (workout_date : datetime)
  : gmap str HistoryRecord :=
  fold_left
    (fun history prev_workout =>
       if is_earlier workout_date prev_workout
       then fold_left record_exercise
                      (exercises (parse_workout_text (text prev_workout)))
                      history
       else history)
    workouts ∅.

(** The history at hand when a workout is examined: nothing is collected
    for a workout whose date does not parse. *)
Definition reconstructed_history (workouts : list Workout) (workout : Workout)
  : gmap str HistoryRecord :=
  match parse_workout_date strptime today (date workout) with
  | Some workout_date => history_before workouts workout_date
  | None => ∅
  end.

(** [has_pr] and [has_strength_increase] of a workout. *)
Definition detect_pr (workouts : list Workout) (workout : Workout) : bool * bool :=
  match parse_workout_date strptime today (date workout) with
  | Some workout_date =>
      fold_left (check_exercise (history_before workouts workout_date))
                (exercises (parse_workout_text (text workout)))
                (false, false)
  | None => (false, false)
  end.

End Reconstruct.

End History.

(** ** Progressive overload ([progressive_overload] and
    [progressive_overload_suggestions])

    Weights enter as integers (the parser reads no decimal weight) and
    leave as integers (every result goes through [int]); in between the
    code computes with floats. The model computes with exact rationals.
    The two agree on the weights a log can hold: the argument of [round]
    is a multiple of [1/200], a float is within [2^-50] of the exact value
    relatively, and in the half-way cases the floats involved are
    multiples of [1/2] and carry no rounding error. *)

Module Overload.
Import PyStr Parser.

Local Open Scope Q_scope.

(** [round(x)]: to the nearest integer, a tie to the even one. *)
Definition py_round (x : Q) : Z :=
  let d := Zpos (Qden x) in
  let q := (Qnum x / d)%Z in
  let r := (Qnum x mod d)%Z in
  if (2 * r <? d)%Z then q
  else if (d <? 2 * r)%Z then (q + 1)%Z
  else if Z.even q then q else (q + 1)%Z.

(** [int(x)]: towards zero. *)
Definition py_int (x : Q) : Z := Z.quot (Qnum x) (Zpos (Qden x)).

(** [max(a, b)] *)
Definition py_maxQ (a b : Q) : Q := if Qle_bool b a then a else b.

(** [max(1, last_reps - 1) if last_reps > 1 else last_reps] *)
Definition deload_reps (last_reps : Z) : Z :=
  if (last_reps >? 1)%Z then Z.max 1 (last_reps - 1) else last_reps.

(** The branch taken after more than 30 days, the same in both
    functions. *)
Definition deload_weight (last_weight : Z) : Z :=
  let weight_decrease := inject_Z last_weight * 0.05 in
  if (last_weight <? 50)%Z
  then Z.max 1 (py_int (inject_Z (py_round ((inject_Z last_weight - weight_decrease) / 2.5)) * 2.5))
  else Z.max 1 (py_int (inject_Z (py_round ((inject_Z last_weight - weight_decrease) / 5)) * 5)).

(** *** [progressive_overload]: [new_weight] and [new_reps] of an exercise
    whose last performance has a positive weight. *)
Definition progressive_overload (last_weight last_reps days_ago : Z) : Z * Z :=
  if (days_ago <=? 14)%Z then
    if ((last_reps <? 10) && (last_reps + 1 <=? 12))%Z then
      (last_weight, Z.min (last_reps + 1) 12)
    else if ((last_reps >=? 10) && (last_reps <? 12))%Z then
      let weight_increase := inject_Z last_weight * 0.025 in
      let new_weight :=
        if (last_weight <? 50)%Z
        then inject_Z (py_round ((inject_Z last_weight + weight_increase) / 2.5)) * 2.5
        else inject_Z (py_round ((inject_Z last_weight + weight_increase) / 5)) * 5 in
      (py_int new_weight, Z.min last_reps 12)
    else
      let weight_increase := inject_Z last_weight * 0.025 in
      let new_weight :=
        if (last_weight <? 50)%Z
        then inject_Z (py_round ((inject_Z last_weight + weight_increase) / 2.5)) * 2.5
        else inject_Z (py_round ((inject_Z last_weight + weight_increase) / 5)) * 5 in
      (py_int new_weight, 12%Z)
  else if (days_ago <=? 30)%Z then (last_weight, last_reps)
  else (deload_weight last_weight, deload_reps last_reps).

(** The last performance of an exercise found in the history. *)
Record LastPerf := mkPerf { days_ago : Z; perf_weight : Z; perf_reps : Z }.

(** The line written for one exercise of the current workout: the new
    target when the history has a weighted performance, the values of the
    line itself otherwise, and no line without a positive weight and
    positive reps. *)
Definition improved_line (last_perf : option LastPerf) (ex : ParsedExercise)
  : option str :=
  let '(new_weight, new_reps) :=
    match last_perf with
    | Some p =>
        if (perf_weight p >? 0)%Z
        then progressive_overload (perf_weight p) (perf_reps p) (days_ago p)
        else if ((max_weight ex >? 0) && (first_reps ex >? 0))%Z
        then (max_weight ex, first_reps ex) else (0%Z, 0%Z)
    | None =>
        if ((max_weight ex >? 0) && (first_reps ex >? 0))%Z
        then (max_weight ex, first_reps ex) else (0%Z, 0%Z)
    end in
  if ((new_weight >? 0) && (new_reps >? 0))%Z
  then Some (exercise ex ++ lit " - " ++ str_of_int new_weight
               ++ lit " * " ++ str_of_int new_reps)%list
  else None.

(** *** [progressive_overload_suggestions]: [suggested_weight] and
    [suggested_reps] of a weighted exercise. *)
Definition suggestion_weighted (last_weight last_reps days_ago : Z) : Z * Z :=
  if (days_ago <=? 14)%Z then
    if (last_reps <? 6)%Z then
      (last_weight, Z.min (last_reps + 1) 6)
    else
      let weight_increase := py_maxQ (inject_Z last_weight * 0.025) 2.5 in
      let new_weight := inject_Z last_weight + weight_increase in
      let suggested_weight :=
        if (last_weight <? 50)%Z
        then py_int (inject_Z (py_round (new_weight / 2.5)) * 2.5)
        else py_int (inject_Z (py_round (new_weight / 5)) * 5) in
      let suggested_weight :=
        if (suggested_weight <=? last_weight)%Z
        then py_int (if (last_weight <? 50)%Z
                     then inject_Z last_weight + 2.5
                     else inject_Z last_weight + 5)
        else suggested_weight in
      (suggested_weight, 5%Z)
  else if (days_ago <=? 30)%Z then (last_weight, last_reps)
  else (deload_weight last_weight, deload_reps last_reps).

(** The same for an exercise done with the body weight. *)
Definition suggestion_bodyweight (last_weight last_reps days_ago : Z) : Z * Z :=
  if (days_ago <=? 14)%Z then
    if (last_weight =? 0)%Z then
      if (last_reps <? 12)%Z then (0%Z, Z.min (last_reps + 1) 12)
      else (25%Z, 5%Z)
    else (0%Z, last_reps)
  else if (days_ago <=? 30)%Z then (0%Z, last_reps)
  else (0%Z, deload_reps last_reps).

(** The suggestion for one exercise of the current workout, [None] when
    none is shown. The display strings of the answer are left out. *)
Definition suggestion (last_perf : option LastPerf) (ex : ParsedExercise)
  : option (Z * Z) :=
  let current_weight := max_weight ex in
  let current_reps := first_reps ex in
  let is_bodyweight := is_bodyweight ex || (current_weight =? 0)%Z in
  match last_perf with
  | Some p =>
      if is_bodyweight then
        let s := suggestion_bodyweight (perf_weight p) (perf_reps p) (days_ago p) in
        if negb (fst s =? current_weight)%Z || negb (snd s =? current_reps)%Z
        then Some s else None
      else if (perf_weight p >? 0)%Z
      then Some (suggestion_weighted (perf_weight p) (perf_reps p) (days_ago p))
      else None
  | None => None
  end.

End Overload.

(** ** Exercise names and muscle groups ([workout_parser.py]) *)

Module Mapping.
Import PyStr Parser.

(** An entry of [exercise_mapping.json]; an absent [muscle_groups] or
    [variations] reads as the empty list. *)
Record MappingData := mkMapping {
  normalized : option str;
  muscle_groups : list str;
  variations : list str
}.

Definition list_mem (x : str) (l : list str) : bool := existsb (str_eqb x) l.

(** [found.add(x)] on a set kept as a list without duplicates, in the
    order of insertion. *)
Definition set_add (found : list str) (x : str) : list str :=
  if list_mem x found then found else found ++ [x].

Section WithMapping.

(** [load_exercise_mapping().get('mappings', {})], in the order of the
    file; empty when the file is missing or unreadable. *)
Variable mappings : list (str * MappingData).

Definition lookup_mapping (key : str) : option MappingData :=
  snd <$> find (fun kv => str_eqb (fst kv) key) mappings.

Definition mapped (exercise_name : str) (d : MappingData) : str * list str :=
  (default exercise_name (normalized d), muscle_groups d).

(** [normalize_exercise_name]: the direct match, then the first entry with
    a variation equal to the name or contained in it, then the name itself
    with no group. *)
Definition normalize_exercise_name (exercise_name : str) : str * list str :=
  let exercise_name_lower := strip (lower exercise_name) in
  match lookup_mapping exercise_name_lower with
  | Some d => mapped exercise_name d
  | None =>
      match find (fun kv =>
                    existsb (fun variation =>
                               str_eqb (lower variation) exercise_name_lower
                               || contains (lower variation) exercise_name_lower)
                            (variations (snd kv)))
                 mappings with
      | Some kv => mapped exercise_name (snd kv)
      | None => (exercise_name, [])
      end
  end.

(** [extract_muscle_groups_from_exercises] without a knowledge base: the
    set of the mapped groups of every exercise. *)
Definition extract_muscle_groups_from_exercises (exercises : list ParsedExercise)
  : list str :=
  fold_left
    (fun found ex =>
       fold_left set_add (snd (normalize_exercise_name (exercise ex))) found)
    exercises [].

End WithMapping.

End Mapping.

(** ** Recovery status ([recovery_check]) *)

Module Recovery.
Import PyStr Parser Dates History Mapping.

(** [any(word in ex_name for word in words)] *)
Definition any_in (words : list string) (ex_name : str) : bool :=
  existsb (fun word => contains (lit word) ex_name) words.

(** The groups inferred from the words of an exercise name, in the order
    in which they are appended. *)
Definition inferred_groups (ex_name : str) : list str :=
  (if any_in ["squat"; "lunge"; "split"; "hip"; "glute"]%string ex_name
   then [lit "glutes"] else [])
  ++ (if contains (lit "calf") ex_name then [lit "calves"] else [])
  ++ (if any_in ["crunch"; "sit-up"; "plank"; "ab"; "core"]%string ex_name
      then [lit "abs"] else []).

(** The body of the loop that keeps the smallest [days_ago] of a group. *)
Definition track_group (days_ago : Z) (last_trained : gmap str Z) (group : str)
  : gmap str Z :=
  match last_trained !! group with
  | None => <[group := days_ago]> last_trained
  | Some d =>
      if days_ago <? d then <[group := days_ago]> last_trained
      else last_trained
  end.

Definition all_groups : list str :=
  map lit ["chest"; "back"; "shoulders"; "arms"; "biceps"; "triceps";
           "legs"; "glutes"; "calves"; "core"; "abs"]%string.

(** The four lists of [(group, days)], [days] being [None] for a group that
    was not trained in the window. *)
Record Buckets := mkBuckets {
  too_soon : list (str * option Z);
  optimal : list (str * option Z);
  ready : list (str * option Z);
  neglected : list (str * option Z)
}.

(** The body of the loop over [all_groups]. *)
Definition categorize (last_trained : gmap str Z) (b : Buckets) (group : str)
  : Buckets :=
  match last_trained !! group with
  | Some days =>
      if days <=? 1 then
        mkBuckets (too_soon b ++ [(group, Some days)]) (optimal b) (ready b) (neglected b)
      else if days <=? 3 then
        mkBuckets (too_soon b) (optimal b ++ [(group, Some days)]) (ready b) (neglected b)
      else if days <=? 6 then
        mkBuckets (too_soon b) (optimal b) (ready b ++ [(group, Some days)]) (neglected b)
      else
        mkBuckets (too_soon b) (optimal b) (ready b) (neglected b ++ [(group, Some days)])
  | None =>
      mkBuckets (too_soon b) (optimal b) (ready b) (neglected b ++ [(group, None)])
  end.

(** The filter that drops the general group [arms] when a specific one is
    neglected too. *)
Definition filter_neglected (neglected : list (str * option Z))
  : list (str * option Z) :=
  let names := map fst neglected in
  filter (fun g => ¬ (str_eqb (fst g) (lit "arms")
                       && (list_mem (lit "biceps") names
                           || list_mem (lit "triceps") names) = true))
         neglected.

(** The buckets of a table of last training days. *)
Definition recovery_buckets (last_trained : gmap str Z) : Buckets :=
  let b := fold_left (categorize last_trained) all_groups
                     (mkBuckets [] [] [] []) in
  mkBuckets (too_soon b) (optimal b) (ready b) (filter_neglected (neglected b)).

Section Window.

Variable strptime : str -> str -> option datetime.
Variable today : datetime.
Variable mappings : list (str * MappingData).

(** The groups of one workout: the mapped groups, then the inferred groups
    of every exercise name. *)
Definition workout_groups (workout_text : str) : list str :=
  let exercises := exercises (parse_workout_text workout_text) in
  extract_muscle_groups_from_exercises mappings exercises
  ++ concat (map (fun ex => inferred_groups (lower (exercise ex))) exercises).

(** The days ago and the groups of a workout of the window: none for a
    date that does not parse or lies more than 14 days back. *)
Definition window_entry (workout : Workout) : option (Z * list str) :=
  match parse_workout_date strptime today (date workout) with
  | None => None
  | Some workout_date =>
      let days_ago := days_between today workout_date in
      if days_ago >? 14 then None
      else Some (days_ago, workout_groups (text workout))
  end.

(** [muscle_group_last_trained] after the loop over the 20 most recent
    workouts. *)
Definition last_trained (workouts : list Workout) : gmap str Z :=
  fold_left
    (fun acc workout =>
       match window_entry workout with
       | None => acc
       | Some (days_ago, groups) => fold_left (track_group days_ago) groups acc
       end)
    (firstn 20 workouts) ∅.

Definition recovery_check (workouts : list Workout) : Buckets :=
  recovery_buckets (last_trained workouts).

End Window.

End Recovery.

(** ** The incremental index update ([update_index_for_workout]) *)

Module Index.
Import PyStr Parser Mapping.

(** [index['_metadata']] *)
Record Metadata := mkMeta {
  workout_hash : str;
  workout_count : Z;
  last_updated : str
}.

(** The stored index: the lists of workout positions under the category
    names, and the entry [_metadata] when there is one. *)
Record SearchIndex := mkIndex {
  categories : gmap str (list Z);
  metadata : option Metadata
}.

(** The facts of the workout: [workout_data.get('has_pr', False)] and
    [workout_data.get('text', '')]. *)
Record WorkoutData := mkData { has_pr : bool; data_text : str }.

Definition pr_category : str := lit "PR personal record".
Definition chest_category : str := lit "chest workout".
Definition full_body_category : str := lit "full body".
Definition leg_day_category : str := lit "leg day".
Definition upper_body_category : str := lit "upper body".

Definition rule_based_categories : list str :=
  [pr_category; chest_category; full_body_category].

(** [x in l] *)
Definition pos_mem (x : Z) (l : list Z) : bool := existsb (Z.eqb x) l.

(** [l.remove(x)] when [x in l]: the first occurrence goes. *)
Fixpoint remove_first (x : Z) (l : list Z) : list Z :=
  match l with
  | [] => []
  | y :: r => if x =? y then r else y :: remove_first x r
  end.

(** [if category in index and workout_index in index[category]:
       index[category].remove(workout_index)] *)
Definition remove_from (workout_index : Z) (cats : gmap str (list Z))
    (category : str) : gmap str (list Z) :=
  match cats !! category with
  | Some l =>
      if pos_mem workout_index l
      then <[category := remove_first workout_index l]> cats
      else cats
  | None => cats
  end.

(** [if category not in index: index[category] = []] followed by
    [if workout_index not in index[category]:
       index[category].append(workout_index)] *)
Definition add_to (workout_index : Z) (category : str)
    (cats : gmap str (list Z)) : gmap str (list Z) :=
  let l := default [] (cats !! category) in
  if pos_mem workout_index l then <[category := l]> cats
  else <[category := l ++ [workout_index]]> cats.

Section Update.

Variable mappings : list (str * MappingData).
(** [get_workout_hash()] and [datetime.now().isoformat()] at the time of
    the call. *)
Variable current_hash : str.
Variable now_iso : str.

(** [muscle_groups] and [has_chest] after the loop over the exercises. *)
Definition scan_exercises (exercises : list ParsedExercise) : list str * bool :=
  fold_left
    (fun st ex =>
       let mapped_groups := snd (normalize_exercise_name mappings (exercise ex)) in
       (fold_left set_add mapped_groups (fst st),
        if list_mem (lit "chest") mapped_groups then true else snd st))
    exercises ([], false).

(** The branch of [add] and [update]. *)
Definition add_or_update (workout_index : Z) (workout_data : WorkoutData)
    (cats : gmap str (list Z)) : gmap str (list Z) :=
  let cats := fold_left (remove_from workout_index) rule_based_categories cats in
  let cats := if has_pr workout_data
              then add_to workout_index pr_category cats else cats in
  let exercises := exercises (parse_workout_text (data_text workout_data)) in
  match exercises with
  | [] => cats
  | _ =>
      let '(muscle_groups, has_chest) := scan_exercises exercises in
      let cats := if has_chest
                  then add_to workout_index chest_category cats else cats in
      if 3 <=? Z.of_nat (length muscle_groups)
      then add_to workout_index full_body_category cats else cats
  end.

(** The index stored after the call; the call returns at once, and stores
    nothing, when the index has no metadata. *)
Definition update_index_for_workout (index : SearchIndex) (workout_index : Z)
    (workout_data : WorkoutData) (operation : str) : SearchIndex :=
  match metadata index with
  | None => index
  | Some meta =>
      let cats :=
        if str_eqb operation (lit "add") || str_eqb operation (lit "update")
        then add_or_update workout_index workout_data (categories index)
        else if str_eqb operation (lit "remove")
        then fold_left (remove_from workout_index) rule_based_categories
                       (categories index)
        else categories index in
      mkIndex cats
              (Some (mkMeta current_hash (workout_count meta) now_iso))
  end.

End Update.

End Index.

(** ** Sample data used to instantiate the properties *)

Module Samples.
Import PyStr Parser Dates History Mapping.

(** What [datetime.strptime] answers on the date strings of the samples;
    it raises on every other pair of a string and a format. *)
Definition strptime_table : list (string * string * datetime) :=
  [ ("01/01/24", "%m/%d/%y", mkDatetime 2024 738886 0);
    ("01/08/24", "%m/%d/%y", mkDatetime 2024 738893 0);
    ("01/29/24", "%m/%d/%y", mkDatetime 2024 738914 0);
    ("01/22/24", "%m/%d/%y", mkDatetime 2024 738907 0);
    ("02/01/24", "%m/%d/%y", mkDatetime 2024 738917 0);
    ("01/01/30", "%m/%d/%y", mkDatetime 2030 741078 0) ]%string.

Definition sample_strptime (date_str fmt : str) : option datetime :=
  snd <$> find (fun e => str_eqb date_str (lit (fst (fst e)))
                         && str_eqb fmt (lit (snd (fst e))))
               strptime_table.

(** Noon of 1 February 2024. *)
Definition sample_today : datetime := mkDatetime 2024 738917 43200000000.

(** A mapping file with three entries. *)
Definition sample_mappings : list (str * MappingData) :=
  [ (lit "bench press",
     mkMapping (Some (lit "Bench Press")) [lit "chest"; lit "triceps"]
               [lit "bench"]);
    (lit "squat",
     mkMapping (Some (lit "Squat")) [lit "legs"; lit "glutes"] [lit "squats"]);
    (lit "barbell curl",
     mkMapping (Some (lit "Barbell Curl")) [lit "biceps"] [lit "curl"]) ].

(** A window of four workouts: squats today, a bench press three days
    ago, curls ten days ago and a bench press 24 days ago. *)
Definition sample_window : list Workout :=
  [ mkEntry (lit "02/01/24") (lit "squat - 135 * 5");
    mkEntry (lit "01/29/24") (lit "bench press - 100 * 5");
    mkEntry (lit "01/22/24") (lit "barbell curl - 30 * 10");
    mkEntry (lit "01/08/24") (lit "bench press - 95 * 5") ].

(** An index as a build leaves it, and the facts of a workout. *)
Definition sample_index : Index.SearchIndex :=
  Index.mkIndex
    (<[Index.pr_category := [2; 0]]>
       (<[Index.chest_category := [0; 1]]>
          (<[Index.leg_day_category := [1]]> ∅)))
    (Some (Index.mkMeta (lit "9e107d9d372bb6826bd81d3542a419d6") 3
                        (lit "2024-02-01T12:00:00"))).

Definition sample_data : Index.WorkoutData :=
  Index.mkData true (lit "bench press - 105 * 5").

(** An index with a position twice in a list, which no build writes. *)
Definition index_with_duplicate : Index.SearchIndex :=
  Index.mkIndex (<[Index.pr_category := [3; 3]]> ∅)
    (Some (Index.mkMeta (lit "9e107d9d372bb6826bd81d3542a419d6") 4
                        (lit "2024-02-01T12:00:00"))).

End Samples.

(** ** Notions used by the properties *)

Module Notions.
Import PyStr Parser Dates History.

(** A date string that yields no date: every format either raises or gives
    a date rejected as implausible. *)
Definition unparseable (strptime : str -> str -> option datetime)
    (today : datetime) (date_str : str) : Prop :=
  ∀ fmt, fmt ∈ date_formats →
    match strptime date_str fmt with
    | None => True
    | Some parsed => implausible today parsed = true
    end.

(** *** Parsed exercises *)

(** A set with a non-negative weight and non-negative reps. *)
Definition set_ok (s : ExerciseSet) : Prop := 0 <= weight s ∧ 0 <= reps s.

(** What every dictionary returned by the line parser satisfies. *)
Definition well_formed (e : ParsedExercise) : Prop :=
  (∃ s0 rest, sets e = s0 :: rest ∧ first_reps e = reps s0)
  ∧ Forall set_ok (sets e)
  ∧ 0 <= first_weight e
  ∧ total_sets e = Z.of_nat (length (sets e))
  ∧ max_weight e = py_max (map weight (sets e))
  ∧ max_reps e = py_max (map reps (sets e))
  ∧ is_bodyweight e = (first_weight e =? 0).

(** The canonical line of a parsed exercise:
    [f"{exercise} - {first_weight} * {first_reps}"]. *)
Definition canonical_line (e : ParsedExercise) : str :=
  exercise e ++ lit " - " ++ str_of_int (first_weight e)
    ++ lit " * " ++ str_of_int (first_reps e).

(** The occurrences of [sep] in [a ++ x] that start inside [a]: none. *)
Fixpoint no_match_within (sep a x : str) : bool :=
  match a with
  | [] => true
  | _ :: a' => negb (startswith sep (a ++ x)) && no_match_within sep a' x
  end.

(** *** The history *)

(** What [record_exercise] leaves under the key of the exercise. *)
Definition updated_record (o : option HistoryRecord) (ex : ParsedExercise)
  : HistoryRecord :=
  match o with
  | None =>
      mkHist (max_weight ex) (first_reps ex)
             (if max_weight ex >? 0 then first_reps ex else 0)
  | Some h =>
      let h1 :=
        if max_weight ex >? best_weight h
        then mkHist (max_weight ex) (best_reps h) (first_reps ex)
        else h in
      if first_reps ex >? best_reps h1
      then mkHist (best_weight h1) (first_reps ex) (best_weight_reps h1)
      else h1
  end.

(** The exercises of the workouts dated strictly before [workout_date], in
    the order in which the loops meet them. *)
Definition earlier_exercises (strptime : str -> str -> option datetime)
    (today : datetime) (workouts : list Workout) (workout_date : datetime)
  : list ParsedExercise :=
  concat (map (fun w => exercises (parse_workout_text (text w)))
              (filter (fun w => is_earlier strptime today workout_date w = true)
                      workouts)).

(** The records of one exercise key. *)
Definition records_of (key : str) (exs : list ParsedExercise) : list ParsedExercise :=
  filter (fun e => ex_key e = key) exs.

(** The record after a non-empty list of records of one key. *)
Definition folded (recs : list ParsedExercise) : option HistoryRecord :=
  fold_left (fun o e => Some (updated_record o e)) recs None.

(** A set of [r] reps at the weight [w] is among the sets of the records. *)
Definition set_observed (recs : list ParsedExercise) (w r : Z) : Prop :=
  ∃ e s, e ∈ recs ∧ s ∈ sets e ∧ weight s = w ∧ reps s = r.

(** *** Recovery *)

Import Mapping Recovery.

(** The smaller of the days recorded so far and of [d]. *)
Definition min_with (o : option Z) (d : Z) : Z :=
  match o with None => d | Some d0 => Z.min d0 d end.

(** A group counts as neglected when it was not trained in the window or
    was last trained a week ago or more. *)
Definition is_neglected (last_trained : gmap str Z) (group : str) : Prop :=
  match last_trained !! group with None => True | Some d => 7 <= d end.

(** The days ago and the groups of the workouts of the window that count. *)
Definition window_entries (strptime : str -> str -> option datetime)
    (today : datetime) (mappings : list (str * MappingData))
    (workouts : list Workout) : list (Z * list str) :=
  omap (window_entry strptime today mappings) (firstn 20 workouts).

Definition track_entries (entries : list (Z * list str)) (acc : gmap str Z)
  : gmap str Z :=
  fold_left (fun acc e => fold_left (track_group (fst e)) (snd e) acc)
            entries acc.

Inductive status := TooSoon | Optimal | Ready | Neglected.

Global Instance status_eq_dec : EqDecision status.
Proof. solve_decision. Defined.

Definition status_of (o : option Z) : status :=
  match o with
  | None => Neglected
  | Some d =>
      if d <=? 1 then TooSoon else if d <=? 3 then Optimal
      else if d <=? 6 then Ready else Neglected
  end.

Definition bucket (k : status) (b : Buckets) : list (str * option Z) :=
  match k with
  | TooSoon => too_soon b
  | Optimal => optimal b
  | Ready => ready b
  | Neglected => neglected b
  end.

Definition assemble (b : Buckets) : Buckets :=
  mkBuckets (too_soon b) (optimal b) (ready b) (filter_neglected (neglected b)).

(** *** The index *)

Import Mapping Index.

(** What the update does to one list: the position leaves it ... *)
Definition without (x : Z) (l : list Z) : list Z :=
  if pos_mem x l then remove_first x l else l.

(** ... and joins it again at the end unless it is there. *)
Definition with_new (x : Z) (l : list Z) : list Z :=
  if pos_mem x l then l else l ++ [x].

(** Whether the facts of a workout put it in a rule-based category. *)
Definition qualifies (mappings : list (str * MappingData))
    (data : WorkoutData) (c : str) : bool :=
  let exs := exercises (parse_workout_text (data_text data)) in
  if decide (c = pr_category) then has_pr data
  else if decide (c = chest_category)
  then bool_decide (exs ≠ []) && snd (scan_exercises mappings exs)
  else if decide (c = full_body_category)
  then bool_decide (exs ≠ [])
       && (3 <=? Z.of_nat (length (fst (scan_exercises mappings exs))))
  else false.

(** The effect of [add] on the entry of a rule-based category. *)
Definition readd (x : Z) (q : bool) (o : option (list Z)) : option (list Z) :=
  let o' := without x <$> o in
  if q then Some (with_new x (default [] o')) else o'.

(** No rule-based list holds a position twice. Every list written by a
    build is a list of increasing positions, and the update keeps the
    property (lemma [update_keeps_lists_duplicate_free]). *)
Definition rule_lists_nodup (cats : gmap str (list Z)) : Prop :=
  ∀ c l, c ∈ rule_based_categories → cats !! c = Some l → NoDup l.

End Notions.

(** ** The rule-based lists of a full build ([build_search_index]) *)

Module Build.
Import PyStr Parser Dates History Mapping Index.

(** [enumerate(workouts)], counting from [start]. *)
Fixpoint enumerate_from {A} (start : Z) (l : list A) : list (Z * A) :=
  match l with
  | [] => []
  | x :: r => (start, x) :: enumerate_from (start + 1) r
  end.

(** [[i for i, w in enumerate(workouts) if p(w)][:20]] *)
Definition indices_where (p : Workout -> bool) (workouts : list Workout) : list Z :=
  firstn 20 (map fst (filter (fun iw => p (snd iw) = true)
                             (enumerate_from 0 workouts))).

Section WithEnvironment.

Variable strptime : str -> str -> option datetime.
Variable today : datetime.
Variable mappings : list (str * MappingData).

(** Three or more distinct mapped groups among the exercises of a workout
    that has exercises. *)
Definition is_full_body (workout : Workout) : bool :=
  let exercises := exercises (parse_workout_text (text workout)) in
  match exercises with
  | [] => false
  | _ =>
      let muscle_groups :=
        fold_left (fun found ex =>
                     fold_left set_add
                       (snd (normalize_exercise_name mappings (exercise ex))) found)
                  exercises [] in
      3 <=? Z.of_nat (length muscle_groups)
  end.

(** Some exercise of the workout maps to the chest. *)
Definition is_chest (workout : Workout) : bool :=
  existsb (fun ex => list_mem (lit "chest")
                       (snd (normalize_exercise_name mappings (exercise ex))))
          (exercises (parse_workout_text (text workout))).

(** The three rule-based entries of the index built from [workouts];
    nothing is built from an empty log. *)
Definition build_rule_based (workouts : list Workout) : gmap str (list Z) :=
  match workouts with
  | [] => ∅
  | _ =>
      <[chest_category := indices_where is_chest workouts]>
        (<[full_body_category := indices_where is_full_body workouts]>
           (<[pr_category :=
                indices_where
                  (fun w => fst (detect_pr strptime today workouts w)) workouts]> ∅))
  end.

End WithEnvironment.

End Build.

(** ** The last performance of every exercise
    ([progressive_overload_suggestions])

    The workouts are those the database returns for the user who is
    logged in; the answer to a request without a user is left out. *)

Module LastDone.
Import PyStr Parser Dates History Overload.

(** The reps of the heaviest set: the first set at [max_weight], and
    [max_weight] itself when the loop finds none. *)
Definition reps_at_max_weight (ex : ParsedExercise) : Z :=
  match find (fun s => weight s =? max_weight ex) (sets ex) with
  | Some s => reps s
  | None => max_weight ex
  end.

(** The reps recorded for an exercise: those of the first set for a
    bodyweight exercise, those of the heaviest set otherwise. *)
Definition performance_reps (ex : ParsedExercise) : Z :=
  if is_bodyweight ex || (max_weight ex =? 0) then first_reps ex
  else reps_at_max_weight ex.

Definition performance (days : Z) (ex : ParsedExercise) : LastPerf :=
  mkPerf days (max_weight ex) (performance_reps ex).

(** The body of the loop over the exercises of a workout done [days] days
    ago: nothing is recorded for a negative number of days or for more
    than ten years; a performance is recorded for a new key or for fewer
    days. *)
Definition note_exercise (days : Z) (last_done : gmap str LastPerf)
    (ex : ParsedExercise) : gmap str LastPerf :=
  if (days <? 0) || (days >? 3650) then last_done
  else
    let key := ex_key ex in
    match last_done !! key with
    | None => <[key := performance days ex]> last_done
    | Some p =>
        if days <? days_ago p then <[key := performance days ex]> last_done
        else last_done
    end.

Section WithClock.

Variable strptime : str -> str -> option datetime.
Variable today : datetime.

(** [exercise_last_done] after the loop over the 30 most recent workouts. *)
Definition exercise_last_done (workouts : list Workout) : gmap str LastPerf :=
  fold_left
    (fun acc workout =>
       match parse_workout_date strptime today (date workout) with
       | None => acc
       | Some workout_date =>
           fold_left (note_exercise (days_between today workout_date))
                     (exercises (parse_workout_text (text workout))) acc
       end)
    (firstn 30 workouts) ∅.

(** The answer of [progressive_overload_suggestions]: [None] stands for
    the error answer to an empty workout, [Some l] for the list of the
    suggestions, each with the name of its exercise. The display strings
    are left out. *)
Definition suggestions (workouts : list Workout) (workout : str)
  : option (list (str * (Z * Z))) :=
  let current_workout := strip workout in
  match current_workout with
  | [] => None
  | _ =>
      let last_done := exercise_last_done workouts in
      Some (omap (fun ex => (fun s => (exercise ex, s))
                              <$> suggestion (last_done !! ex_key ex) ex)
                 (exercises (parse_workout_text current_workout)))
  end.

End WithClock.

End LastDone.

(** ** Runs of the loops, used by the properties *)

Module Runs.
Import PyStr Parser Dates History Overload Mapping Index LastDone.

(** The performances met by the loop of [exercise_last_done], in its
    order, each with the days elapsed since its workout. *)
Definition performances (strptime : str -> str -> option datetime)
    (today : datetime) (workouts : list Workout) : list (Z * ParsedExercise) :=
  concat
    (map (fun w => match parse_workout_date strptime today (date w) with
                   | None => []
                   | Some d =>
                       map (fun ex => (days_between today d, ex))
                           (exercises (parse_workout_text (text w)))
                   end)
         (firstn 30 workouts)).

Definition note_all (perfs : list (Z * ParsedExercise)) (acc : gmap str LastPerf)
  : gmap str LastPerf :=
  fold_left (fun acc de => note_exercise (fst de) acc (snd de)) perfs acc.

(** The index after a run of calls of [update_index_for_workout], each
    with its position, its facts and its operation. *)
Definition apply_updates (mappings : list (str * MappingData))
    (current_hash now_iso : str) (index : SearchIndex)
    (ops : list (Z * WorkoutData * str)) : SearchIndex :=
  fold_left (fun idx op =>
               update_index_for_workout mappings current_hash now_iso
                 idx (fst (fst op)) (snd (fst op)) (snd op))
            ops index.

End Runs.

(** ** The callers of the index update ([log_workout] and
    [delete_workout])

    Both judge a PR against a history in which a key has a best weight and
    best reps only, collected from workouts chosen by their place in the
    log and not by their date. *)

Module Callers.
Import PyStr Parser Dates History Mapping Index Build.

Record PlaceRecord := mkPlace { best_weight : Z; best_reps : Z }.

(** The body of the loop over the exercises of a workout of the history. *)
Definition record_place (history_before : gmap str PlaceRecord)
    (ex : ParsedExercise) : gmap str PlaceRecord :=
  let key := ex_key ex in
  let max_weight := max_weight ex in
  let first_reps := first_reps ex in
  match history_before !! key with
  | None => <[key := mkPlace max_weight first_reps]> history_before
  | Some h =>
      let h1 :=
        if max_weight >? best_weight h
        then mkPlace max_weight (best_reps h) else h in
      let h2 :=
        if first_reps >? best_reps h1
        then mkPlace (best_weight h1) first_reps else h1 in
      <[key := h2]> history_before
  end.

(** [history_before] after the loop over [prev_workouts]. *)
Definition history_of (prev_workouts : list Workout) : gmap str PlaceRecord :=
  fold_left
    (fun history prev_workout =>
       fold_left record_place
                 (exercises (parse_workout_text (text prev_workout))) history)
    prev_workouts ∅.

(** The test of one exercise in the loop that stops at the first PR. *)
Definition beats (history_before : gmap str PlaceRecord) (ex : ParsedExercise)
  : bool :=
  let current_weight := max_weight ex in
  let current_reps := first_reps ex in
  let is_bodyweight := is_bodyweight ex || (current_weight =? 0) in
  match history_before !! ex_key ex with
  | None => false
  | Some hist =>
      if is_bodyweight then current_reps >? best_reps hist
      else current_weight >? best_weight hist
  end.

(** [has_pr] after that loop. *)
Definition pr_against (prev_workouts : list Workout)
    (exercises : list ParsedExercise) : bool :=
  existsb (beats (history_of prev_workouts)) exercises.

Section WithEnvironment.

Variable mappings : list (str * MappingData).
Variable current_hash now_iso : str.

(** [workout_data] of [log_workout]: [workouts] is the log read back with
    the new entry on top; the key [has_pr] is set only when the log has
    another workout, against the workouts below the first. *)
Definition logged_workout_data (workouts : list Workout) (workout_text : str)
  : WorkoutData :=
  mkData (if 1 <? Z.of_nat (length workouts)
          then pr_against (tail workouts)
                          (exercises (parse_workout_text workout_text))
          else false)
         workout_text.

(** The index after [log_workout]: the new workout is added at the
    position 0. *)
Definition index_after_log (index : SearchIndex) (workouts : list Workout)
    (workout_text : str) : SearchIndex :=
  update_index_for_workout mappings current_hash now_iso index 0
    (logged_workout_data workouts workout_text) (lit "add").

(** What the loop of [delete_workout] finds for the workout at the
    position [i]: [has_pr], [has_chest] and whether it has three groups. *)
Definition place_flags (workouts_after : list Workout) (i : Z)
    (workout : Workout) : bool * bool * bool :=
  let exercises := exercises (parse_workout_text (text workout)) in
  match exercises with
  | [] => (false, false, false)
  | _ =>
      let has_pr := pr_against (firstn (Z.to_nat i) workouts_after) exercises in
      let '(muscle_groups, has_chest) := scan_exercises mappings exercises in
      (has_pr, has_chest, 3 <=? Z.of_nat (length muscle_groups))
  end.

(** [[i for i, w in enumerate(workouts) if p(i, w)][:20]] *)
Definition indices_where_at (p : Z -> Workout -> bool)
    (workouts : list Workout) : list Z :=
  firstn 20 (map fst (filter (fun iw => p (fst iw) (snd iw) = true)
                             (enumerate_from 0 workouts))).

(** The index after [delete_workout]: the three rule-based lists are
    written anew from the log that is left; nothing is done to an index
    without metadata. *)
Definition index_after_delete (index : SearchIndex)
    (workouts_after : list Workout) : SearchIndex :=
  match metadata index with
  | None => index
  | Some meta =>
      let flags := place_flags workouts_after in
      mkIndex
        (<[full_body_category :=
             indices_where_at (fun i w => snd (flags i w)) workouts_after]>
           (<[chest_category :=
                indices_where_at (fun i w => snd (fst (flags i w))) workouts_after]>
              (<[pr_category :=
                   indices_where_at (fun i w => fst (fst (flags i w)))
                                    workouts_after]>
                 (categories index))))
        (Some (mkMeta current_hash (Z.of_nat (length workouts_after)) now_iso))
  end.

End WithEnvironment.

(** What a record of the history by date comes to in a history by place:
    the reps at the best weight are not kept. *)
Definition place_of (r : HistoryRecord) : PlaceRecord :=
  mkPlace (History.best_weight r) (History.best_reps r).

End Callers.


(** * Properties *)

(** ** The line parser drops skipped lines *)

Module ParserFacts.
Import PyStr Parser Notions.

(** C10. A line whose stripped text starts with "SKIP" or with "run" is
    parsed to nothing, whatever follows the prefix. *)
Theorem skip_and_run_lines_are_dropped (line : str) :
  startswith (lit "SKIP") (strip line) = true
  ∨ startswith (lit "run") (strip line) = true →
  parse_exercise_line line = None.
Proof.
  intros H. unfold parse_exercise_line.
  destruct H as [-> | ->]; by rewrite ?orb_true_r.
Qed.

(** The line of the example is one that the weighted form would accept
    without the prefix test. *)
Lemma running_lunges_dropped :
  (startswith (lit "SKIP") (strip (lit "running lunges - 50 * 10")) = true
   ∨ startswith (lit "run") (strip (lit "running lunges - 50 * 10")) = true)
  ∧ parse_exercise_line (lit "running lunges - 50 * 10") = None.
Proof.
  split.
  - right. vm_compute. reflexivity.
  - apply skip_and_run_lines_are_dropped. right. vm_compute. reflexivity.
Defined.

Example running_lunges_weighted_form :
  sets <$> parse_weighted (lit "running lunges - 50 * 10") = Some [mkSet 50 10].
Proof. vm_compute. reflexivity. Qed.

Lemma digit_val_range c : is_digit c = true → 0 <= digit_val c <= 9.
Proof.
  unfold is_digit, digit_val. intros [H1 H2]%andb_true_iff.
  apply N.leb_le in H1, H2. lia.
Qed.

Lemma int_of_digits_acc_nonneg s acc :
  forallb is_digit s = true → 0 <= acc →
  0 <= fold_left (fun a c => 10 * a + digit_val c) s acc.
Proof.
  revert acc. induction s as [|c s IH]; intros acc Hs Hacc; [done|].
  simpl in Hs. apply andb_true_iff in Hs as [Hc Hs]. cbn [fold_left].
  apply IH; [done|]. apply digit_val_range in Hc. lia.
Qed.

Lemma int_of_digits_nonneg s : forallb is_digit s = true → 0 <= int_of_digits s.
Proof. intros H. by apply int_of_digits_acc_nonneg. Qed.

Lemma span_fst_forall p s : forallb p (fst (span p s)) = true.
Proof.
  induction s as [|c s IH]; [done|]. simpl.
  destruct (p c) eqn:Hc; [|done]. destruct (span p s). simpl in *. by rewrite Hc.
Qed.

Lemma span_app p s : fst (span p s) ++ snd (span p s) = s.
Proof.
  induction s as [|c s IH]; [done|]. simpl.
  destruct (p c); [|done]. destruct (span p s). simpl in *. by rewrite IH.
Qed.

Lemma isdigit_forall s : isdigit s = true → forallb is_digit s = true.
Proof. by destruct s. Qed.

Lemma match_weight_digits s ds : match_weight s = Some ds → forallb is_digit ds = true.
Proof.
  unfold match_weight. pose proof (span_fst_forall is_digit s) as H.
  destruct (span is_digit s) as [d r1]. simpl in H.
  destruct d as [|c d]; [done|]. intros Hm.
  assert (ds = c :: d) as ->; [|done].
  repeat case_match; congruence.
Qed.

Lemma match_weight_reps_here_digits s w r :
  match_weight_reps_here s = Some (w, r) →
  forallb is_digit w = true ∧ forallb is_digit r = true.
Proof.
  unfold match_weight_reps_here. pose proof (span_fst_forall is_digit s) as H.
  destruct (span is_digit s) as [d r1]. simpl in H.
  destruct d as [|c d]; [done|].
  destruct (lstrip r1) as [|c1 r2]; [done|].
  destruct c1 as [[] [] [] [] [] [] [] []]; try done.
  pose proof (span_fst_forall is_digit (lstrip r2)) as H2.
  destruct (span is_digit (lstrip r2)) as [rr rest]. simpl in H2.
  destruct rr; [done|]. by intros [= <- <-].
Qed.

Lemma search_weight_reps_digits s w r :
  search_weight_reps s = Some (w, r) →
  forallb is_digit w = true ∧ forallb is_digit r = true.
Proof.
  induction s as [|c s IH]; cbn [search_weight_reps].
  - destruct (match_weight_reps_here []) as [[w' r']|] eqn:Hm; [|done].
    intros [= <- <-]. by apply match_weight_reps_here_digits in Hm.
  - destruct (match_weight_reps_here (c :: s)) as [[w' r']|] eqn:Hm; [|exact IH].
    intros [= <- <-]. by apply match_weight_reps_here_digits in Hm.
Qed.

Lemma parse_part_ok st part :
  0 <= fst st → Forall set_ok (snd st) →
  0 <= fst (parse_part st part) ∧ Forall set_ok (snd (parse_part st part)).
Proof.
  destruct st as [cw acc]. simpl. intros Hcw Hacc. unfold parse_part.
  destruct (contains _ part).
  - destruct (search_weight_reps part) as [[w r]|] eqn:Hs; [|done].
    apply search_weight_reps_digits in Hs as [Hw Hr].
    apply int_of_digits_nonneg in Hw, Hr. simpl. split; [done|].
    apply Forall_app. split; [done|]. by repeat constructor.
  - destruct (isdigit part) eqn:Hd; [|done].
    apply isdigit_forall, int_of_digits_nonneg in Hd. simpl. split; [done|].
    apply Forall_app. split; [done|]. by repeat constructor.
Qed.

Lemma parse_parts_ok st group :
  0 <= fst st → Forall set_ok (snd st) →
  0 <= fst (parse_parts st group) ∧ Forall set_ok (snd (parse_parts st group)).
Proof.
  unfold parse_parts. generalize (map strip (split_on ","%char group)).
  intros parts. revert st. induction parts as [|p parts IH]; intros st H1 H2; [done|].
  cbn [fold_left]. destruct (parse_part_ok st p H1 H2). by apply IH.
Qed.

Lemma parse_reps_ok first_weight reps_part :
  0 <= first_weight → Forall set_ok (parse_reps first_weight reps_part).
Proof.
  intros Hw. unfold parse_reps. destruct (contains _ reps_part).
  - generalize (split_on ";"%char reps_part). intros groups.
    assert (0 <= fst (first_weight, @nil ExerciseSet)
            ∧ Forall set_ok (snd (first_weight, @nil ExerciseSet))) as H by by split.
    revert H. generalize (first_weight, @nil ExerciseSet).
    induction groups as [|g groups IH]; intros st [H1 H2]; [done|].
    cbn [fold_left]. apply IH. by apply parse_parts_ok.
  - by apply parse_parts_ok.
Qed.

Lemma py_max_bounds xs :
  xs ≠ [] → py_max xs ∈ xs ∧ ∀ x, x ∈ xs → x <= py_max xs.
Proof.
  destruct xs as [|x xs]; [done|]. intros _. unfold py_max.
  revert x. induction xs as [|y xs IH]; intros x.
  - cbn. split; [by left|]. by intros z ->%list_elem_of_singleton.
  - cbn [fold_left]. destruct (IH (Z.max x y)) as [Hin Hle]. split.
    + apply elem_of_cons in Hin as [Heq|Hin].
      * rewrite Heq. destruct (Z.max_spec x y) as [[_ ->]|[_ ->]]; [right; by left|by left].
      * right. by right.
    + intros z [->|[->|Hz]%elem_of_cons]%elem_of_cons.
      * specialize (Hle (Z.max x y) (list_elem_of_here _ _)). lia.
      * specialize (Hle (Z.max x y) (list_elem_of_here _ _)). lia.
      * apply Hle. by right.
Qed.

Lemma py_max_zeros (xs : list Z) : Forall (λ x, x = 0) xs → py_max xs = 0.
Proof.
  destruct xs as [|x xs]; [done|]. intros H. apply Forall_cons in H as [-> H].
  unfold py_max. induction H as [|y ys -> _ IH]; [done|]. cbn [fold_left]. by rewrite Z.max_id.
Qed.

Lemma bodyweight_sets (rs : list Z) :
  map weight (map (mkSet 0) rs) = map (λ _, 0) rs
  ∧ map reps (map (mkSet 0) rs) = rs.
Proof. rewrite !map_map. simpl. split; [done|]. apply map_id. Qed.

Lemma parse_bodyweight_wf line e : parse_bodyweight line = Some e → well_formed e.
Proof.
  unfold parse_bodyweight. destruct (match_bodyweight line) as [[g1 g2]|]; [|done].
  set (rs := filter _ _).
  assert (Forall (λ r, isdigit (strip r) = true) rs) as Hrs.
  { apply Forall_forall. intros r Hr. by apply list_elem_of_filter in Hr as [? _]. }
  clearbody rs.
  assert (Forall (λ n, 0 <= n) (map (λ r, int_of_digits (strip r)) rs)) as Hnn.
  { apply Forall_forall. intros n. change (map ?f ?l) with (f <$> l).
    intros (r & -> & Hr)%list_elem_of_fmap.
    rewrite Forall_forall in Hrs. by apply int_of_digits_nonneg, isdigit_forall, Hrs. }
  destruct (map _ rs) as [|n0 ns] eqn:Hmap; [done|]. intros [= <-].
  destruct (bodyweight_sets (n0 :: ns)) as [Hw Hr].
  unfold well_formed.
  cbn [sets first_weight first_reps total_sets max_weight max_reps is_bodyweight].
  change ({| weight := 0; reps := n0 |} :: map (mkSet 0) ns)
    with (map (mkSet 0) (n0 :: ns)).
  rewrite Hw, Hr.
  split; [by eexists _, _|]. split; [|split; [done|split; [done|split; [|done]]]].
  - apply Forall_forall. intros s. change (map ?f ?l) with (f <$> l).
    intros (n & -> & Hn)%list_elem_of_fmap.
    rewrite Forall_forall in Hnn. split; [done|]. by apply Hnn.
  - symmetry. apply py_max_zeros, Forall_forall. intros x.
    change (map ?f ?l) with (f <$> l). by intros (n & -> & _)%list_elem_of_fmap.
Qed.

Lemma match_weight_nonneg s ds : match_weight s = Some ds → 0 <= int_of_digits ds.
Proof. intros H%match_weight_digits. by apply int_of_digits_nonneg. Qed.

Lemma parse_weighted_wf line e : parse_weighted line = Some e → well_formed e.
Proof.
  unfold parse_weighted. destruct (negb _); [done|].
  destruct (split1 _ line) as [|p0 [|p1 [|]]]; try done.
  destruct (match_weight (strip p1)) as [g1|] eqn:Hm; [|done].
  apply match_weight_nonneg in Hm.
  set (reps_part := if contains _ _ then _ else _). clearbody reps_part.
  pose proof (parse_reps_ok (int_of_digits g1) reps_part Hm) as Hok.
  destruct (parse_reps (int_of_digits g1) reps_part) as [|s0 ss]; [done|].
  intros [= <-]. unfold well_formed.
  cbn [sets first_weight first_reps total_sets max_weight max_reps is_bodyweight].
  split; [by eexists _, _|]. done.
Qed.

Lemma parse_exercise_line_wf line e : parse_exercise_line line = Some e → well_formed e.
Proof.
  unfold parse_exercise_line. destruct (_ || _); [done|].
  destruct (parse_bodyweight (strip line)) as [e'|] eqn:Hb.
  - intros [= <-]. by apply parse_bodyweight_wf in Hb.
  - apply parse_weighted_wf.
Qed.

Lemma parse_workout_text_wf text e :
  e ∈ exercises (parse_workout_text text) → well_formed e.
Proof.
  unfold parse_workout_text. cbn [exercises].
  intros (line & _ & Hl)%list_elem_of_omap. by apply parse_exercise_line_wf in Hl.
Qed.

Lemma well_formed_max_weight_nonneg e : well_formed e → 0 <= max_weight e.
Proof.
  intros ((s0 & rest & Hsets & _) & Hok & _ & _ & Hmax & _). rewrite Hmax.
  destruct (py_max_bounds (map weight (sets e))) as [Hin _].
  { by rewrite Hsets. }
  apply list_elem_of_In, in_map_iff in Hin as (s & Heq & Hs).
  rewrite <- Heq. apply list_elem_of_In in Hs.
  rewrite Forall_forall in Hok. by apply Hok.
Qed.


(** *** Decimal strings *)

Lemma digit_char_is_digit d : 0 <= d <= 9 → is_digit (digit_char d) = true.
Proof.
  intros H. assert (d = 0 ∨ d = 1 ∨ d = 2 ∨ d = 3 ∨ d = 4 ∨ d = 5 ∨ d = 6
                    ∨ d = 7 ∨ d = 8 ∨ d = 9) as Hd by lia.
  repeat destruct Hd as [->|Hd]; try done. by subst.
Qed.

Lemma digit_val_char d : 0 <= d <= 9 → digit_val (digit_char d) = d.
Proof.
  intros H. assert (d = 0 ∨ d = 1 ∨ d = 2 ∨ d = 3 ∨ d = 4 ∨ d = 5 ∨ d = 6
                    ∨ d = 7 ∨ d = 8 ∨ d = 9) as Hd by lia.
  repeat destruct Hd as [->|Hd]; try done. by subst.
Qed.

Lemma int_of_digits_acc_app ds1 ds2 a :
  fold_left (fun a c => 10 * a + digit_val c) (ds1 ++ ds2) a
  = fold_left (fun a c => 10 * a + digit_val c) ds2
      (fold_left (fun a c => 10 * a + digit_val c) ds1 a).
Proof. apply fold_left_app. Qed.

Lemma digits_of_spec fuel n acc :
  0 <= n < 10 ^ Z.of_nat (S fuel) →
  ∃ ds, digits_of (S fuel) n acc = ds ++ acc
        ∧ ds ≠ []
        ∧ forallb is_digit ds = true
        ∧ ∀ a, fold_left (fun a c => 10 * a + digit_val c) ds a
               = a * 10 ^ Z.of_nat (length ds) + n.
Proof.
  revert n acc. induction fuel as [|fuel IH]; intros n acc Hn.
  - change (10 ^ Z.of_nat 1) with 10 in Hn. cbn [digits_of].
    replace (n <? 10) with true by lia.
    exists [digit_char (n mod 10)]. rewrite Z.mod_small by lia.
    split; [done|]. split; [done|]. split.
    + cbn. by rewrite digit_char_is_digit by lia.
    + intros a. cbn. rewrite digit_val_char by lia. lia.
  - cbn [digits_of]. destruct (Z.ltb_spec n 10) as [Hlt|Hge].
    + exists [digit_char (n mod 10)]. rewrite Z.mod_small by lia.
      split; [done|]. split; [done|]. split.
      * cbn. by rewrite digit_char_is_digit by lia.
      * intros a. cbn. rewrite digit_val_char by lia. lia.
    + destruct (IH (n / 10) (digit_char (n mod 10) :: acc)) as (ds & Hds & Hne & Hdig & Hval).
      { split; [apply Z.div_pos; lia|].
        apply Z.div_lt_upper_bound; [lia|].
        replace (Z.of_nat (S (S fuel))) with (1 + Z.of_nat (S fuel)) in Hn by lia.
        rewrite Z.pow_add_r in Hn by lia. lia. }
      pose proof (Z.mod_pos_bound n 10 ltac:(lia)) as Hmod.
      exists (ds ++ [digit_char (n mod 10)]). split; [|split; [|split]].
      * change (digits_of (S fuel) (n / 10) (digit_char (n mod 10) :: acc)
                = (ds ++ [digit_char (n mod 10)]) ++ acc).
        by rewrite Hds, <- app_assoc.
      * by destruct ds.
      * rewrite forallb_app, Hdig. cbn. by rewrite digit_char_is_digit by lia.
      * intros a. rewrite int_of_digits_acc_app, Hval. cbn [fold_left].
        rewrite digit_val_char by lia. rewrite length_app. cbn [length].
        replace (Z.of_nat (length ds + 1)) with (Z.of_nat (length ds) + 1) by lia.
        rewrite Z.pow_add_r by lia. pose proof (Z.div_mod n 10 ltac:(lia)). lia.
Qed.

Lemma fuel_enough n : 0 <= n → n < 10 ^ Z.of_nat (S (Z.to_nat (Z.log2 n))).
Proof.
  intros Hn. destruct (Z.eq_dec n 0) as [->|Hne]; [done|].
  pose proof (Z.log2_nonneg n).
  replace (Z.of_nat (S (Z.to_nat (Z.log2 n)))) with (Z.succ (Z.log2 n)) by lia.
  pose proof (Z.log2_spec n ltac:(lia)) as [_ Hlt].
  eapply Z.lt_le_trans; [exact Hlt|].
  apply Z.pow_le_mono_l. lia.
Qed.

(** [int(str(n)) = n] for a non-negative [n]; [str(n)] is a non-empty
    string of digits. *)
Lemma str_of_int_digits n :
  0 <= n →
  str_of_int n ≠ [] ∧ forallb is_digit (str_of_int n) = true
  ∧ int_of_digits (str_of_int n) = n.
Proof.
  intros Hn. unfold str_of_int. replace (n <? 0) with false by lia.
  destruct (digits_of_spec (Z.to_nat (Z.log2 n)) n [] (conj Hn (fuel_enough n Hn)))
    as (ds & -> & Hne & Hdig & Hval).
  rewrite app_nil_r. split; [done|]. split; [done|].
  unfold int_of_digits. rewrite Hval. lia.
Qed.

(** *** Facts about the string primitives *)

Lemma ch_eqb_eq a b : ch_eqb a b = true ↔ a = b.
Proof. apply Ascii.eqb_eq. Qed.

Lemma ch_eqb_neq a b : ch_eqb a b = false ↔ a ≠ b.
Proof. apply Ascii.eqb_neq. Qed.

Lemma digit_not_space c : is_digit c = true → is_space c = false.
Proof.
  unfold is_digit, is_space. intros [H1 H2]%andb_true_iff.
  apply N.leb_le in H1, H2.
  apply orb_false_iff. split; apply andb_false_iff.
  - right. apply N.leb_gt. lia.
  - right. apply N.leb_gt. lia.
Qed.

(** *** Stripping *)

Lemma lstrip_head s :
  match lstrip s with [] => True | c :: _ => is_space c = false end.
Proof.
  induction s as [|c s IH]; [done|]. simpl.
  destruct (is_space c) eqn:Hc; [done|]. by rewrite Hc.
Qed.

Lemma lstrip_id c s : is_space c = false → lstrip (c :: s) = c :: s.
Proof. intros H. simpl. by rewrite H. Qed.

Lemma rstrip_cons c s :
  is_space c = false → ∃ r, rstrip (c :: s) = c :: r.
Proof.
  intros H. simpl. destruct (rstrip s); rewrite ?H; by eexists.
Qed.

Lemma rstrip_prefix s :
  ∃ ws, s = rstrip s ++ ws ∧ forallb is_space ws = true.
Proof.
  induction s as [|c s (ws & Hs & Hws)]; [by exists []|]. simpl.
  destruct (rstrip s) as [|d r] eqn:Hr.
  - destruct (is_space c) eqn:Hc.
    + exists (c :: ws). simpl in *. subst s. by rewrite Hc.
    + exists ws. simpl in *. by subst s.
  - exists ws. simpl. split; [|done]. by rewrite Hs at 1.
Qed.

Lemma rstrip_snoc a c : is_space c = false → rstrip (a ++ [c]) = a ++ [c].
Proof.
  intros Hc. induction a as [|x a IH]; simpl; [by rewrite Hc|].
  rewrite IH. by destruct a.
Qed.

Lemma rstrip_fixed s : rstrip (rstrip s) = rstrip s.
Proof.
  induction s as [|c s IH]; [done|]. simpl.
  destruct (rstrip s) as [|d r] eqn:Hr.
  - destruct (is_space c) eqn:Hc; [done|]. simpl. by rewrite Hc.
  - simpl in *. rewrite IH. done.
Qed.

Lemma strip_head s :
  match strip s with [] => True | c :: _ => is_space c = false end.
Proof.
  unfold strip. pose proof (lstrip_head s) as H.
  destruct (lstrip s) as [|c r]; [done|].
  destruct (rstrip_cons c r H) as (r' & ->). done.
Qed.

Lemma strip_fixed s : strip (strip s) = strip s.
Proof.
  pose proof (strip_head s) as H. unfold strip at 1.
  destruct (strip s) as [|c r] eqn:Hs; [done|].
  rewrite lstrip_id by done. rewrite <- Hs. unfold strip. apply rstrip_fixed.
Qed.

(** A string that neither starts nor ends with white space is its own
    strip. *)
Lemma strip_id c m d :
  is_space c = false → is_space d = false → strip (c :: m ++ [d]) = c :: m ++ [d].
Proof.
  intros Hc Hd. unfold strip. rewrite lstrip_id by done.
  change (c :: m ++ [d]) with ((c :: m) ++ [d]). by apply rstrip_snoc.
Qed.

Lemma last_split (s : str) : s ≠ [] → ∃ m d, s = m ++ [d].
Proof.
  intros H. destruct (exists_last H) as (m & d & ->). by eexists _, _.
Qed.

(** *** Prefixes and occurrences *)

Lemma startswith_app a b : startswith a (a ++ b) = true.
Proof. induction a as [|c a IH]; [done|]. simpl. by rewrite IH, (proj2 (ch_eqb_eq c c)). Qed.

Lemma startswith_split p s : startswith p s = true → s = p ++ skipn (length p) s.
Proof.
  revert s. induction p as [|c p IH]; intros [|d s]; simpl; try done.
  intros [->%ch_eqb_eq Hs]%andb_true_iff. f_equal. by apply IH.
Qed.

(** A word without a blank that starts [E ++ " " ++ x] lies inside [E], so
    that it starts [E ++ y] as well. *)
Lemma startswith_word pre E x y :
  forallb (fun c => negb (ch_eqb c " "%char)) pre = true →
  startswith pre (E ++ " "%char :: x) = true →
  startswith pre (E ++ y) = true.
Proof.
  revert E. induction pre as [|a pre IH]; intros E Hpre; [done|].
  simpl in Hpre. apply andb_true_iff in Hpre as [Ha Hpre].
  destruct E as [|e E]; simpl.
  - intros [Heq _]%andb_true_iff. by rewrite Heq in Ha.
  - intros [-> Hs]%andb_true_iff. simpl. eauto.
Qed.

Lemma contains_here sep s : startswith sep s = true → contains sep s = true.
Proof. intros H. destruct s; simpl; by rewrite H. Qed.

Lemma contains_app sep a b : contains sep (a ++ sep ++ b) = true.
Proof.
  induction a as [|c a IH]; simpl.
  - apply contains_here, startswith_app.
  - rewrite IH. apply orb_true_r.
Qed.

Lemma contains_char_false c s :
  forallb (fun x => negb (ch_eqb x c)) s = true → contains [c] s = false.
Proof.
  induction s as [|x s IH]; [done|]. simpl.
  intros [Hx Hs]%andb_true_iff. rewrite IH by done.
  apply negb_true_iff in Hx. rewrite Ascii.eqb_sym in Hx. unfold ch_eqb in *. by rewrite Hx.
Qed.

Lemma split1_spec sep s a b :
  sep ≠ [] →
  split1 sep s = [a; b] ↔ s = a ++ sep ++ b ∧ no_match_within sep a (sep ++ b) = true.
Proof.
  intros Hsep. revert a. induction s as [|c s IH]; intros a.
  - simpl. destruct sep as [|x sep]; [done|]. simpl. split; [done|].
    intros [H _]. by destruct a.
  - cbn [split1]. destruct (startswith sep (c :: s)) eqn:Hst.
    + split.
      * intros [= <- <-]. split; [by apply startswith_split|done].
      * intros [Hs Hno]. destruct a as [|a0 a].
        -- simpl in Hs. f_equal. f_equal. rewrite Hs. by rewrite drop_app_length.
        -- cbn [no_match_within] in Hno. rewrite <- Hs, Hst in Hno. done.
    + destruct (split1 sep s) as [|h t] eqn:Hsp.
      * split; [done|]. intros [Hs Hno]. destruct a as [|a0 a].
        -- simpl in Hs. rewrite Hs, startswith_app in Hst. done.
        -- simpl in Hs. injection Hs as -> Hs. simpl in Hno.
           apply andb_true_iff in Hno as [_ Hno].
           assert ([] = [a; b]) as Habs by (apply IH; done). done.
      * split.
        -- intros [= <- ->]. destruct (proj1 (IH h) eq_refl) as [Hs Hno].
           split; [simpl; by rewrite Hs|]. cbn [no_match_within].
           change ((c :: h) ++ sep ++ b) with (c :: (h ++ sep ++ b)).
           rewrite <- Hs, Hst. done.
        -- intros [Hs Hno]. destruct a as [|a0 a].
           ++ simpl in Hs. rewrite Hs, startswith_app in Hst. done.
           ++ simpl in Hs. injection Hs as -> Hs. simpl in Hno.
              apply andb_true_iff in Hno as [_ Hno].
              assert (h :: t = [a; b]) as [= -> ->] by (apply IH; done). done.
Qed.

Lemma no_match_char c a x :
  forallb (fun y => negb (ch_eqb y c)) a = true → no_match_within [c] a x = true.
Proof.
  induction a as [|y a IH]; [done|]. simpl. intros [Hy Ha]%andb_true_iff.
  rewrite IH by done. apply negb_true_iff in Hy.
  rewrite Ascii.eqb_sym in Hy. unfold ch_eqb in *. by rewrite Hy.
Qed.

Lemma split_on_none c s :
  forallb (fun x => negb (ch_eqb x c)) s = true → split_on c s = [s].
Proof.
  induction s as [|x s IH]; [done|]. simpl. intros [Hx Hs]%andb_true_iff.
  apply negb_true_iff in Hx. rewrite Hx, IH by done. done.
Qed.

(** *** Spans *)

Lemma span_split p a d b :
  p d = false →
  span p (a ++ d :: b) = (fst (span p a), snd (span p a) ++ d :: b).
Proof.
  intros Hd. induction a as [|c a IH]; simpl; [by rewrite Hd|].
  destruct (p c); [|done]. rewrite IH. by destruct (span p a).
Qed.

Lemma span_all p a : forallb p a = true → span p a = (a, []).
Proof.
  induction a as [|c a IH]; [done|]. simpl. intros [Hc Ha]%andb_true_iff.
  by rewrite Hc, IH.
Qed.

Lemma nums_run_bad st s c :
  c ∈ s → is_digit c = false → is_space c = false → ch_eqb c ","%char = false →
  nums_run st s = false.
Proof.
  intros Hin Hd Hs Hc. revert st. induction s as [|x s IH]; intros st.
  - by apply elem_of_nil in Hin.
  - apply elem_of_cons in Hin as [<-|Hin].
    + simpl. rewrite Hd, Hs, Hc. by destruct st.
    + specialize (IH Hin). simpl.
      destruct st; repeat (case_match; try done).
Qed.

(** *** The canonical line of a parsed exercise *)

Lemma digits_without c s :
  is_digit c = false → forallb is_digit s = true →
  forallb (fun x => negb (ch_eqb x c)) s = true.
Proof.
  intros Hc. induction s as [|x s IH]; simpl; [reflexivity|].
  intros [Hx Hs]%andb_true_iff. rewrite IH by done. unfold ch_eqb.
  destruct (Ascii.eqb_spec x c) as [->|]; [congruence|done].
Qed.

Lemma digits_last s m d :
  forallb is_digit s = true → s = m ++ [d] → is_digit d = true.
Proof.
  intros H ->. rewrite forallb_app in H. apply andb_true_iff in H as [_ H].
  cbn [forallb] in H. by rewrite andb_true_r in H.
Qed.

Lemma digits_head d s : forallb is_digit (d :: s) = true → is_digit d = true.
Proof. cbn [forallb]. by intros [H _]%andb_true_iff. Qed.

Lemma no_match_rstrip E ws y x :
  no_match_within (lit " - ") (E ++ ws) y = true →
  endswith (lit " -") E = false →
  no_match_within (lit " - ") E (lit " - " ++ x) = true.
Proof.
  induction E as [|c E IH]; [done|].
  cbn [no_match_within endswith]. change ((c :: E) ++ ws) with (c :: (E ++ ws)).
  cbn [no_match_within].
  intros [Hhead Htail]%andb_true_iff [Heq Hends]%orb_false_iff.
  rewrite IH by done. rewrite andb_true_r.
  apply negb_true_iff. apply negb_true_iff in Hhead.
  destruct E as [|d [|d2 E]].
  - cbn. by rewrite !andb_false_r.
  - cbn in Heq |- *. unfold ch_eqb in *.
    destruct (Ascii.eqb " " c); [|done]. destruct (Ascii.eqb "-" d); done.
  - cbn in Hhead |- *. done.
Qed.

Ltac reassoc :=
  unfold lit; cbn [list_ascii_of_string app];
  repeat (rewrite <- app_assoc; cbn [app]); reflexivity.

Section Canonical.

Variables (E Wd Rd : str) (W R : Z) (c : ascii) (E0 : str).
Hypothesis HE : E = c :: E0.
Hypothesis Hc : is_space c = false.
Hypothesis HstripE : strip E = E.
Hypothesis HneW : Wd ≠ [].
Hypothesis HdigW : forallb is_digit Wd = true.
Hypothesis HvalW : int_of_digits Wd = W.
Hypothesis HneR : Rd ≠ [].
Hypothesis HdigR : forallb is_digit Rd = true.
Hypothesis HvalR : int_of_digits Rd = R.

Local Abbreviation L := (E ++ lit " - " ++ Wd ++ lit " * " ++ Rd).

Hypothesis Hskip : startswith (lit "SKIP") L = false.
Hypothesis Hrun : startswith (lit "run") L = false.
Hypothesis Hsep :
  no_match_within (lit " - ") E (lit " - " ++ Wd ++ lit " * " ++ Rd) = true.

Lemma canonical_strip : strip L = L.
Proof.
  destruct (last_split Rd HneR) as (m & d & Hm).
  pose proof (digits_last _ _ _ HdigR Hm) as Hd.
  assert (L = c :: (E0 ++ lit " - " ++ Wd ++ lit " * " ++ m) ++ [d]) as ->.
  { rewrite HE, Hm. reassoc. }
  apply strip_id; [done|by apply digit_not_space].
Qed.

Lemma canonical_not_bodyweight : parse_bodyweight L = None.
Proof.
  clear Hsep Hskip Hrun.
  destruct Wd as [|w0 Wd']; [done|].
  pose proof (digits_head _ _ HdigW) as Hw0.
  unfold parse_bodyweight, match_bodyweight.
  assert (E ++ lit " - " ++ (w0 :: Wd') ++ lit " * " ++ Rd
          = (E ++ lit " - ") ++ w0 :: (Wd' ++ lit " * " ++ Rd)) as ->.
  { reassoc. }
  rewrite span_split by (by rewrite Hw0).
  destruct (fst (span _ (E ++ lit " - "))) as [|p0 p]; [done|].
  rewrite (nums_run_bad NStart _ "*"%char); [by rewrite !andb_false_r|..]; try done.
  apply elem_of_app. right. right. apply elem_of_app. right.
  apply elem_of_app. left. by right; left.
Qed.

Lemma canonical_weight_reps_part :
  strip (Wd ++ lit " * " ++ Rd) = Wd ++ lit " * " ++ Rd
  ∧ match_weight (Wd ++ lit " * " ++ Rd) = Some Wd
  ∧ contains (lit "*") (Wd ++ lit " * " ++ Rd) = true
  ∧ split1 (lit "*") (Wd ++ lit " * " ++ Rd) = [Wd ++ lit " "; lit " " ++ Rd].
Proof.
  clear Hsep Hskip Hrun.
  assert (Wd ++ lit " * " ++ Rd = (Wd ++ lit " ") ++ lit "*" ++ (lit " " ++ Rd)) as Hassoc.
  { reassoc. }
  split; [|split; [|split]].
  - destruct Wd as [|w0 Wd']; [done|].
    destruct (last_split Rd HneR) as (m & d & Hm).
    pose proof (digits_head _ _ HdigW) as Hw0.
    pose proof (digits_last _ _ _ HdigR Hm) as Hd.
    assert ((w0 :: Wd') ++ lit " * " ++ Rd = w0 :: (Wd' ++ lit " * " ++ m) ++ [d]) as ->.
    { rewrite Hm. reassoc. }
    apply strip_id; by apply digit_not_space.
  - unfold match_weight.
    change (Wd ++ lit " * " ++ Rd) with (Wd ++ " "%char :: (lit "* " ++ Rd)).
    rewrite span_split by done. rewrite span_all by done. cbn.
    by destruct Wd.
  - rewrite Hassoc. apply contains_app.
  - rewrite Hassoc. apply split1_spec; [done|]. split; [done|].
    apply no_match_char. rewrite forallb_app. rewrite digits_without by done. done.
Qed.

Lemma canonical_reps : parse_reps W (lit " " ++ Rd) = [mkSet W R].
Proof.
  clear Hsep Hskip Hrun.
  assert (strip (lit " " ++ Rd) = Rd) as Hstrip.
  { destruct (last_split Rd HneR) as (m & d & Hm).
    pose proof (digits_last _ _ _ HdigR Hm) as Hd.
    unfold strip. change (lstrip (lit " " ++ Rd)) with (lstrip Rd).
    destruct Rd as [|r0 Rd']; [done|].
    pose proof (digits_head _ _ HdigR) as Hr0.
    rewrite lstrip_id by by apply digit_not_space.
    rewrite Hm. apply rstrip_snoc. by apply digit_not_space. }
  unfold parse_reps.
  rewrite (contains_char_false ";"%char)
    by (change (lit " " ++ Rd) with (" "%char :: Rd); cbn [forallb];
        by rewrite digits_without).
  unfold parse_parts.
  rewrite split_on_none
    by (change (lit " " ++ Rd) with (" "%char :: Rd); cbn [forallb];
        by rewrite digits_without).
  cbn [map fold_left]. rewrite Hstrip. unfold parse_part.
  rewrite (contains_char_false "*"%char) by by rewrite digits_without.
  assert (isdigit Rd = true) as -> by (by destruct Rd).
  cbn. by rewrite HvalR.
Qed.

Lemma canonical_parse :
  parse_exercise_line L
  = Some (mkExercise E [mkSet W R] W R 1 W R (W =? 0) (Some L)).
Proof.
  destruct canonical_weight_reps_part as (Hs & Hm & Hc' & Hsp).
  unfold parse_exercise_line. rewrite canonical_strip, Hskip, Hrun.
  assert (str_eqb L [] = false) as -> by (by rewrite HE).
  cbn [orb]. rewrite canonical_not_bodyweight.
  unfold parse_weighted.
  assert (contains (lit " - ") L = true) as -> by apply contains_app.
  cbn [negb].
  assert (split1 (lit " - ") L = [E; Wd ++ lit " * " ++ Rd]) as ->.
  { apply split1_spec; [done|]. by split. }
  rewrite Hs, Hm, Hc', Hsp, HstripE, HvalW, canonical_reps.
  done.
Qed.

End Canonical.

Lemma parse_bodyweight_no_line line e :
  parse_bodyweight line = Some e → original_line e = None.
Proof.
  unfold parse_bodyweight. destruct (match_bodyweight line) as [[g1 g2]|]; [|done].
  destruct (map _ _); [done|]. by intros [= <-].
Qed.

(** What a line accepted in the weighted form was made of. *)
Lemma parse_weighted_inv line e :
  parse_weighted line = Some e →
  ∃ p0 p1, split1 (lit " - ") line = [p0; p1] ∧ exercise e = strip p0.
Proof.
  unfold parse_weighted. destruct (negb _); [done|].
  destruct (split1 _ line) as [|p0 [|p1 [|]]]; try done.
  destruct (match_weight (strip p1)) as [g1|]; [|done].
  destruct (parse_reps _ _) as [|s0 ss]; [done|].
  intros [= <-]. by exists p0, p1.
Qed.

Lemma parse_exercise_line_weighted line e :
  parse_exercise_line line = Some e → original_line e ≠ None →
  strip line ≠ []
  ∧ startswith (lit "SKIP") (strip line) = false
  ∧ startswith (lit "run") (strip line) = false
  ∧ parse_weighted (strip line) = Some e.
Proof.
  unfold parse_exercise_line.
  destruct (str_eqb (strip line) []) eqn:Hnil; [done|].
  destruct (startswith (lit "SKIP") _) eqn:Hskip; [done|].
  destruct (startswith (lit "run") _) eqn:Hrun; [done|].
  cbn [orb].
  destruct (parse_bodyweight (strip line)) as [e'|] eqn:Hb.
  - intros [= <-] Hol. by apply parse_bodyweight_no_line in Hb.
  - intros Hw _. split; [|done]. intros Heq. by rewrite Heq in Hnil.
Qed.

(** C5, amended. A line accepted in the weighted form, whose exercise name
    does not end in " -", gives a canonical line that parses to one set:
    the leading weight with the reps of the original first set. That set is
    the original first set whenever the original first set was done at the
    leading weight. *)
Theorem canonical_line_round_trip (line : str) (e : ParsedExercise) :
  parse_exercise_line line = Some e →
  original_line e ≠ None →
  endswith (lit " -") (exercise e) = false →
  parse_exercise_line (canonical_line e)
  = Some (mkExercise (exercise e) [mkSet (first_weight e) (first_reps e)]
            (first_weight e) (first_reps e) 1
            (first_weight e) (first_reps e) (first_weight e =? 0)
            (Some (canonical_line e)))
  ∧ ∀ s0, head (sets e) = Some s0 → weight s0 = first_weight e →
          mkSet (first_weight e) (first_reps e) = s0.
Proof.
  intros Hparse Hol Hends.
  pose proof (parse_exercise_line_wf _ _ Hparse)
    as ((s0 & rest & Hsets & Hfr) & Hok & HW & _).
  assert (0 <= first_reps e) as HR.
  { rewrite Hfr. rewrite Hsets in Hok. apply Forall_cons in Hok as [[_ ?] _]. done. }
  split.
  2:{ intros s Hs Hw. rewrite Hsets in Hs. injection Hs as <-.
      rewrite Hfr, <- Hw. by destruct s0. }
  destruct (parse_exercise_line_weighted _ _ Hparse Hol) as (Hne & Hskip & Hrun & Hw).
  destruct (parse_weighted_inv _ _ Hw) as (p0 & p1 & Hsplit & HE).
  apply split1_spec in Hsplit as [Hline Hno]; [|done].
  pose proof (strip_head line) as Hhead.
  (* the text before the separator starts with the first character of the line *)
  destruct p0 as [|c p0'].
  { rewrite Hline in Hhead. done. }
  rewrite Hline in Hhead. cbn [app] in Hhead.
  assert (strip (c :: p0') = rstrip (c :: p0')) as Hstrip
    by (unfold strip; by rewrite lstrip_id).
  destruct (rstrip_cons c p0' Hhead) as (E0 & HE0).
  destruct (rstrip_prefix (c :: p0')) as (ws & Hws & _).
  rewrite Hstrip in HE.
  destruct (str_of_int_digits _ HW) as (HneW & HdigW & HvalW).
  destruct (str_of_int_digits _ HR) as (HneR & HdigR & HvalR).
  unfold canonical_line.
  apply (canonical_parse (exercise e) _ _ _ _ c E0); try done.
  - by rewrite HE.
  - rewrite HE, <- Hstrip. apply strip_fixed.
  - apply not_true_is_false. intros Habs. rewrite Hline, Hws in Hskip.
    rewrite <- HE, <- app_assoc in Hskip.
    apply (startswith_word (lit "SKIP") (exercise e)
             (lit "- " ++ str_of_int (first_weight e) ++ lit " * "
                ++ str_of_int (first_reps e))
             (ws ++ lit " - " ++ p1)) in Habs; [|done].
    by rewrite Habs in Hskip.
  - apply not_true_is_false. intros Habs. rewrite Hline, Hws in Hrun.
    rewrite <- HE, <- app_assoc in Hrun.
    apply (startswith_word (lit "run") (exercise e)
             (lit "- " ++ str_of_int (first_weight e) ++ lit " * "
                ++ str_of_int (first_reps e))
             (ws ++ lit " - " ++ p1)) in Habs; [|done].
    by rewrite Habs in Hrun.
  - rewrite Hws, <- HE in Hno. by apply (no_match_rstrip _ ws (lit " - " ++ p1)).
Qed.

Lemma canonical_line_round_trip_sample :
  let line := lit "dumbbell shoulder press - 75 * 6, 5, 4" in
  let e := mkExercise (lit "dumbbell shoulder press")
             [mkSet 75 6; mkSet 75 5; mkSet 75 4] 75 6 3 75 6 false
             (Some line) in
  parse_exercise_line line = Some e
  ∧ original_line e ≠ None
  ∧ endswith (lit " -") (exercise e) = false
  ∧ parse_exercise_line (canonical_line e)
    = Some (mkExercise (exercise e) [mkSet (first_weight e) (first_reps e)]
              (first_weight e) (first_reps e) 1
              (first_weight e) (first_reps e) (first_weight e =? 0)
              (Some (canonical_line e))).
Proof.
  intros line e.
  assert (parse_exercise_line line = Some e) as H1 by (vm_compute; reflexivity).
  assert (original_line e ≠ None) as H2 by (vm_compute; discriminate).
  assert (endswith (lit " -") (exercise e) = false) as H3 by (vm_compute; reflexivity).
  split; [exact H1|]. split; [exact H2|]. split; [exact H3|].
  exact (proj1 (canonical_line_round_trip line e H1 H2 H3)).
Defined.

(** C5, as stated: when the rep list opens with a change of weight, the
    first set of the line is not the first set of its canonical line. *)
Lemma canonical_line_changes_first_set :
  ∃ e e',
    parse_exercise_line (lit "bench press - 100 * 60 * 4") = Some e
    ∧ original_line e ≠ None
    ∧ canonical_line e = lit "bench press - 100 * 4"
    ∧ parse_exercise_line (canonical_line e) = Some e'
    ∧ head (sets e) = Some (mkSet 60 4)
    ∧ head (sets e') = Some (mkSet 100 4).
Proof.
  eexists _, _. split; [vm_compute; reflexivity|].
  split; [vm_compute; discriminate|].
  split; [vm_compute; reflexivity|].
  split; [vm_compute; reflexivity|].
  split; vm_compute; reflexivity.
Qed.

(** The hypothesis on the name is needed: a name that ends in " -", kept
    apart from the separator by a tab, gives a canonical line in which the
    separator is found too early. *)
Example canonical_line_of_dash_name :
  let line := lit "a -" ++ ["009"%char] ++ lit " - 5 * 5" in
  (exercise <$> parse_exercise_line line) = Some (lit "a -")
  ∧ (canonical_line <$> parse_exercise_line line) = Some (lit "a - - 5 * 5")
  ∧ parse_exercise_line (lit "a - - 5 * 5") = None.
Proof. repeat split; vm_compute; reflexivity. Qed.

End ParserFacts.

(** ** History and PR detection *)

Module HistoryFacts.
Import PyStr Parser Dates History Notions Samples ParserFacts.

(** C4. Against the history reconstructed before a workout, one exercise
    never sets both the PR flag and the strength-increase flag. *)
Theorem pr_and_strength_increase_exclusive
    (strptime : str -> str -> option datetime) (today : datetime)
    (workouts : list Workout) (workout_date : datetime) (ex : ParsedExercise) :
  exercise_flags (history_before strptime today workouts workout_date) ex
  ≠ (true, true).
Proof.
  unfold exercise_flags, check_exercise.
  destruct (history_before _ _ _ _ !! ex_key ex) as [hist|]; [|done].
  repeat case_match; done.
Qed.

Lemma try_formats_none strptime today date_str fmts :
  (∀ fmt, fmt ∈ fmts →
     match strptime date_str fmt with
     | None => True
     | Some parsed => implausible today parsed = true
     end) →
  try_formats strptime today date_str fmts = None.
Proof.
  induction fmts as [|fmt rest IH]; intros H; [done|]. simpl.
  pose proof (H fmt (list_elem_of_here _ _)) as Hfmt.
  destruct (strptime date_str fmt) as [parsed|].
  - rewrite Hfmt. apply IH. intros f Hf. apply H. by right.
  - apply IH. intros f Hf. apply H. by right.
Qed.

Lemma unparseable_no_date strptime today date_str :
  unparseable strptime today date_str →
  parse_workout_date strptime today date_str = None.
Proof.
  intros H. unfold parse_workout_date.
  destruct (str_eqb date_str []); [done|]. by apply try_formats_none.
Qed.

(** C6. When the date of the reference workout parses under no format, or
    only to dates rejected as implausible, the history is empty and neither
    a PR nor a strength increase is flagged. *)
Theorem unparseable_date_no_history_no_flags
    (strptime : str -> str -> option datetime) (today : datetime)
    (workouts : list Workout) (workout : Workout) :
  unparseable strptime today (date workout) →
  reconstructed_history strptime today workouts workout = ∅
  ∧ detect_pr strptime today workouts workout = (false, false).
Proof.
  intros H%unparseable_no_date.
  unfold reconstructed_history, detect_pr. by rewrite H.
Qed.

Lemma sample_future_date_unparseable :
  unparseable sample_strptime sample_today (lit "01/01/30").
Proof.
  intros fmt Hfmt. unfold date_formats in Hfmt.
  repeat (apply elem_of_cons in Hfmt as [-> | Hfmt]; [vm_compute; done|]).
  by apply elem_of_nil in Hfmt.
Defined.

(** A workout dated in 2030, examined in 2024 after a lighter bench press:
    no history and no flag. *)
Lemma unparseable_date_sample :
  let workouts := [mkEntry (lit "01/01/30") (lit "bench press - 105 * 5");
                   mkEntry (lit "01/01/24") (lit "bench press - 100 * 5")] in
  let workout := mkEntry (lit "01/01/30") (lit "bench press - 105 * 5") in
  unparseable sample_strptime sample_today (date workout)
  ∧ reconstructed_history sample_strptime sample_today workouts workout = ∅
  ∧ detect_pr sample_strptime sample_today workouts workout = (false, false).
Proof.
  intros workouts workout. split.
  - exact sample_future_date_unparseable.
  - exact (unparseable_date_no_history_no_flags sample_strptime sample_today
             workouts workout sample_future_date_unparseable).
Defined.

Lemma record_exercise_lookup h ex k :
  record_exercise h ex !! k
  = if decide (ex_key ex = k) then Some (updated_record (h !! k) ex) else h !! k.
Proof.
  unfold record_exercise, updated_record. case_decide as Hk.
  - subst. destruct (h !! ex_key ex); by rewrite lookup_insert_eq.
  - destruct (h !! ex_key ex); by rewrite lookup_insert_ne.
Qed.

Lemma record_exercises_lookup exs h k :
  fold_left record_exercise exs h !! k
  = fold_left (fun o e => Some (updated_record o e)) (records_of k exs) (h !! k).
Proof.
  revert h. induction exs as [|e exs IH]; intros h; [done|].
  cbn [fold_left]. rewrite IH, record_exercise_lookup. unfold records_of.
  rewrite filter_cons. case_decide; done.
Qed.

Lemma history_before_fold strptime today workouts d :
  history_before strptime today workouts d
  = fold_left record_exercise (earlier_exercises strptime today workouts d) ∅.
Proof.
  unfold history_before, earlier_exercises. generalize (∅ : gmap str HistoryRecord).
  induction workouts as [|w ws IH]; intros h; [done|].
  cbn [fold_left]. rewrite IH, filter_cons.
  destruct (decide (is_earlier strptime today d w = true)) as [He|He].
  - rewrite He. cbn [map concat]. by rewrite fold_left_app.
  - apply not_true_is_false in He. by rewrite He.
Qed.

Lemma find_app_first {A} (p : A → bool) (l l' : list A) :
  find p (l ++ l') = match find p l with Some x => Some x | None => find p l' end.
Proof. induction l as [|x l IH]; simpl; [done|]. by destruct (p x). Qed.

Lemma folded_snoc recs e :
  folded (recs ++ [e]) = Some (updated_record (folded recs) e).
Proof. unfold folded. by rewrite fold_left_app. Qed.

Lemma folded_spec recs :
  match folded recs with
  | None => recs = []
  | Some r =>
      (∀ e, e ∈ recs → max_weight e <= best_weight r)
      ∧ (∀ e, e ∈ recs → first_reps e <= best_reps r)
      ∧ (∃ e, e ∈ recs ∧ first_reps e = best_reps r)
      ∧ ∃ e, find (fun e => max_weight e =? best_weight r) recs = Some e
             ∧ ∃ rest, recs = hd e recs :: rest
             ∧ best_weight_reps r
               = if decide (max_weight (hd e recs) = best_weight r)
                 then (if 0 <? best_weight r then first_reps e else 0)
                 else first_reps e
  end.
Proof.
  induction recs as [|e recs IH] using rev_ind; [done|].
  rewrite folded_snoc. destruct (folded recs) as [r|].
  - destruct IH as (Hw & Hr & (er & Her & Herr) & (ew & Hfind & rest & Hrecs & Hbwr)).
    unfold updated_record.
    destruct (Z.gtb_spec (max_weight e) (best_weight r)) as [Hgt|Hle].
    + (* new best weight *)
      assert (find (λ e0, max_weight e0 =? max_weight e) (recs ++ [e]) = Some e) as Hf.
      { rewrite find_app_first.
        destruct (find (λ e0, max_weight e0 =? max_weight e) recs) as [x|] eqn:Hx.
        - apply find_some in Hx as [Hin Heq]. apply Z.eqb_eq in Heq.
          apply list_elem_of_In, Hw in Hin. lia.
        - simpl. by rewrite Z.eqb_refl. }
      assert (hd e (recs ++ [e]) = hd ew recs) as Hhd by (by rewrite Hrecs).
      assert (max_weight (hd ew recs) ≠ max_weight e) as Hne.
      { assert (hd ew recs ∈ recs) as Hin by (rewrite Hrecs at 2; by left).
        apply Hw in Hin. lia. }
      cbn [best_weight best_reps best_weight_reps].
      destruct (Z.gtb_spec (first_reps e) (best_reps r)) as [Hgr|Hlr];
        cbn [best_weight best_reps best_weight_reps].
      * split; [|split; [|split]].
        -- intros x [Hx| ->%list_elem_of_singleton]%elem_of_app; [apply Hw in Hx|]; lia.
        -- intros x [Hx| ->%list_elem_of_singleton]%elem_of_app; [apply Hr in Hx|]; lia.
        -- exists e. split; [apply elem_of_app; right; by left|done].
        -- exists e. split; [done|]. exists (rest ++ [e]). split.
           ++ rewrite Hhd. rewrite Hrecs at 1. done.
           ++ rewrite Hhd. by rewrite decide_False.
      * split; [|split; [|split]].
        -- intros x [Hx| ->%list_elem_of_singleton]%elem_of_app; [apply Hw in Hx|]; lia.
        -- intros x [Hx| ->%list_elem_of_singleton]%elem_of_app; [apply Hr in Hx|]; lia.
        -- exists er. split; [apply elem_of_app; by left|done].
        -- exists e. split; [done|]. exists (rest ++ [e]). split.
           ++ rewrite Hhd. rewrite Hrecs at 1. done.
           ++ rewrite Hhd. by rewrite decide_False.
    + assert (find (λ e0, max_weight e0 =? best_weight r) (recs ++ [e]) = Some ew) as Hf.
      { rewrite find_app_first. by rewrite Hfind. }
      assert (hd ew (recs ++ [e]) = hd ew recs) as Hhd by (by rewrite Hrecs).
      cbn [best_weight best_reps best_weight_reps].
      destruct (Z.gtb_spec (first_reps e) (best_reps r)) as [Hgr|Hlr];
        cbn [best_weight best_reps best_weight_reps].
      * split; [|split; [|split]].
        -- intros x [Hx| ->%list_elem_of_singleton]%elem_of_app; [apply Hw in Hx|]; lia.
        -- intros x [Hx| ->%list_elem_of_singleton]%elem_of_app; [apply Hr in Hx|]; lia.
        -- exists e. split; [apply elem_of_app; right; by left|done].
        -- exists ew. split; [done|]. exists (rest ++ [e]). split.
           ++ rewrite Hhd. rewrite Hrecs at 1. done.
           ++ by rewrite Hhd.
      * split; [|split; [|split]].
        -- intros x [Hx| ->%list_elem_of_singleton]%elem_of_app; [apply Hw in Hx|]; lia.
        -- intros x [Hx| ->%list_elem_of_singleton]%elem_of_app; [apply Hr in Hx|]; lia.
        -- exists er. split; [apply elem_of_app; by left|done].
        -- exists ew. split; [done|]. exists (rest ++ [e]). split.
           ++ rewrite Hhd. rewrite Hrecs at 1. done.
           ++ by rewrite Hhd.
  - subst recs. cbn. split; [|split; [|split]].
    + by intros x ->%list_elem_of_singleton.
    + by intros x ->%list_elem_of_singleton.
    + exists e. split; [by left|done].
    + exists e. rewrite Z.eqb_refl. split; [done|]. exists []. split; [done|].
      rewrite decide_True by done. destruct (Z.gtb_spec (max_weight e) 0), (Z.ltb_spec 0 (max_weight e)); done || lia.
Qed.

Lemma earlier_exercises_wf strptime today workouts d e :
  e ∈ earlier_exercises strptime today workouts d → well_formed e.
Proof.
  unfold earlier_exercises.
  intros (l & (w & <- & _)%in_map_iff & He)%list_elem_of_In%in_concat.
  by apply list_elem_of_In, parse_workout_text_wf in He.
Qed.

(** C2, amended. Among the exercise lines of the workouts dated strictly
    before the reference date that carry a key, [best_weight] is the
    largest [max_weight], [best_reps] is the largest [first_reps], and
    [best_weight_reps] is the [first_reps] of the first line that reaches
    the best weight when that weight is positive, and 0 when it is 0. *)
Theorem history_before_best strptime today workouts workout_date key :
  let recs := records_of key
                (earlier_exercises strptime today workouts workout_date) in
  match history_before strptime today workouts workout_date !! key with
  | None => recs = []
  | Some r =>
      (∃ e, e ∈ recs ∧ max_weight e = best_weight r)
      ∧ (∀ e, e ∈ recs → max_weight e <= best_weight r)
      ∧ (∃ e, e ∈ recs ∧ first_reps e = best_reps r)
      ∧ (∀ e, e ∈ recs → first_reps e <= best_reps r)
      ∧ (0 < best_weight r →
           ∃ e, find (λ e, max_weight e =? best_weight r) recs = Some e
                ∧ best_weight_reps r = first_reps e)
      ∧ (best_weight r = 0 → best_weight_reps r = 0)
  end.
Proof.
  intros recs. rewrite history_before_fold, record_exercises_lookup, lookup_empty.
  fold recs. change (fold_left _ recs None) with (folded recs).
  pose proof (folded_spec recs) as H.
  destruct (folded recs) as [r|]; [|done].
  destruct H as (Hw & Hr & Her & (e & Hfind & rest & Hrecs & Hbwr)).
  pose proof Hfind as [Hin Heq%Z.eqb_eq]%find_some. apply list_elem_of_In in Hin.
  split; [by exists e|]. split; [done|]. split; [done|]. split; [done|]. split.
  - intros Hpos. exists e. split; [done|]. rewrite Hbwr.
    destruct (Z.ltb_spec 0 (best_weight r)); [|lia]. by case_decide.
  - intros H0. rewrite Hbwr.
    assert (hd e recs ∈ recs) as Hhd by (rewrite Hrecs at 2; by left).
    assert (0 <= max_weight (hd e recs)).
    { apply well_formed_max_weight_nonneg.
      apply list_elem_of_filter in Hhd as [_ Hhd].
      by apply earlier_exercises_wf in Hhd. }
    apply Hw in Hhd. rewrite decide_True by lia.
    destruct (Z.ltb_spec 0 (best_weight r)); [lia|done].
Qed.

(** C2, as stated: after a workout of 10 push-ups the record of "pushup"
    has the best weight 0 and 0 reps at the best weight, while the only
    set done at the weight 0 has 10 reps. *)
Lemma bodyweight_history_has_no_reps_at_best_weight :
  let workouts := [mkEntry (lit "01/08/24") (lit "pushup 12");
                   mkEntry (lit "01/01/24") (lit "pushup 10")] in
  let workout := mkEntry (lit "01/08/24") (lit "pushup 12") in
  let recs := records_of (lit "pushup")
                (earlier_exercises sample_strptime sample_today workouts
                   (mkDatetime 2024 738893 0)) in
  parse_workout_date sample_strptime sample_today (date workout)
  = Some (mkDatetime 2024 738893 0)
  ∧ reconstructed_history sample_strptime sample_today workouts workout
      !! lit "pushup"
    = Some (mkHist 0 10 0)
  ∧ set_observed recs 0 10
  ∧ ¬ set_observed recs 0 0.
Proof.
  intros workouts workout recs.
  assert (recs = [mkExercise (lit "pushup") [mkSet 0 10] 0 10 1 0 10 true None])
    as -> by by vm_compute.
  split; [by vm_compute|]. split; [by vm_compute|]. split.
  - eexists _, _. split; [by left|]. split; [by left|]. done.
  - intros (e & s & ->%list_elem_of_singleton & ->%list_elem_of_singleton & _ & Hr).
    done.
Qed.

(** [best_reps] follows the first set of a line, not its longest set. *)
Example best_reps_is_of_first_sets :
  reconstructed_history sample_strptime sample_today
    [mkEntry (lit "01/01/24") (lit "bench press - 100 * 5, 8, 120 * 3")]
    (mkEntry (lit "01/08/24") (lit "bench press - 100 * 5"))
    !! lit "bench press"
  = Some (mkHist 120 5 5).
Proof. by vm_compute. Qed.

End HistoryFacts.

(** ** Progressive overload *)

Module OverloadFacts.
Import PyStr Parser Overload.

Local Open Scope Z_scope.

(** The reps of [progressive_overload] stay within the band. *)
Lemma progressive_overload_reps_bound (last_weight last_reps days_ago : Z) :
  1 <= last_reps <= 12 → 0 <= days_ago <= 14 →
  snd (progressive_overload last_weight last_reps days_ago) <= 12.
Proof.
  intros Hr Hd. unfold progressive_overload.
  replace (days_ago <=? 14) with true by lia.
  repeat case_match; simpl; lia.
Qed.

Lemma py_int_add_half (z : Z) : 0 <= z → py_int (inject_Z z + 2.5) = z + 2.
Proof.
  intros Hz. unfold py_int. cbn.
  rewrite Z.quot_div_nonneg by lia.
  symmetry. apply (Z.div_unique _ _ _ 5); lia.
Qed.

Lemma py_int_add_five (z : Z) : py_int (inject_Z z + 5) = z + 5.
Proof.
  unfold py_int. cbn. rewrite Z.quot_1_r. lia.
Qed.

(** [progressive_overload_suggestions] keeps the reps within the band and
    never suggests less than the last weight: the step that forces an
    increase sees to it. *)
Lemma suggestion_weighted_bounds (last_weight last_reps days_ago : Z) :
  0 < last_weight → 1 <= last_reps <= 12 → 0 <= days_ago <= 14 →
  snd (suggestion_weighted last_weight last_reps days_ago) <= 12
  ∧ last_weight <= fst (suggestion_weighted last_weight last_reps days_ago).
Proof.
  intros Hw Hr Hd. unfold suggestion_weighted.
  replace (days_ago <=? 14) with true by lia.
  destruct (last_reps <? 6) eqn:H6; simpl; [lia|].
  split; [lia|].
  destruct (last_weight <? 50) eqn:H50.
  - case_match; [|lia]. rewrite py_int_add_half; lia.
  - case_match; [|lia]. rewrite py_int_add_five; lia.
Qed.




End OverloadFacts.

(** ** The incremental index update *)

Module IndexFacts.
Import PyStr Parser Mapping Index Notions Samples.

Lemma pos_mem_spec x l : pos_mem x l = true ↔ x ∈ l.
Proof.
  unfold pos_mem. rewrite existsb_exists. split.
  - intros (y & Hin & Heq). apply Z.eqb_eq in Heq as ->. by apply list_elem_of_In.
  - intros H. exists x. split; [by apply list_elem_of_In | apply Z.eqb_refl].
Qed.

Lemma pos_mem_false x l : pos_mem x l = false ↔ x ∉ l.
Proof. rewrite <- pos_mem_spec. by destruct (pos_mem x l). Qed.

Lemma remove_from_lookup x cats k c :
  remove_from x cats k !! c
  = if decide (k = c) then without x <$> cats !! c else cats !! c.
Proof.
  unfold remove_from, without. case_decide as Hk.
  - subst. destruct (cats !! c) as [l|] eqn:Hl; simpl; [|by rewrite Hl].
    destruct (pos_mem x l); [by rewrite lookup_insert_eq | by rewrite Hl].
  - destruct (cats !! k) as [l|]; [|done].
    destruct (pos_mem x l); [by rewrite lookup_insert_ne | done].
Qed.

Lemma add_to_lookup x k cats c :
  add_to x k cats !! c
  = if decide (k = c) then Some (with_new x (default [] (cats !! c)))
    else cats !! c.
Proof.
  unfold add_to, with_new. case_decide as Hk.
  - subst. destruct (pos_mem x _); by rewrite lookup_insert_eq.
  - destruct (pos_mem x _); by rewrite lookup_insert_ne.
Qed.

Lemma categories_distinct :
  pr_category ≠ chest_category ∧ pr_category ≠ full_body_category
  ∧ chest_category ≠ full_body_category.
Proof. repeat split; by vm_compute. Qed.

Lemma rule_based_cases c :
  c ∈ rule_based_categories ↔
  c = pr_category ∨ c = chest_category ∨ c = full_body_category.
Proof.
  unfold rule_based_categories. rewrite !elem_of_cons, elem_of_nil. tauto.
Qed.

Lemma language_model_categories_not_rule_based :
  (leg_day_category ∉ rule_based_categories)
  ∧ (upper_body_category ∉ rule_based_categories).
Proof.
  rewrite !rule_based_cases. split; intros [H | [H | H]]; by vm_compute in H.
Qed.

Ltac lookups :=
  rewrite ?add_to_lookup, ?remove_from_lookup;
  repeat (case_decide; try congruence; simpl); try congruence.

Lemma remove_first_notin x l : x ∉ l → remove_first x l = l.
Proof.
  induction l as [|y r IH]; [done|]. intros H. apply not_elem_of_cons in H as [Hxy Hr].
  simpl. destruct (Z.eqb_spec x y); [done|]. by rewrite IH.
Qed.

Lemma remove_first_subset x y l : y ∈ remove_first x l → y ∈ l.
Proof.
  induction l as [|z r IH]; [done|]. simpl.
  destruct (Z.eqb_spec x z); [by right|].
  intros [->|H]%elem_of_cons; [by left | right; auto].
Qed.

Lemma remove_first_nodup x l :
  NoDup l → NoDup (remove_first x l) ∧ x ∉ remove_first x l.
Proof.
  induction 1 as [|y r Hy Hr IH]; simpl.
  - split; [constructor | apply not_elem_of_nil].
  - destruct (Z.eqb_spec x y) as [->|Hne]; [done|].
    destruct IH as [IH1 IH2]. split.
    + constructor; [|done]. intros Hin. by apply Hy, (remove_first_subset x).
    + apply not_elem_of_cons. done.
Qed.

Lemma without_nodup x l : NoDup l → NoDup (without x l) ∧ x ∉ without x l.
Proof.
  intros H. unfold without. destruct (pos_mem x l) eqn:Hm.
  - by apply remove_first_nodup.
  - by apply pos_mem_false in Hm.
Qed.

Lemma with_new_nodup x l : NoDup l → NoDup (with_new x l).
Proof.
  intros H. unfold with_new. destruct (pos_mem x l) eqn:Hm; [done|].
  apply pos_mem_false in Hm. apply NoDup_app. repeat split; [done| |apply NoDup_singleton].
  intros y Hy ->%list_elem_of_singleton. done.
Qed.

Lemma without_with_new x l : x ∉ l → without x (with_new x l) = l.
Proof.
  intros H. unfold with_new. rewrite (proj2 (pos_mem_false x l) H).
  unfold without. replace (pos_mem x (l ++ [x])) with true.
  - induction l as [|y r IH]; simpl; [by rewrite Z.eqb_refl|].
    apply not_elem_of_cons in H as [Hxy Hr].
    destruct (Z.eqb_spec x y); [done|]. by rewrite IH.
  - symmetry. apply pos_mem_spec, elem_of_app. right. by left.
Qed.

Lemma readd_nodup x q o :
  (∀ l, o = Some l → NoDup l) → ∀ l, readd x q o = Some l → NoDup l.
Proof.
  intros Ho l. unfold readd. destruct o as [l0|]; simpl.
  - specialize (Ho l0 eq_refl). destruct (without_nodup x l0 Ho) as [Hn _].
    destruct q; intros [= <-]; [by apply with_new_nodup | done].
  - destruct q; [|done]. intros [= <-]. apply with_new_nodup. constructor.
Qed.

Lemma readd_idempotent x q o :
  (∀ l, o = Some l → NoDup l) → readd x q (readd x q o) = readd x q o.
Proof.
  intros Ho. unfold readd. destruct o as [l0|]; simpl.
  - specialize (Ho l0 eq_refl). destruct (without_nodup x l0 Ho) as [Hn Hx].
    destruct q; simpl.
    + by rewrite without_with_new.
    + f_equal. unfold without at 1. by rewrite (proj2 (pos_mem_false _ _) Hx).
  - destruct q; simpl; [|done].
    by rewrite without_with_new by apply not_elem_of_nil.
Qed.

Section Update.

Variable mappings : list (str * MappingData).
Variable current_hash now_iso : str.

Lemma remove_all_lookup x cats c :
  fold_left (remove_from x) rule_based_categories cats !! c
  = if decide (c ∈ rule_based_categories) then without x <$> cats !! c
    else cats !! c.
Proof.
  destruct categories_distinct as (H1 & H2 & H3).
  cbn [fold_left rule_based_categories].
  case_decide as Hc.
  - apply rule_based_cases in Hc as [-> | [-> | ->]]; lookups.
  - rewrite rule_based_cases in Hc.
    assert (c ≠ pr_category ∧ c ≠ chest_category ∧ c ≠ full_body_category)
      as (N1 & N2 & N3) by tauto.
    lookups.
Qed.

Lemma add_or_update_lookup x data cats c :
  add_or_update mappings x data cats !! c
  = if decide (c ∈ rule_based_categories)
    then readd x (qualifies mappings data c) (cats !! c)
    else cats !! c.
Proof.
  destruct categories_distinct as (H1 & H2 & H3).
  unfold add_or_update, qualifies, readd.
  cbn [fold_left rule_based_categories].
  case_decide as Hc.
  - apply rule_based_cases in Hc.
    destruct (exercises _) as [|e exs] eqn:Hexs.
    + destruct (has_pr data); destruct Hc as [-> | [-> | ->]]; lookups.
    + destruct (scan_exercises mappings (e :: exs)) as [mg hc]. simpl.
      destruct (has_pr data), hc, (3 <=? _);
        destruct Hc as [-> | [-> | ->]]; lookups.
  - rewrite rule_based_cases in Hc.
    assert (c ≠ pr_category ∧ c ≠ chest_category ∧ c ≠ full_body_category)
      as (N1 & N2 & N3) by tauto.
    destruct (exercises _) as [|e exs] eqn:Hexs.
    + destruct (has_pr data); lookups.
    + destruct (scan_exercises mappings (e :: exs)) as [mg hc]. simpl.
      destruct (has_pr data), hc, (3 <=? _); lookups.
Qed.

(** The update changes no entry outside the rule-based categories. *)
Lemma update_frame index x data operation c :
  c ∉ rule_based_categories →
  categories (update_index_for_workout mappings current_hash now_iso
                index x data operation) !! c
  = categories index !! c.
Proof.
  intros Hc. unfold update_index_for_workout.
  destruct (metadata index); [|done]. cbn [categories].
  destruct (_ || _).
  - rewrite add_or_update_lookup. by rewrite decide_False.
  - destruct (str_eqb operation _); [|done].
    rewrite remove_all_lookup. by rewrite decide_False.
Qed.

(** C9. Whatever the index, the position, the facts and the operation, the
    update leaves the lists of "leg day" and "upper body" as they were. *)
Theorem update_keeps_language_model_categories
    (index : SearchIndex) (workout_index : Z) (workout_data : WorkoutData)
    (operation : str) :
  let index' := update_index_for_workout mappings current_hash now_iso
                  index workout_index workout_data operation in
  categories index' !! leg_day_category = categories index !! leg_day_category
  ∧ categories index' !! upper_body_category
    = categories index !! upper_body_category.
Proof.
  destruct language_model_categories_not_rule_based as [Hleg Hupper].
  split; by apply update_frame.
Qed.

(** The update keeps the rule-based lists free of duplicates. *)
Lemma update_keeps_lists_duplicate_free index x data operation :
  rule_lists_nodup (categories index) →
  rule_lists_nodup
    (categories (update_index_for_workout mappings current_hash now_iso
                   index x data operation)).
Proof.
  intros Hnd c l Hc. unfold update_index_for_workout.
  destruct (metadata index); [|by apply Hnd]. cbn [categories].
  destruct (_ || _).
  - rewrite add_or_update_lookup, decide_True by done.
    apply readd_nodup. intros l0. by apply Hnd.
  - destruct (str_eqb operation _); [|by apply Hnd].
    rewrite remove_all_lookup, decide_True by done.
    destruct (categories index !! c) as [l0|] eqn:Hl0; [|done].
    intros [= <-]. by apply without_nodup, (Hnd c).
Qed.

(** C8. On an index whose rule-based lists hold no position twice, adding
    the same facts for the same position a second time changes no
    rule-based list, and the lists hold no position twice afterwards. *)
Theorem add_twice_same_as_once
    (index : SearchIndex) (workout_index : Z) (workout_data : WorkoutData) :
  rule_lists_nodup (categories index) →
  let once := update_index_for_workout mappings current_hash now_iso
                index workout_index workout_data (lit "add") in
  let twice := update_index_for_workout mappings current_hash now_iso
                 once workout_index workout_data (lit "add") in
  (∀ c, c ∈ rule_based_categories →
     categories twice !! c = categories once !! c)
  ∧ rule_lists_nodup (categories once)
  ∧ rule_lists_nodup (categories twice).
Proof.
  intros Hnd once twice.
  assert (rule_lists_nodup (categories once)) as Hnd1
    by by apply update_keeps_lists_duplicate_free.
  split; [|split; [done | by apply update_keeps_lists_duplicate_free]].
  intros c Hc. subst twice once. clear Hnd1.
  destruct index as [cats [meta|]]; [|done].
  unfold update_index_for_workout. cbn [metadata categories] in *.
  change (str_eqb (lit "add") (lit "add") || str_eqb (lit "add") (lit "update"))
    with true. cbn match.
  rewrite !add_or_update_lookup, !decide_True by done.
  apply readd_idempotent. intros l. by apply Hnd.
Qed.

End Update.

Lemma sample_index_duplicate_free : rule_lists_nodup (categories sample_index).
Proof.
  intros c l Hc. apply rule_based_cases in Hc as [-> | [-> | ->]];
    vm_compute; intros [= <-]; apply (bool_decide_unpack _); by vm_compute.
Defined.

Lemma add_twice_sample :
  let once := update_index_for_workout sample_mappings (lit "h1")
                (lit "2024-02-02T08:00:00") sample_index 0 sample_data (lit "add") in
  let twice := update_index_for_workout sample_mappings (lit "h1")
                 (lit "2024-02-02T08:00:00") once 0 sample_data (lit "add") in
  rule_lists_nodup (categories sample_index)
  ∧ (∀ c, c ∈ rule_based_categories →
       categories twice !! c = categories once !! c)
  ∧ rule_lists_nodup (categories once)
  ∧ rule_lists_nodup (categories twice).
Proof.
  intros once twice. split; [exact sample_index_duplicate_free|].
  exact (add_twice_same_as_once sample_mappings (lit "h1")
           (lit "2024-02-02T08:00:00") sample_index 0 sample_data
           sample_index_duplicate_free).
Defined.

(** What the sample comes to: position 0 moves to the end of the PR list
    and of the chest list, the second call changes nothing. *)
Example add_twice_sample_lists :
  let once := update_index_for_workout sample_mappings (lit "h1")
                (lit "2024-02-02T08:00:00") sample_index 0 sample_data (lit "add") in
  categories once !! pr_category = Some [2; 0]
  ∧ categories once !! chest_category = Some [1; 0]
  ∧ categories once !! full_body_category = None
  ∧ update_index_for_workout sample_mappings (lit "h1")
      (lit "2024-02-02T08:00:00") once 0 sample_data (lit "add") = once.
Proof. repeat split; by vm_compute. Qed.

(** The hypothesis is needed: [list.remove] takes one occurrence away, so
    a list that held the position twice loses it on the second call. *)
Example add_twice_on_a_duplicate :
  let data := mkData false [] in
  let once := update_index_for_workout sample_mappings (lit "h1")
                (lit "2024-02-02T08:00:00") index_with_duplicate 3 data (lit "add") in
  let twice := update_index_for_workout sample_mappings (lit "h1")
                 (lit "2024-02-02T08:00:00") once 3 data (lit "add") in
  categories once !! pr_category = Some [3]
  ∧ categories twice !! pr_category = Some [].
Proof. split; by vm_compute. Qed.

End IndexFacts.

(** ** Recovery status *)

Module RecoveryFacts.
Import PyStr Parser Dates History Mapping Recovery Notions Samples.

Lemma ch_eqb_spec a b : ch_eqb a b = true ↔ a = b.
Proof. apply Ascii.eqb_eq. Qed.

Lemma str_eqb_spec a b : str_eqb a b = true ↔ a = b.
Proof.
  revert b. induction a as [|x a IH]; intros [|y b]; simpl; try done.
  rewrite andb_true_iff, ch_eqb_spec, IH. split; [by intros [-> ->] | by intros [= -> ->]].
Qed.

Lemma list_mem_spec x l : list_mem x l = true ↔ x ∈ l.
Proof.
  unfold list_mem. rewrite existsb_exists. split.
  - intros (y & Hin & Heq). apply str_eqb_spec in Heq as ->. by apply list_elem_of_In.
  - intros H. exists x. split; [by apply list_elem_of_In | by apply str_eqb_spec].
Qed.

Lemma track_group_lookup d acc g' g :
  track_group d acc g' !! g
  = if decide (g = g') then Some (min_with (acc !! g) d) else acc !! g.
Proof.
  unfold track_group, min_with. case_decide as Hg.
  - subst. destruct (acc !! g') as [d0|] eqn:H0.
    + destruct (Z.ltb_spec d d0).
      * rewrite lookup_insert_eq. f_equal. lia.
      * rewrite H0. f_equal. lia.
    + by rewrite lookup_insert_eq.
  - destruct (acc !! g') as [d0|]; [destruct (d <? d0)|];
      by rewrite ?lookup_insert_ne.
Qed.

Lemma min_with_idem o d : min_with (Some (min_with o d)) d = min_with o d.
Proof. destruct o; simpl; lia. Qed.

Lemma track_groups_lookup d gs acc g :
  fold_left (track_group d) gs acc !! g
  = if decide (g ∈ gs) then Some (min_with (acc !! g) d) else acc !! g.
Proof.
  revert acc. induction gs as [|g' gs IH]; intros acc; cbn [fold_left].
  - case_decide as H; [by apply elem_of_nil in H | done].
  - rewrite IH, track_group_lookup.
    destruct (decide (g = g')) as [->|Hne].
    + rewrite min_with_idem.
      destruct (decide (g' ∈ g' :: gs)) as [_|H]; [|by destruct H; left].
      by destruct (decide (g' ∈ gs)).
    + destruct (decide (g ∈ gs)) as [Hin|Hnin];
        destruct (decide (g ∈ g' :: gs)) as [Hin'|Hnin']; try done.
      * destruct Hnin'. by right.
      * by apply elem_of_cons in Hin' as [?|?].
Qed.

Lemma track_entries_spec entries acc g :
  match track_entries entries acc !! g with
  | Some d =>
      (acc !! g = Some d ∨ ∃ gs, (d, gs) ∈ entries ∧ g ∈ gs)
      ∧ (∀ d0, acc !! g = Some d0 → d <= d0)
      ∧ (∀ d' gs, (d', gs) ∈ entries → g ∈ gs → d <= d')
  | None => acc !! g = None ∧ ∀ d' gs, (d', gs) ∈ entries → g ∉ gs
  end.
Proof.
  revert acc. induction entries as [|[d1 gs1] entries IH]; intros acc.
  - simpl. destruct (acc !! g) as [d|] eqn:Hg.
    + split; [by left|]. split; [intros ? [= <-]; lia|]. intros ?? []%elem_of_nil.
    + split; [done|]. intros ?? []%elem_of_nil.
  - unfold track_entries in *. simpl.
    specialize (IH (fold_left (track_group d1) gs1 acc)).
    rewrite track_groups_lookup in IH.
    destruct (fold_left _ entries _ !! g) as [d|].
    + destruct IH as (Hex & Hacc & Hall).
      destruct (decide (g ∈ gs1)) as [Hin|Hnin].
      * specialize (Hacc _ eq_refl).
        split; [|split].
        -- destruct Hex as [[= Hd]|(gs & Hgs & Hg)].
           ++ destruct (acc !! g) as [d0|] eqn:H0; simpl in Hd.
              ** destruct (Z.le_ge_cases d0 d1).
                 --- left. f_equal. lia.
                 --- right. exists gs1. split; [|done].
                     assert (d = d1) as -> by lia. by left.
              ** right. exists gs1. split; [|done]. subst d. by left.
           ++ right. exists gs. split; [by right|done].
        -- intros d0 Hd0. rewrite Hd0 in Hacc. simpl in Hacc. lia.
        -- intros d' gs [[= -> ->]|Hin']%elem_of_cons Hg.
           ++ destruct (acc !! g); simpl in Hacc; lia.
           ++ by apply (Hall d' gs).
      * split; [|split].
        -- destruct Hex as [Hd|(gs & Hgs & Hg)]; [by left|].
           right. exists gs. split; [by right|done].
        -- done.
        -- intros d' gs [[= -> ->]|Hin']%elem_of_cons Hg; [done|].
           by apply (Hall d' gs).
    + destruct IH as (Hnone & Hall).
      destruct (decide (g ∈ gs1)) as [Hin|Hnin]; [done|].
      split; [done|].
      intros d' gs [[= -> ->]|Hin']%elem_of_cons; [done|]. by apply (Hall d').
Qed.

Lemma categorize_bucket m b g k :
  bucket k (categorize m b g)
  = if decide (status_of (m !! g) = k) then bucket k b ++ [(g, m !! g)]
    else bucket k b.
Proof.
  unfold categorize, status_of.
  destruct (m !! g) as [d|]; [|by destruct k].
  destruct (d <=? 1); [by destruct k|].
  destruct (d <=? 3); [by destruct k|].
  destruct (d <=? 6); by destruct k.
Qed.

Lemma categorize_all m gl b0 k g o :
  (g, o) ∈ bucket k (fold_left (categorize m) gl b0)
  ↔ (g, o) ∈ bucket k b0 ∨ (g ∈ gl ∧ o = m !! g ∧ status_of (m !! g) = k).
Proof.
  revert b0. induction gl as [|g1 gl IH]; intros b0; cbn [fold_left].
  - split; [by left|]. intros [H|[[]%elem_of_nil _]]. done.
  - rewrite IH, categorize_bucket. rewrite elem_of_cons.
    case_decide as Hk.
    + rewrite elem_of_app, list_elem_of_singleton. split.
      * intros [[H|[= -> ->]]|(H1 & H2 & H3)]; [by left|right|right]; by eauto.
      * intros [H|([->|H1] & H2 & H3)]; [by left; left|left; right; by subst|right; done].
    + split.
      * intros [H|(H1 & H2 & H3)]; [by left|right; by eauto].
      * intros [H|([->|H1] & H2 & H3)]; [by left|done|by right].
Qed.

Lemma status_of_cases o k :
  status_of o = k ↔
  match k with
  | TooSoon => ∃ d, o = Some d ∧ d <= 1
  | Optimal => ∃ d, o = Some d ∧ 2 <= d <= 3
  | Ready => ∃ d, o = Some d ∧ 4 <= d <= 6
  | Neglected => match o with None => True | Some d => 7 <= d end
  end.
Proof.
  unfold status_of. destruct o as [d|].
  - destruct (Z.leb_spec d 1); [|destruct (Z.leb_spec d 3); [|destruct (Z.leb_spec d 6)]];
      destruct k; split; try done; try lia;
      try (intros (d' & [= <-] & ?); lia); try (intros _; exists d; split; [done|lia]).
  - destruct k; split; try done; by intros (d & ? & ?).
Qed.

Lemma filter_neglected_spec l g o :
  (g, o) ∈ filter_neglected l
  ↔ (g, o) ∈ l
    ∧ ¬ (g = lit "arms"
         ∧ ((∃ o', (lit "biceps", o') ∈ l) ∨ (∃ o', (lit "triceps", o') ∈ l))).
Proof.
  assert (∀ x, list_mem x (map fst l) = true ↔ ∃ o', (x, o') ∈ l) as Hmem.
  { intros x. rewrite list_mem_spec. change (map fst l) with (fst <$> l).
    rewrite list_elem_of_fmap.
    split; [intros ([x' o'] & -> & H); by exists o' | intros (o' & H); by exists (x, o')]. }
  unfold filter_neglected. rewrite list_elem_of_filter. cbn [fst].
  rewrite andb_true_iff, orb_true_iff, str_eqb_spec, !Hmem. tauto.
Qed.

Lemma recovery_buckets_unfold m :
  recovery_buckets m
  = assemble (fold_left (categorize m) all_groups (mkBuckets [] [] [] [])).
Proof. reflexivity. Qed.

Lemma canonical_groups :
  lit "arms" ∈ all_groups ∧ lit "biceps" ∈ all_groups ∧ lit "triceps" ∈ all_groups.
Proof. repeat split; apply (bool_decide_unpack _); by vm_compute. Qed.

Lemma recovery_buckets_spec (m : gmap str Z) :
  (∀ g o, (g, o) ∈ too_soon (recovery_buckets m) ↔
       g ∈ all_groups ∧ ∃ d, o = Some d ∧ m !! g = Some d ∧ d <= 1)
  ∧ (∀ g o, (g, o) ∈ optimal (recovery_buckets m) ↔
       g ∈ all_groups ∧ ∃ d, o = Some d ∧ m !! g = Some d ∧ 2 <= d <= 3)
  ∧ (∀ g o, (g, o) ∈ ready (recovery_buckets m) ↔
       g ∈ all_groups ∧ ∃ d, o = Some d ∧ m !! g = Some d ∧ 4 <= d <= 6)
  ∧ (∀ g o, (g, o) ∈ neglected (recovery_buckets m) ↔
       g ∈ all_groups ∧ o = m !! g ∧ is_neglected m g
       ∧ ¬ (g = lit "arms"
            ∧ (is_neglected m (lit "biceps") ∨ is_neglected m (lit "triceps")))).
Proof.
  rewrite recovery_buckets_unfold.
  assert (∀ k g o, (g, o) ∈ bucket k (fold_left (categorize m) all_groups (mkBuckets [] [] [] []))
                   ↔ g ∈ all_groups ∧ o = m !! g ∧ status_of (m !! g) = k) as Hb.
  { intros k g o. rewrite categorize_all. split; [|by right].
    intros [H|H]; [|done]. destruct k; by apply elem_of_nil in H. }
  revert Hb. generalize (fold_left (categorize m) all_groups (mkBuckets [] [] [] [])).
  intros b0 Hb. unfold assemble. cbn [too_soon optimal ready neglected].
  assert (∀ k g o, (g, o) ∈ bucket k b0 ↔
            g ∈ all_groups ∧ o = m !! g
            ∧ match k with
              | TooSoon => ∃ d, m !! g = Some d ∧ d <= 1
              | Optimal => ∃ d, m !! g = Some d ∧ 2 <= d <= 3
              | Ready => ∃ d, m !! g = Some d ∧ 4 <= d <= 6
              | Neglected => is_neglected m g
              end) as Hk.
  { intros k g o. split.
    - intros (Hg & Ho & Hs)%Hb. apply status_of_cases in Hs. by destruct k.
    - intros (Hg & Ho & Hs). apply Hb. split; [done|]. split; [done|].
      apply status_of_cases. by destruct k. }
  clear Hb.
  split; [|split; [|split]].
  - intros g o. split.
    + intros (Hg & -> & d & Hd & Hr)%(Hk TooSoon).
      split; [exact Hg|]. exists d. repeat split; assumption || lia.
    + intros (Hg & d & -> & Hd & Hr). apply (Hk TooSoon).
      split; [exact Hg|]. split; [by rewrite Hd|]. exists d. split; assumption.
  - intros g o. split.
    + intros (Hg & -> & d & Hd & Hr)%(Hk Optimal).
      split; [exact Hg|]. exists d. repeat split; assumption || lia.
    + intros (Hg & d & -> & Hd & Hr). apply (Hk Optimal).
      split; [exact Hg|]. split; [by rewrite Hd|]. exists d. split; assumption.
  - intros g o. split.
    + intros (Hg & -> & d & Hd & Hr)%(Hk Ready).
      split; [exact Hg|]. exists d. repeat split; assumption || lia.
    + intros (Hg & d & -> & Hd & Hr). apply (Hk Ready).
      split; [exact Hg|]. split; [by rewrite Hd|]. exists d. split; assumption.
  - intros g o.
    assert (∀ x, x ∈ all_groups →
              (∃ o', (x, o') ∈ neglected b0) ↔ is_neglected m x) as Hn.
    { intros x Hx. split.
      - by intros (o' & (_ & _ & H)%(Hk Neglected)).
      - intros H. exists (m !! x). by apply (Hk Neglected). }
    destruct canonical_groups as (Ha & Hbi & Htr).
    pose proof (Hn _ Hbi) as Hn1. pose proof (Hn _ Htr) as Hn2.
    pose proof (Hk Neglected g o) as Hg. cbn [bucket] in Hg.
    pose proof (filter_neglected_spec (neglected b0) g o) as Hf.
    clear Hk Hn Ha Hbi Htr. split.
    + intros [Hin Hnot]%Hf. apply Hg in Hin as (H1 & H2 & H3).
      split; [exact H1|]. split; [exact H2|]. split; [exact H3|].
      intros [Harm Hor]. apply Hnot. split; [exact Harm|].
      destruct Hor as [H|H]; [left; apply Hn1; exact H | right; apply Hn2; exact H].
    + intros (H1 & H2 & H3 & Hnot). apply Hf. split.
      * apply Hg. split; [exact H1|]. split; [exact H2|exact H3].
      * intros [Harm Hor]. apply Hnot. split; [exact Harm|].
        destruct Hor as [H|H]; [left; apply Hn1; exact H | right; apply Hn2; exact H].
Qed.

Section Window.
Variable strptime : str -> str -> option datetime.
Variable today : datetime.
Variable mappings : list (str * MappingData).

Lemma last_trained_entries workouts :
  last_trained strptime today mappings workouts
  = track_entries (window_entries strptime today mappings workouts) ∅.
Proof.
  unfold last_trained, window_entries, track_entries.
  generalize (∅ : gmap str Z). induction (firstn 20 workouts) as [|w ws IH]; intros acc; [done|].
  cbn [fold_left omap list_omap]. rewrite IH.
  destruct (window_entry strptime today mappings w) as [[d gs]|]; done.
Qed.

Lemma last_trained_smallest workouts g :
  match last_trained strptime today mappings workouts !! g with
  | Some d => (∃ gs, (d, gs) ∈ window_entries strptime today mappings workouts ∧ g ∈ gs)
               ∧ ∀ d' gs, (d', gs) ∈ window_entries strptime today mappings workouts →
                          g ∈ gs → d <= d'
  | None => ∀ d' gs, (d', gs) ∈ window_entries strptime today mappings workouts → g ∉ gs
  end.
Proof.
  rewrite last_trained_entries.
  pose proof (track_entries_spec (window_entries strptime today mappings workouts) ∅ g) as H.
  destruct (track_entries _ _ !! g) as [d|].
  - destruct H as ([H|H] & _ & Hmin); [by rewrite lookup_empty in H|done].
  - by destruct H.
Qed.

(** C7. The table of last training days holds, for a group, the smallest
    days-ago among the workouts of the window that train it. A group of
    the canonical list lands in too-soon up to 1 day, in optimal for 2 to
    3 days, in ready for 4 to 6 days, and in neglected from 7 days on or
    when the window does not train it; [arms] is left out of neglected
    when [biceps] or [triceps] is neglected. *)
Theorem recovery_buckets_by_smallest_days_ago (workouts : list Workout) :
  let entries := window_entries strptime today mappings workouts in
  let m := last_trained strptime today mappings workouts in
  let b := recovery_check strptime today mappings workouts in
  (∀ g, match m !! g with
        | Some d => (∃ gs, (d, gs) ∈ entries ∧ g ∈ gs)
                    ∧ ∀ d' gs, (d', gs) ∈ entries → g ∈ gs → d <= d'
        | None => ∀ d' gs, (d', gs) ∈ entries → g ∉ gs
        end)
  ∧ (∀ g o, (g, o) ∈ too_soon b ↔
       g ∈ all_groups ∧ ∃ d, o = Some d ∧ m !! g = Some d ∧ d <= 1)
  ∧ (∀ g o, (g, o) ∈ optimal b ↔
       g ∈ all_groups ∧ ∃ d, o = Some d ∧ m !! g = Some d ∧ 2 <= d <= 3)
  ∧ (∀ g o, (g, o) ∈ ready b ↔
       g ∈ all_groups ∧ ∃ d, o = Some d ∧ m !! g = Some d ∧ 4 <= d <= 6)
  ∧ (∀ g o, (g, o) ∈ neglected b ↔
       g ∈ all_groups ∧ o = m !! g ∧ is_neglected m g
       ∧ ¬ (g = lit "arms"
            ∧ (is_neglected m (lit "biceps") ∨ is_neglected m (lit "triceps")))).
Proof.
  intros entries m b. split.
  - exact (last_trained_smallest workouts).
  - exact (recovery_buckets_spec m).
Qed.
End Window.

(** The sample window: legs and glutes today, chest and triceps three days
    ago, biceps ten days ago; the bench press of 24 days ago is outside
    the window, and [arms] is left out because [biceps] is neglected. *)
Example recovery_sample :
  let b := recovery_check sample_strptime sample_today sample_mappings
             sample_window in
  too_soon b = [(lit "legs", Some 0); (lit "glutes", Some 0)]
  ∧ optimal b = [(lit "chest", Some 3); (lit "triceps", Some 3)]
  ∧ ready b = []
  ∧ neglected b = [(lit "back", None); (lit "shoulders", None);
                   (lit "biceps", Some 10); (lit "calves", None);
                   (lit "core", None); (lit "abs", None)].
Proof. repeat split; by vm_compute. Qed.

End RecoveryFacts.

(** ** What every parsed line satisfies *)

Module ParserInvariants.
Import PyStr Parser Notions ParserFacts.

(** X1. A dictionary returned by [parse_exercise_line] has at least one
    set; [first_reps] is the reps of the first set, [total_sets] the
    number of sets, [max_weight] and [max_reps] are attained by a set and
    bound every set, no weight or reps is negative, and [is_bodyweight]
    says that the leading weight is 0. *)
Theorem parsed_exercise_invariants (line : str) (e : ParsedExercise) :
  parse_exercise_line line = Some e →
  (∃ s0 rest, sets e = s0 :: rest ∧ first_reps e = reps s0)
  ∧ total_sets e = Z.of_nat (length (sets e))
  ∧ (∃ s, s ∈ sets e ∧ weight s = max_weight e)
  ∧ (∀ s, s ∈ sets e → 0 <= weight s <= max_weight e)
  ∧ (∃ s, s ∈ sets e ∧ reps s = max_reps e)
  ∧ (∀ s, s ∈ sets e → 0 <= reps s <= max_reps e)
  ∧ 0 <= first_weight e
  ∧ is_bodyweight e = (first_weight e =? 0).
Proof.
  intros (Hfirst & Hok & Hfw & Htot & Hmw & Hmr & Hbw)%parse_exercise_line_wf.
  destruct Hfirst as (s0 & rest & Hsets & Hfr).
  rewrite Forall_forall in Hok.
  destruct (py_max_bounds (map weight (sets e))) as [Hwin Hwle]; [by rewrite Hsets|].
  destruct (py_max_bounds (map reps (sets e))) as [Hrin Hrle]; [by rewrite Hsets|].
  rewrite <- Hmw in Hwin, Hwle. rewrite <- Hmr in Hrin, Hrle.
  split; [by exists s0, rest|]. split; [done|]. split; [|split; [|split; [|split]]].
  - apply list_elem_of_In, in_map_iff in Hwin as (s & Hs & Hin).
    exists s. by split; [apply list_elem_of_In|].
  - intros s Hs. split; [by apply Hok|].
    apply Hwle, list_elem_of_In, in_map. by apply list_elem_of_In.
  - apply list_elem_of_In, in_map_iff in Hrin as (s & Hs & Hin).
    exists s. by split; [apply list_elem_of_In|].
  - intros s Hs. split; [by apply Hok|].
    apply Hrle, list_elem_of_In, in_map. by apply list_elem_of_In.
  - done.
Qed.

Lemma parsed_exercise_invariants_sample :
  let line := lit "bicep curl - 55 * 7, 60 * 4, 2; 55 * 1" in
  let e := mkExercise (lit "bicep curl")
             [mkSet 55 7; mkSet 60 4; mkSet 60 2; mkSet 55 1] 55 7 4 60 7 false
             (Some line) in
  parse_exercise_line line = Some e
  ∧ (∃ s, s ∈ sets e ∧ weight s = max_weight e)
  ∧ (∀ s, s ∈ sets e → 0 <= weight s <= max_weight e).
Proof.
  intros line e.
  assert (parse_exercise_line line = Some e) as H by (vm_compute; reflexivity).
  split; [exact H|].
  pose proof (parsed_exercise_invariants line e H) as (_ & _ & H1 & H2 & _).
  split; [exact H1 | exact H2].
Defined.

(** X2. Blanks around a line change nothing: the parser strips the line
    first, and stripping twice is stripping once. *)
Theorem parse_ignores_outer_blanks (line : str) :
  parse_exercise_line (strip line) = parse_exercise_line line.
Proof. unfold parse_exercise_line. by rewrite strip_fixed. Qed.

Lemma parse_bodyweight_sets line e :
  parse_bodyweight line = Some e →
  first_weight e = 0 ∧ max_weight e = 0 ∧ is_bodyweight e = true
  ∧ Forall (fun s => weight s = 0) (sets e)
  ∧ max_reps e = py_max (map reps (sets e)).
Proof.
  unfold parse_bodyweight. destruct (match_bodyweight line) as [[g1 g2]|]; [|done].
  destruct (map _ _) as [|n0 ns] eqn:Hmap; [done|]. intros [= <-].
  cbn [sets first_weight max_weight max_reps is_bodyweight].
  repeat split; try done.
  - apply Forall_forall. intros s. change (mkSet 0 n0 :: map (mkSet 0) ns)
      with (map (mkSet 0) (n0 :: ns)). change (map ?f ?l) with (f <$> l).
    by intros (n & -> & _)%list_elem_of_fmap.
  - change (mkSet 0 n0 :: map (mkSet 0) ns) with (map (mkSet 0) (n0 :: ns)).
    by rewrite (proj2 (bodyweight_sets (n0 :: ns))).
Qed.

(** X3. A dictionary without [original_line] comes from the reps-only
    form: it is a bodyweight exercise and every set has the weight 0. Only
    the weighted form records the line. *)
Theorem reps_only_lines_are_bodyweight (line : str) (e : ParsedExercise) :
  parse_exercise_line line = Some e →
  original_line e = None →
  is_bodyweight e = true
  ∧ first_weight e = 0 ∧ max_weight e = 0
  ∧ ∀ s, s ∈ sets e → weight s = 0.
Proof.
  unfold parse_exercise_line. destruct (_ || _); [done|].
  destruct (parse_bodyweight (strip line)) as [e'|] eqn:Hb.
  - intros [= <-] _. apply parse_bodyweight_sets in Hb as (H1 & H2 & H3 & H4 & _).
    rewrite Forall_forall in H4. done.
  - intros Hw Hol. exfalso. revert Hw Hol. unfold parse_weighted.
    destruct (negb _); [done|].
    destruct (split1 _ _) as [|p0 [|p1 [|]]]; try done.
    destruct (match_weight _); [|done].
    destruct (parse_reps _ _); [done|]. by intros [= <-].
Qed.

Lemma reps_only_sample :
  let line := lit "pull-up 10, 8, 9, 7" in
  let e := mkExercise (lit "pull-up")
             [mkSet 0 10; mkSet 0 8; mkSet 0 9; mkSet 0 7] 0 10 4 0 10 true None in
  parse_exercise_line line = Some e ∧ original_line e = None
  ∧ is_bodyweight e = true ∧ first_weight e = 0 ∧ max_weight e = 0
  ∧ ∀ s, s ∈ sets e → weight s = 0.
Proof.
  intros line e.
  assert (parse_exercise_line line = Some e) as H by (vm_compute; reflexivity).
  split; [exact H|]. split; [reflexivity|].
  exact (reps_only_lines_are_bodyweight line e H eq_refl).
Defined.

Lemma parse_blank line : strip line = [] → parse_exercise_line line = None.
Proof. intros H. unfold parse_exercise_line. by rewrite H. Qed.

Lemma parse_of_stripped line :
  parse_exercise_line (strip line) = parse_exercise_line line.
Proof. unfold parse_exercise_line. by rewrite strip_fixed. Qed.

Lemma total_sets_sum_bound (exs : list ParsedExercise) :
  Forall well_formed exs →
  Z.of_nat (length exs) <= fold_right Z.add 0 (map total_sets exs).
Proof.
  induction 1 as [|e exs He _ IH]; [done|]. cbn [length map fold_right].
  destruct He as ((s0 & rest & Hsets & _) & _ & _ & Htot & _).
  rewrite Htot, Hsets. cbn [length]. lia.
Qed.

(** X4. The exercises of a workout text are the dictionaries of its
    lines, a line being whatever stands between two line feeds: nothing
    else, and none is lost. Every exercise has a set, so the count of the
    exercises does not exceed the total of the sets. *)
Theorem workout_text_exercises (workout_text : str) :
  let w := parse_workout_text workout_text in
  (∀ e, e ∈ exercises w ↔
        ∃ line, line ∈ split_on "010"%char workout_text
                ∧ parse_exercise_line line = Some e)
  ∧ exercise_count w <= workout_total_sets w.
Proof.
  intros w. split.
  - intros e. unfold w, parse_workout_text. cbn [exercises].
    rewrite list_elem_of_omap. split.
    + intros (l & Hl & He). change (map ?f ?x) with (f <$> x) in Hl.
      apply list_elem_of_fmap in Hl as (l0 & -> & Hl0).
      apply list_elem_of_filter in Hl0 as [_ Hl0].
      exists l0. split; [done|]. by rewrite <- parse_of_stripped.
    + intros (l & Hl & He). exists (strip l). split.
      * change (map ?f ?x) with (f <$> x). apply list_elem_of_fmap.
        exists l. split; [done|]. apply list_elem_of_filter. split; [|done].
        intros Hblank. by rewrite (parse_blank _ Hblank) in He.
      * by rewrite parse_of_stripped.
  - unfold w, parse_workout_text.
    cbn [exercise_count workout_total_sets].
    apply total_sets_sum_bound, Forall_forall. intros e He.
    apply (parse_workout_text_wf workout_text). done.
Qed.

End ParserInvariants.

(** ** Dates, histories and flags *)

Module HistoryInvariants.
Import PyStr Parser Dates History Notions Samples ParserFacts HistoryFacts.

Section Clock.
Variable strptime : str -> str -> option datetime.
Variable today : datetime.

Lemma try_formats_some date_str fmts d :
  try_formats strptime today date_str fmts = Some d →
  ∃ before fmt after,
    fmts = before ++ fmt :: after
    ∧ strptime date_str fmt = Some d
    ∧ implausible today d = false
    ∧ ∀ f, f ∈ before →
        match strptime date_str f with
        | None => True
        | Some p => implausible today p = true
        end.
Proof.
  induction fmts as [|fmt rest IH]; [done|]. cbn [try_formats].
  destruct (strptime date_str fmt) as [p|] eqn:Hp.
  - destruct (implausible today p) eqn:Himp.
    + intros (before & f & after & -> & H1 & H2 & H3)%IH.
      exists (fmt :: before), f, after. repeat split; try done.
      intros f' [->|Hf']%elem_of_cons; [by rewrite Hp|by apply H3].
    + intros [= <-]. exists [], fmt, rest. repeat split; try done.
      intros f' []%elem_of_nil.
  - intros (before & f & after & -> & H1 & H2 & H3)%IH.
    exists (fmt :: before), f, after. repeat split; try done.
    intros f' [->|Hf']%elem_of_cons; [by rewrite Hp|by apply H3].
Qed.

(** X5. A date that parses is not empty, lies at most one year and one
    day ahead of the clock, and is the answer of [strptime] for the first
    format of the list that does not raise and is not rejected by the
    guard; no later format is tried. *)
Theorem parsed_date_is_first_plausible (date_str : str) (d : datetime) :
  parse_workout_date strptime today date_str = Some d →
  date_str ≠ []
  ∧ dt_year d <= dt_year today + 1
  ∧ days_between d today <= 1
  ∧ ∃ before fmt after,
      date_formats = before ++ fmt :: after
      ∧ strptime date_str fmt = Some d
      ∧ ∀ f, f ∈ before →
          match strptime date_str f with
          | None => True
          | Some p => implausible today p = true
          end.
Proof.
  unfold parse_workout_date. destruct date_str as [|c s]; [done|]. cbn [str_eqb].
  intros (before & fmt & after & Hf & Hs & Himp & Hb)%try_formats_some.
  unfold implausible in Himp. apply orb_false_iff in Himp as [Hy Hd].
  split; [done|]. split; [lia|]. split; [lia|]. by exists before, fmt, after.
Qed.

Lemma history_before_none workouts d :
  (∀ w, w ∈ workouts → is_earlier strptime today d w = false) →
  history_before strptime today workouts d = ∅.
Proof.
  unfold history_before. generalize (∅ : gmap str HistoryRecord).
  induction workouts as [|w ws IH]; intros h Hw; [done|]. cbn [fold_left].
  rewrite (Hw w) by by left. apply IH. intros w' Hw'. apply Hw. by right.
Qed.

Lemma check_exercises_empty exs flags :
  fold_left (check_exercise ∅) exs flags = flags.
Proof.
  induction exs as [|e exs IH]; [done|]. cbn [fold_left].
  unfold check_exercise at 2. destruct flags. by rewrite lookup_empty.
Qed.

(** X6. A workout that no workout of the log precedes in time has an
    empty history and raises neither flag: the first workout ever logged
    is never a PR. *)
Theorem no_earlier_workout_no_flags (workouts : list Workout) (workout : Workout) :
  (∀ w d d', w ∈ workouts →
     parse_workout_date strptime today (date workout) = Some d →
     parse_workout_date strptime today (date w) = Some d' →
     total_usec d <= total_usec d') →
  reconstructed_history strptime today workouts workout = ∅
  ∧ detect_pr strptime today workouts workout = (false, false).
Proof.
  intros Hw. unfold reconstructed_history, detect_pr.
  destruct (parse_workout_date strptime today (date workout)) as [d|] eqn:Hd; [|done].
  rewrite history_before_none.
  - split; [done|]. apply check_exercises_empty.
  - intros w Hin. unfold is_earlier.
    destruct (parse_workout_date strptime today (date w)) as [d'|] eqn:Hd'; [|done].
    specialize (Hw w d d' Hin eq_refl Hd'). unfold dt_ltb. lia.
Qed.

Lemma check_exercises_flags h exs pr si :
  fold_left (check_exercise h) exs (pr, si)
  = (pr || existsb (fun e => fst (exercise_flags h e)) exs,
     si || existsb (fun e => snd (exercise_flags h e)) exs).
Proof.
  revert pr si. induction exs as [|e exs IH]; intros pr si.
  - cbn. by rewrite !orb_false_r.
  - cbn [fold_left existsb].
    assert (check_exercise h (pr, si) e
            = (pr || fst (exercise_flags h e), si || snd (exercise_flags h e))) as ->.
    { unfold exercise_flags, check_exercise.
      destruct (h !! ex_key e); [|by rewrite !orb_false_r].
      repeat case_match; cbn; by rewrite ?orb_false_r, ?orb_true_r. }
    rewrite IH. by rewrite !orb_assoc.
Qed.

(** X7. The flags of a workout are the disjunctions of the flags of its
    exercises: a workout is a PR exactly when one of its exercises, taken
    alone against the history, is one, and likewise for the strength
    increase. A flag once raised is not taken back by a later exercise. *)
Theorem workout_flags_are_any_exercise_flag (workouts : list Workout)
    (workout : Workout) (d : datetime) :
  parse_workout_date strptime today (date workout) = Some d →
  let h := history_before strptime today workouts d in
  let exs := exercises (parse_workout_text (text workout)) in
  (fst (detect_pr strptime today workouts workout) = true
   ↔ ∃ e, e ∈ exs ∧ fst (exercise_flags h e) = true)
  ∧ (snd (detect_pr strptime today workouts workout) = true
     ↔ ∃ e, e ∈ exs ∧ snd (exercise_flags h e) = true).
Proof.
  intros Hd h exs. unfold detect_pr. rewrite Hd. fold h exs.
  rewrite check_exercises_flags. cbn [fst snd orb].
  rewrite !existsb_exists. split; split.
  - intros (e & He & Hf). exists e. by split; [apply list_elem_of_In|].
  - intros (e & He & Hf). exists e. by split; [apply list_elem_of_In|].
  - intros (e & He & Hf). exists e. by split; [apply list_elem_of_In|].
  - intros (e & He & Hf). exists e. by split; [apply list_elem_of_In|].
Qed.

Lemma updated_record_grows o ex :
  match o with
  | Some r => best_weight r <= best_weight (updated_record o ex)
              ∧ best_reps r <= best_reps (updated_record o ex)
  | None => True
  end.
Proof.
  destruct o as [r|]; [|done]. unfold updated_record.
  destruct (Z.gtb_spec (max_weight ex) (best_weight r)); cbn [best_weight best_reps];
  match goal with |- context [?a >? ?b] => destruct (Z.gtb_spec a b) end;
  cbn [best_weight best_reps]; lia.
Qed.

Lemma record_exercises_grow exs h k r :
  h !! k = Some r →
  ∃ r', fold_left record_exercise exs h !! k = Some r'
        ∧ best_weight r <= best_weight r' ∧ best_reps r <= best_reps r'.
Proof.
  revert h r. induction exs as [|e exs IH]; intros h r Hr.
  - exists r. by split; [|lia].
  - cbn [fold_left].
    pose proof (record_exercise_lookup h e k) as Hl.
    pose proof (updated_record_grows (h !! k) e) as Hg. rewrite Hr in Hg.
    case_decide.
    + rewrite Hr in Hl. destruct (IH _ _ Hl) as (r' & H1 & H2 & H3).
      exists r'. split; [done|]. lia.
    + rewrite Hr in Hl. destruct (IH _ _ Hl) as (r' & H1 & H2 & H3).
      exists r'. by split.
Qed.

(** X8. The loop over the earlier workouts only raises the records: what
    is recorded for a key after some workouts is still recorded after
    more of them, with a best weight and best reps that are not lower. *)
Theorem more_workouts_never_lower_a_record
    (workouts more : list Workout) (workout_date : datetime)
    (key : str) (r : HistoryRecord) :
  history_before strptime today workouts workout_date !! key = Some r →
  ∃ r', history_before strptime today (workouts ++ more) workout_date !! key
        = Some r'
        ∧ best_weight r <= best_weight r'
        ∧ best_reps r <= best_reps r'.
Proof.
  rewrite !history_before_fold. unfold earlier_exercises.
  rewrite filter_app, map_app, concat_app, fold_left_app.
  apply record_exercises_grow.
Qed.
End Clock.

Lemma parsed_date_is_first_plausible_sample :
  let d := mkDatetime 2024 738914 0 in
  parse_workout_date sample_strptime sample_today (lit "01/29/24") = Some d
  ∧ dt_year d <= dt_year sample_today + 1
  ∧ days_between d sample_today <= 1.
Proof.
  intros d.
  assert (parse_workout_date sample_strptime sample_today (lit "01/29/24") = Some d)
    as H by (vm_compute; reflexivity).
  split; [exact H|].
  destruct (parsed_date_is_first_plausible sample_strptime sample_today _ _ H)
    as (_ & H1 & H2 & _).
  split; [exact H1 | exact H2].
Defined.

Lemma sample_window_oldest :
  let workout := mkEntry (lit "01/08/24") (lit "bench press - 95 * 5") in
  ∀ w d d', w ∈ sample_window →
    parse_workout_date sample_strptime sample_today (date workout) = Some d →
    parse_workout_date sample_strptime sample_today (date w) = Some d' →
    total_usec d <= total_usec d'.
Proof.
  intros workout w d d' Hin Hd Hd'. vm_compute in Hd. injection Hd as <-.
  unfold sample_window in Hin.
  repeat (apply elem_of_cons in Hin as [-> | Hin];
          [vm_compute in Hd'; injection Hd' as <-; by vm_compute|]).
  by apply elem_of_nil in Hin.
Defined.

Lemma no_earlier_workout_no_flags_sample :
  let workout := mkEntry (lit "01/08/24") (lit "bench press - 95 * 5") in
  (∀ w d d', w ∈ sample_window →
     parse_workout_date sample_strptime sample_today (date workout) = Some d →
     parse_workout_date sample_strptime sample_today (date w) = Some d' →
     total_usec d <= total_usec d')
  ∧ reconstructed_history sample_strptime sample_today sample_window workout = ∅
  ∧ detect_pr sample_strptime sample_today sample_window workout = (false, false).
Proof.
  intros workout. split; [exact sample_window_oldest|].
  exact (no_earlier_workout_no_flags sample_strptime sample_today
           sample_window workout sample_window_oldest).
Defined.

Lemma workout_flags_sample :
  let workout := mkEntry (lit "01/29/24") (lit "bench press - 100 * 5") in
  let d := mkDatetime 2024 738914 0 in
  let h := history_before sample_strptime sample_today sample_window d in
  parse_workout_date sample_strptime sample_today (date workout) = Some d
  ∧ (fst (detect_pr sample_strptime sample_today sample_window workout) = true
     ↔ ∃ e, e ∈ exercises (parse_workout_text (text workout))
            ∧ fst (exercise_flags h e) = true).
Proof.
  intros workout d h.
  assert (parse_workout_date sample_strptime sample_today (date workout) = Some d)
    as H by (vm_compute; reflexivity).
  split; [exact H|].
  exact (proj1 (workout_flags_are_any_exercise_flag sample_strptime sample_today
                  sample_window workout d H)).
Defined.

Lemma more_workouts_sample :
  let d := mkDatetime 2024 738914 0 in
  let first := [mkEntry (lit "01/08/24") (lit "bench press - 95 * 5")] in
  let more := [mkEntry (lit "01/22/24") (lit "bench press - 90 * 8")] in
  history_before sample_strptime sample_today first d !! lit "bench press"
  = Some (mkHist 95 5 5)
  ∧ ∃ r', history_before sample_strptime sample_today (first ++ more) d
          !! lit "bench press" = Some r'
          ∧ 95 <= best_weight r' ∧ 5 <= best_reps r'.
Proof.
  intros d first more.
  assert (history_before sample_strptime sample_today first d !! lit "bench press"
          = Some (mkHist 95 5 5)) as H by (vm_compute; reflexivity).
  split; [exact H|].
  exact (more_workouts_never_lower_a_record sample_strptime sample_today
           first more d _ _ H).
Defined.

End HistoryInvariants.

(** ** The steps of the overload engine *)

Module OverloadBounds.
Import PyStr Parser Overload Notions OverloadFacts.

Local Open Scope Z_scope.
















(** The exception: four fifths of a step round up, and a last weight of
    4 comes back as 5. *)
Example long_break_at_4 : suggestion_weighted 4 8 45 = (5, 7).
Proof. by vm_compute. Qed.

End OverloadBounds.

(** ** Runs of the incremental update *)

Module IndexRuns.
Import PyStr Parser Mapping Index Runs Notions Samples IndexFacts.

Lemma elem_of_remove_first_ne x q l : q ≠ x → q ∈ remove_first x l ↔ q ∈ l.
Proof.
  intros Hne. induction l as [|y l IH]; [done|]. simpl.
  destruct (Z.eqb_spec x y) as [->|Hxy].
  - rewrite elem_of_cons. split; [by right|]. by intros [->|].
  - rewrite !elem_of_cons, IH. done.
Qed.

Lemma elem_of_without x q l :
  NoDup l → q ∈ without x l ↔ q ≠ x ∧ q ∈ l.
Proof.
  intros Hnd. destruct (without_nodup x l Hnd) as [_ Hx]. unfold without in *.
  destruct (pos_mem x l) eqn:Hm.
  - destruct (decide (q = x)) as [->|Hne]; [by split; [|intros []]|].
    rewrite elem_of_remove_first_ne by done. split; [done|by intros []].
  - apply pos_mem_false in Hm. split; [|by intros []].
    intros Hq. split; [|done]. by intros ->.
Qed.

Lemma elem_of_with_new x q l : q ∈ with_new x l ↔ q = x ∨ q ∈ l.
Proof.
  unfold with_new. destruct (pos_mem x l) eqn:Hm.
  - apply pos_mem_spec in Hm. split; [by right|]. by intros [->|].
  - rewrite elem_of_app, list_elem_of_singleton. tauto.
Qed.

Lemma elem_of_readd x q b o :
  (∀ l, o = Some l → NoDup l) →
  q ∈ default [] (readd x b o)
  ↔ (q = x ∧ b = true) ∨ (q ≠ x ∧ q ∈ default [] o).
Proof.
  intros Hnd. unfold readd. destruct o as [l|]; simpl.
  - specialize (Hnd l eq_refl). destruct b; simpl.
    + rewrite elem_of_with_new, elem_of_without by done.
      destruct (decide (q = x)); split; intros; intuition.
    + rewrite elem_of_without by done. split; [by right|]. by intros [[]|].
  - destruct b; simpl.
    + rewrite elem_of_with_new. rewrite elem_of_nil.
      destruct (decide (q = x)); split; intros; intuition.
    + rewrite elem_of_nil. split; [done|]. by intros [[]|[]].
Qed.

Section Update.
Variable mappings : list (str * MappingData).
Variable current_hash now_iso : str.

(** X12. After [add] or [update] on an index with metadata, a
    rule-based list holds the position of the workout exactly when the
    facts of the workout qualify it for the category, and holds every
    other position exactly when it held it before: no other position is
    added, dropped or renumbered. *)
Theorem add_puts_position_where_it_qualifies
    (index : SearchIndex) (x : Z) (data : WorkoutData) (operation : str) :
  metadata index ≠ None →
  rule_lists_nodup (categories index) →
  operation = lit "add" ∨ operation = lit "update" →
  let index' := update_index_for_workout mappings current_hash now_iso
                  index x data operation in
  ∀ c q, c ∈ rule_based_categories →
    q ∈ default [] (categories index' !! c)
    ↔ (q = x ∧ qualifies mappings data c = true)
      ∨ (q ≠ x ∧ q ∈ default [] (categories index !! c)).
Proof.
  intros Hmeta Hnd Hop index' c q Hc. subst index'.
  unfold update_index_for_workout.
  destruct (metadata index); [|done]. cbn [categories].
  assert (str_eqb operation (lit "add") || str_eqb operation (lit "update") = true) as ->.
  { destruct Hop as [-> | ->]; by vm_compute. }
  rewrite add_or_update_lookup, decide_True by done.
  apply elem_of_readd. intros l. by apply Hnd.
Qed.

(** X13. After [remove] on an index with metadata, a rule-based list
    holds the positions it held before, less the position of the
    workout; the positions behind it are not renumbered. *)
Theorem remove_takes_position_out
    (index : SearchIndex) (x : Z) (data : WorkoutData) :
  metadata index ≠ None →
  rule_lists_nodup (categories index) →
  let index' := update_index_for_workout mappings current_hash now_iso
                  index x data (lit "remove") in
  ∀ c q, c ∈ rule_based_categories →
    q ∈ default [] (categories index' !! c)
    ↔ q ≠ x ∧ q ∈ default [] (categories index !! c).
Proof.
  intros Hmeta Hnd index' c q Hc. subst index'.
  unfold update_index_for_workout.
  destruct (metadata index); [|done]. cbn [categories].
  change (str_eqb (lit "remove") (lit "add") || str_eqb (lit "remove") (lit "update"))
    with false.
  change (str_eqb (lit "remove") (lit "remove")) with true. cbn match.
  rewrite remove_all_lookup, decide_True by done.
  destruct (categories index !! c) as [l|] eqn:Hl; simpl.
  - apply elem_of_without. by apply (Hnd c).
  - rewrite elem_of_nil. split; [done|by intros []].
Qed.

(** X14. Whatever calls of the update follow one another, with whatever
    positions, facts and operations, an index whose rule-based lists hold
    no position twice keeps that property. *)
Theorem any_run_of_updates_keeps_lists_duplicate_free
    (index : SearchIndex) (ops : list (Z * WorkoutData * str)) :
  rule_lists_nodup (categories index) →
  rule_lists_nodup (categories (apply_updates mappings current_hash now_iso index ops)).
Proof.
  unfold apply_updates. revert index.
  induction ops as [|op ops IH]; intros index Hnd; [done|].
  cbn [fold_left]. apply IH. by apply update_keeps_lists_duplicate_free.
Qed.

(** X15. Adding a workout at a position that no rule-based list holds
    and removing it again gives back every rule-based list, in its order;
    a list that the addition created stays, empty. *)
Theorem add_then_remove_restores
    (index : SearchIndex) (x : Z) (data : WorkoutData) :
  (∀ c, c ∈ rule_based_categories → x ∉ default [] (categories index !! c)) →
  let added := update_index_for_workout mappings current_hash now_iso
                 index x data (lit "add") in
  let removed := update_index_for_workout mappings current_hash now_iso
                   added x data (lit "remove") in
  ∀ c, c ∈ rule_based_categories →
    default [] (categories removed !! c) = default [] (categories index !! c).
Proof.
  intros Hx added removed c Hc. subst removed added.
  destruct index as [cats [meta|]]; [|done].
  unfold update_index_for_workout. cbn [metadata categories] in *.
  change (str_eqb (lit "add") (lit "add") || str_eqb (lit "add") (lit "update"))
    with true.
  change (str_eqb (lit "remove") (lit "add") || str_eqb (lit "remove") (lit "update"))
    with false.
  change (str_eqb (lit "remove") (lit "remove")) with true. cbn match.
  rewrite remove_all_lookup, add_or_update_lookup, !decide_True by done.
  specialize (Hx c Hc). unfold readd.
  destruct (cats !! c) as [l|]; cbn [fmap option_fmap option_map default] in *.
  - assert (without x l = l) as Hl
      by (unfold without; by rewrite (proj2 (pos_mem_false x l) Hx)).
    rewrite Hl. destruct (qualifies mappings data c); cbn; [|done].
    by rewrite without_with_new.
  - destruct (qualifies mappings data c); [|done].
    cbn [fmap option_fmap option_map default].
    by rewrite without_with_new by apply not_elem_of_nil.
Qed.
End Update.

Lemma sample_index_has_metadata : metadata sample_index ≠ None.
Proof. discriminate. Defined.

Lemma add_puts_position_sample :
  let index' := update_index_for_workout sample_mappings (lit "h1")
                  (lit "2024-02-02T08:00:00") sample_index 0 sample_data
                  (lit "add") in
  metadata sample_index ≠ None
  ∧ rule_lists_nodup (categories sample_index)
  ∧ ∀ c q, c ∈ rule_based_categories →
      q ∈ default [] (categories index' !! c)
      ↔ (q = 0 ∧ qualifies sample_mappings sample_data c = true)
        ∨ (q ≠ 0 ∧ q ∈ default [] (categories sample_index !! c)).
Proof.
  intros index'. split; [exact sample_index_has_metadata|].
  split; [exact sample_index_duplicate_free|].
  exact (add_puts_position_where_it_qualifies sample_mappings (lit "h1")
           (lit "2024-02-02T08:00:00") sample_index 0 sample_data (lit "add")
           sample_index_has_metadata sample_index_duplicate_free
           (or_introl eq_refl)).
Defined.

Lemma remove_takes_position_out_sample :
  let index' := update_index_for_workout sample_mappings (lit "h1")
                  (lit "2024-02-02T08:00:00") sample_index 0 sample_data
                  (lit "remove") in
  metadata sample_index ≠ None
  ∧ rule_lists_nodup (categories sample_index)
  ∧ ∀ c q, c ∈ rule_based_categories →
      q ∈ default [] (categories index' !! c)
      ↔ q ≠ 0 ∧ q ∈ default [] (categories sample_index !! c).
Proof.
  intros index'. split; [exact sample_index_has_metadata|].
  split; [exact sample_index_duplicate_free|].
  exact (remove_takes_position_out sample_mappings (lit "h1")
           (lit "2024-02-02T08:00:00") sample_index 0 sample_data
           sample_index_has_metadata sample_index_duplicate_free).
Defined.

Lemma any_run_of_updates_sample :
  let ops := [(0, sample_data, lit "add"); (1, sample_data, lit "update");
              (0, sample_data, lit "remove")] in
  rule_lists_nodup (categories sample_index)
  ∧ rule_lists_nodup
      (categories (apply_updates sample_mappings (lit "h1")
                     (lit "2024-02-02T08:00:00") sample_index ops)).
Proof.
  intros ops. split; [exact sample_index_duplicate_free|].
  exact (any_run_of_updates_keeps_lists_duplicate_free sample_mappings (lit "h1")
           (lit "2024-02-02T08:00:00") sample_index ops
           sample_index_duplicate_free).
Defined.

Lemma sample_index_without_3 :
  ∀ c, c ∈ rule_based_categories → 3 ∉ default [] (categories sample_index !! c).
Proof.
  intros c Hc. apply rule_based_cases in Hc as [-> | [-> | ->]];
    apply pos_mem_false; by vm_compute.
Defined.

Lemma add_then_remove_sample :
  let added := update_index_for_workout sample_mappings (lit "h1")
                 (lit "2024-02-02T08:00:00") sample_index 3 sample_data
                 (lit "add") in
  let removed := update_index_for_workout sample_mappings (lit "h1")
                   (lit "2024-02-02T08:00:00") added 3 sample_data
                   (lit "remove") in
  (∀ c, c ∈ rule_based_categories → 3 ∉ default [] (categories sample_index !! c))
  ∧ ∀ c, c ∈ rule_based_categories →
      default [] (categories removed !! c)
      = default [] (categories sample_index !! c).
Proof.
  intros added removed. split; [exact sample_index_without_3|].
  exact (add_then_remove_restores sample_mappings (lit "h1")
           (lit "2024-02-02T08:00:00") sample_index 3 sample_data
           sample_index_without_3).
Defined.

End IndexRuns.

(** ** The lists of a full build *)

Module BuildFacts.
Import PyStr Parser Dates History Mapping Index Build Notions Samples IndexFacts.

Lemma enumerate_from_bounds {A} start (l : list A) i x :
  (i, x) ∈ enumerate_from start l →
  start <= i < start + Z.of_nat (length l) ∧ l !! Z.to_nat (i - start) = Some x.
Proof.
  revert start. induction l as [|y l IH]; intros start; [by intros []%elem_of_nil|].
  cbn [enumerate_from length]. intros [[= -> ->]|Hin]%elem_of_cons.
  - split; [lia|]. by rewrite Z.sub_diag.
  - apply IH in Hin as [Hb Hl]. split; [lia|].
    replace (Z.to_nat (i - start)) with (S (Z.to_nat (i - (start + 1)))) by lia. done.
Qed.

Lemma enumerate_from_sorted {A} (p : Z * A → bool) start (l : list A) :
  StronglySorted Z.lt
    (map fst (filter (fun iw => p iw = true) (enumerate_from start l))).
Proof.
  revert start. induction l as [|y l IH]; intros start; [constructor|].
  cbn [enumerate_from]. rewrite filter_cons. case_decide; [|apply IH].
  cbn [map]. constructor; [apply IH|].
  apply Forall_forall. intros i. change (map ?f ?x) with (f <$> x).
  intros ([i' x] & -> & [_ Hin]%list_elem_of_filter)%list_elem_of_fmap.
  apply enumerate_from_bounds in Hin. simpl. lia.
Qed.

Lemma elem_of_firstn {A} n (l : list A) x : x ∈ firstn n l → x ∈ l.
Proof.
  revert n. induction l as [|y l IH]; intros [|n]; cbn [firstn]; try by intros []%elem_of_nil.
  intros [->|H]%elem_of_cons; [by left|right; by apply (IH n)].
Qed.

Lemma StronglySorted_firstn n (l : list Z) :
  StronglySorted Z.lt l → StronglySorted Z.lt (firstn n l).
Proof.
  intros H. revert n. induction H as [|x l Hl IH Hx]; intros [|n]; try constructor.
  - apply IH.
  - by apply Forall_take.
Qed.

Lemma StronglySorted_lt_NoDup (l : list Z) : StronglySorted Z.lt l → NoDup l.
Proof.
  induction 1 as [|x l Hl IH Hx]; constructor; [|done].
  intros Hin. rewrite Forall_forall in Hx. specialize (Hx x Hin). lia.
Qed.

Lemma indices_where_spec p workouts :
  StronglySorted Z.lt (indices_where p workouts)
  ∧ (length (indices_where p workouts) <= 20)%nat
  ∧ ∀ i, i ∈ indices_where p workouts →
      ∃ w, 0 <= i ∧ workouts !! Z.to_nat i = Some w ∧ p w = true.
Proof.
  unfold indices_where. split; [|split].
  - apply StronglySorted_firstn, (enumerate_from_sorted (fun iw => p (snd iw))).
  - rewrite length_firstn. lia.
  - intros i Hi. apply elem_of_firstn in Hi.
    change (map ?f ?x) with (f <$> x) in Hi.
    apply list_elem_of_fmap in Hi as ([i' w] & -> & [Hp Hin]%list_elem_of_filter).
    apply enumerate_from_bounds in Hin as [Hb Hl]. simpl in *.
    exists w. rewrite Z.sub_0_r in Hl. split; [lia|done].
Qed.

Section WithEnvironment.
Variable strptime : str -> str -> option datetime.
Variable today : datetime.
Variable mappings : list (str * MappingData).

Lemma build_rule_based_lookup workouts c l :
  build_rule_based strptime today mappings workouts !! c = Some l →
  ∃ p, l = indices_where p workouts
       ∧ (c = chest_category → p = is_chest mappings)
       ∧ (c = full_body_category → p = is_full_body mappings)
       ∧ (c = pr_category → p = fun w => fst (detect_pr strptime today workouts w)).
Proof.
  destruct categories_distinct as (H1 & H2 & H3).
  unfold build_rule_based. destruct workouts as [|w0 ws]; [by rewrite lookup_empty|].
  rewrite !lookup_insert. repeat case_decide; subst; try (by rewrite lookup_empty);
    intros [= <-]; eexists; (split; [reflexivity|]); repeat split; congruence.
Qed.

(** X16. Every rule-based list that a build writes is a strictly
    increasing list of at most 20 positions of the log; in particular it
    holds no position twice, which is what the incremental update relies
    on. *)
Theorem built_lists_are_increasing_positions (workouts : list Workout) :
  let cats := build_rule_based strptime today mappings workouts in
  rule_lists_nodup cats
  ∧ ∀ c l, cats !! c = Some l →
      StronglySorted Z.lt l
      ∧ (length l <= 20)%nat
      ∧ ∀ i, i ∈ l → 0 <= i < Z.of_nat (length workouts).
Proof.
  intros cats.
  assert (∀ c l, cats !! c = Some l →
            StronglySorted Z.lt l ∧ (length l <= 20)%nat
            ∧ ∀ i, i ∈ l → 0 <= i < Z.of_nat (length workouts)) as H.
  { intros c l (p & -> & _)%build_rule_based_lookup.
    destruct (indices_where_spec p workouts) as (Hs & Hl & Hi).
    split; [done|]. split; [done|]. intros i (w & Hi0 & Hw & _)%Hi.
    apply lookup_lt_Some in Hw. lia. }
  split; [|done]. intros c l _ Hl. apply StronglySorted_lt_NoDup.
  by destruct (H c l Hl).
Qed.

Lemma scan_exercises_spec exs :
  scan_exercises mappings exs
  = (fold_left (fun found ex =>
                  fold_left set_add
                    (snd (normalize_exercise_name mappings (exercise ex))) found)
               exs [],
     existsb (fun ex => list_mem (lit "chest")
                      (snd (normalize_exercise_name mappings (exercise ex)))) exs).
Proof.
  unfold scan_exercises.
  assert (∀ g b,
    fold_left
      (fun st ex =>
         (fold_left set_add (snd (normalize_exercise_name mappings (exercise ex))) (fst st),
          if list_mem (lit "chest") (snd (normalize_exercise_name mappings (exercise ex)))
          then true else snd st)) exs (g, b)
    = (fold_left (fun found ex =>
                  fold_left set_add
                    (snd (normalize_exercise_name mappings (exercise ex))) found) exs g,
       b || existsb (fun ex => list_mem (lit "chest")
                      (snd (normalize_exercise_name mappings (exercise ex)))) exs)) as H.
  { induction exs as [|e exs IH]; intros g b; cbn [fold_left existsb fst snd].
    - by rewrite orb_false_r.
    - rewrite IH. f_equal. destruct (list_mem _ _); [by rewrite orb_true_r|done]. }
  apply H.
Qed.

(** X17. The build and the incremental update decide alike on the chest
    and on the full body: a position that a build puts in one of the two
    lists is the position of a workout whose text qualifies for the
    category in [update_index_for_workout]. *)
Theorem build_and_update_agree (workouts : list Workout) (i : Z) (pr : bool) :
  let cats := build_rule_based strptime today mappings workouts in
  (∀ l, cats !! chest_category = Some l → i ∈ l →
     ∃ w, workouts !! Z.to_nat i = Some w
          ∧ qualifies mappings (mkData pr (text w)) chest_category = true)
  ∧ (∀ l, cats !! full_body_category = Some l → i ∈ l →
     ∃ w, workouts !! Z.to_nat i = Some w
          ∧ qualifies mappings (mkData pr (text w)) full_body_category = true).
Proof.
  destruct categories_distinct as (H1 & H2 & H3).
  intros cats. split.
  - intros l (p & -> & Hp & _)%build_rule_based_lookup Hi.
    rewrite (Hp eq_refl) in Hi.
    apply indices_where_spec in Hi as (w & _ & Hw & Hq).
    exists w. split; [done|]. unfold qualifies. cbn [data_text has_pr].
    rewrite decide_False by done. rewrite decide_True by done.
    rewrite scan_exercises_spec. cbn [snd]. unfold is_chest in Hq. rewrite Hq.
    rewrite andb_true_r. apply bool_decide_eq_true. intros Hnil. by rewrite Hnil in Hq.
  - intros l (p & -> & _ & Hp & _)%build_rule_based_lookup Hi.
    rewrite (Hp eq_refl) in Hi.
    apply indices_where_spec in Hi as (w & _ & Hw & Hq).
    exists w. split; [done|]. unfold qualifies. cbn [data_text has_pr].
    rewrite decide_False by done. rewrite decide_False by done.
    rewrite decide_True by done.
    rewrite scan_exercises_spec. cbn [fst]. unfold is_full_body in Hq.
    destruct (exercises _) as [|e exs]; [done|]. rewrite Hq.
    rewrite andb_true_r. by apply bool_decide_eq_true.
Qed.
End WithEnvironment.

End BuildFacts.

(** ** The window and the lists of the recovery check *)

Module RecoveryWindow.
Import PyStr Parser Dates History Mapping Recovery Notions Samples.
Import RecoveryFacts HistoryInvariants.

Lemma plausible_days_ago today d :
  implausible today d = false → -2 <= days_between today d.
Proof.
  unfold implausible, days_between. intros [_ H]%orb_false_iff.
  assert ((total_usec d - total_usec today) / usec_per_day <= 1) as H1 by lia.
  clear H. unfold usec_per_day in *.
  set (a := total_usec d) in *. set (b := total_usec today) in *.
  assert (a - b < 2 * 86400000000) as Hlt.
  { destruct (Z.lt_ge_cases (a - b) (2 * 86400000000)) as [|Hge]; [done|].
    apply (Z.div_le_mono _ _ 86400000000) in Hge; [|lia].
    rewrite Z.div_mul in Hge by lia. lia. }
  apply Z.div_le_lower_bound; lia.
Qed.

Section Window.
Variable strptime : str -> str -> option datetime.
Variable today : datetime.
Variable mappings : list (str * MappingData).

(** X18. A day count in the table of last training days lies between -2
    and 14: it is the count of a workout among the 20 most recent whose
    date parses, which the guard on the dates keeps less than two days
    ahead of the clock, and whose groups include the group. *)
Theorem last_trained_within_window (workouts : list Workout) (g : str) (d : Z) :
  last_trained strptime today mappings workouts !! g = Some d →
  -2 <= d <= 14
  ∧ ∃ w workout_date,
      w ∈ firstn 20 workouts
      ∧ parse_workout_date strptime today (date w) = Some workout_date
      ∧ d = days_between today workout_date
      ∧ g ∈ workout_groups mappings (text w).
Proof.
  intros Hg. pose proof (last_trained_smallest strptime today mappings workouts g) as H.
  rewrite Hg in H. destruct H as ((gs & Hin & Hgs) & _).
  unfold window_entries in Hin. apply list_elem_of_omap in Hin as (w & Hw & He).
  unfold window_entry in He.
  destruct (parse_workout_date strptime today (date w)) as [wd|] eqn:Hwd; [|done].
  destruct (Z.gtb_spec (days_between today wd) 14) as [|Hle]; [done|].
  injection He as <- <-. split; [|by exists w, wd].
  split; [|done]. apply plausible_days_ago.
  unfold parse_workout_date in Hwd. destruct (str_eqb _ _); [done|].
  by apply try_formats_some in Hwd as (_ & _ & _ & _ & _ & Himp & _).
Qed.

(** X19. The four lists are disjoint: a group reported in one of them is
    reported in no other, whatever days stand beside it. *)
Theorem buckets_do_not_overlap (workouts : list Workout) (g : str) (o o' : option Z) :
  let b := recovery_check strptime today mappings workouts in
  ((g, o) ∈ too_soon b →
     ((g, o') ∉ optimal b) ∧ ((g, o') ∉ ready b) ∧ ((g, o') ∉ neglected b))
  ∧ ((g, o) ∈ optimal b → ((g, o') ∉ ready b) ∧ ((g, o') ∉ neglected b))
  ∧ ((g, o) ∈ ready b → (g, o') ∉ neglected b).
Proof.
  intros b. subst b. unfold recovery_check.
  set (m := last_trained strptime today mappings workouts).
  destruct (recovery_buckets_spec m) as (Hts & Hop & Hre & Hne).
  unfold is_neglected in Hne.
  split; [|split].
  - intros (_ & d & _ & Hd & Hr)%Hts. repeat split.
    + intros (_ & d' & _ & Hd' & Hr')%Hop. rewrite Hd in Hd'. injection Hd' as <-. lia.
    + intros (_ & d' & _ & Hd' & Hr')%Hre. rewrite Hd in Hd'. injection Hd' as <-. lia.
    + intros (_ & _ & Hn & _)%Hne. rewrite Hd in Hn. lia.
  - intros (_ & d & _ & Hd & Hr)%Hop. repeat split.
    + intros (_ & d' & _ & Hd' & Hr')%Hre. rewrite Hd in Hd'. injection Hd' as <-. lia.
    + intros (_ & _ & Hn & _)%Hne. rewrite Hd in Hn. lia.
  - intros (_ & d & _ & Hd & Hr)%Hre.
    intros (_ & _ & Hn & _)%Hne. rewrite Hd in Hn. lia.
Qed.

(** X20. Every group of the canonical list other than [arms] is
    reported, with its entry of the table, in one of the four lists. *)
Theorem every_group_lands_in_a_bucket (workouts : list Workout) (g : str) :
  g ∈ all_groups → g ≠ lit "arms" →
  let b := recovery_check strptime today mappings workouts in
  let o := last_trained strptime today mappings workouts !! g in
  (g, o) ∈ too_soon b ∨ (g, o) ∈ optimal b ∨ (g, o) ∈ ready b
  ∨ (g, o) ∈ neglected b.
Proof.
  intros Hg Harms b o. subst b o. unfold recovery_check.
  set (m := last_trained strptime today mappings workouts).
  destruct (recovery_buckets_spec m) as (Hts & Hop & Hre & Hne).
  generalize dependent (recovery_buckets m). intros b Hts Hop Hre Hne.
  destruct (m !! g) as [d|] eqn:Hd.
  - destruct (Z.le_gt_cases d 1) as [H1|H1].
    { left. apply Hts. split; [exact Hg|]. exists d. by split. }
    destruct (Z.le_gt_cases d 3) as [H3|H3].
    { right; left. apply Hop. split; [exact Hg|]. exists d. split; [done|]. split; [done|lia]. }
    destruct (Z.le_gt_cases d 6) as [H6|H6].
    { right; right; left. apply Hre. split; [exact Hg|]. exists d.
      split; [done|]. split; [done|lia]. }
    right; right; right. apply Hne. split; [exact Hg|]. split; [by rewrite Hd|].
    split; [unfold is_neglected; rewrite Hd; lia|]. by intros [? _].
  - right; right; right. apply Hne. split; [exact Hg|]. split; [by rewrite Hd|].
    split; [unfold is_neglected; by rewrite Hd|]. by intros [? _].
Qed.
End Window.

Lemma chest_is_canonical : lit "chest" ∈ all_groups ∧ lit "chest" ≠ lit "arms".
Proof. split; [apply (bool_decide_unpack _); by vm_compute | discriminate]. Defined.

Lemma every_group_lands_in_a_bucket_sample :
  let b := recovery_check sample_strptime sample_today sample_mappings sample_window in
  let o := last_trained sample_strptime sample_today sample_mappings sample_window
             !! lit "chest" in
  lit "chest" ∈ all_groups ∧ lit "chest" ≠ lit "arms"
  ∧ ((lit "chest", o) ∈ too_soon b ∨ (lit "chest", o) ∈ optimal b
     ∨ (lit "chest", o) ∈ ready b ∨ (lit "chest", o) ∈ neglected b).
Proof.
  intros b o. split; [exact (proj1 chest_is_canonical)|].
  split; [exact (proj2 chest_is_canonical)|].
  exact (every_group_lands_in_a_bucket sample_strptime sample_today sample_mappings
           sample_window (lit "chest")
           (proj1 chest_is_canonical) (proj2 chest_is_canonical)).
Defined.

Lemma last_trained_within_window_sample :
  last_trained sample_strptime sample_today sample_mappings sample_window
    !! lit "chest" = Some 3
  ∧ -2 <= 3 <= 14
  ∧ ∃ w workout_date,
      w ∈ firstn 20 sample_window
      ∧ parse_workout_date sample_strptime sample_today (date w) = Some workout_date
      ∧ 3 = days_between sample_today workout_date
      ∧ lit "chest" ∈ workout_groups sample_mappings (text w).
Proof.
  assert (last_trained sample_strptime sample_today sample_mappings sample_window
            !! lit "chest" = Some 3) as H by (vm_compute; reflexivity).
  split; [exact H|].
  exact (last_trained_within_window sample_strptime sample_today sample_mappings
           sample_window (lit "chest") 3 H).
Defined.

End RecoveryWindow.

(** ** Exercise names and muscle groups *)

Module MappingFacts.
Import PyStr Parser Dates History Mapping Recovery Notions Samples RecoveryFacts.

Lemma elem_of_set_add found x y : y ∈ set_add found x ↔ y ∈ found ∨ y = x.
Proof.
  unfold set_add. destruct (list_mem x found) eqn:Hm.
  - apply list_mem_spec in Hm. split; [by left|]. by intros [?| ->].
  - rewrite elem_of_app, list_elem_of_singleton. done.
Qed.

Lemma set_add_nodup found x : NoDup found → NoDup (set_add found x).
Proof.
  intros Hnd. unfold set_add. destruct (list_mem x found) eqn:Hm; [done|].
  apply NoDup_app. split; [done|]. split; [|apply NoDup_singleton].
  intros y Hy ->%list_elem_of_singleton.
  apply list_mem_spec in Hy. congruence.
Qed.

Lemma set_add_all_spec gs found :
  (NoDup found → NoDup (fold_left set_add gs found))
  ∧ ∀ y, y ∈ fold_left set_add gs found ↔ y ∈ found ∨ y ∈ gs.
Proof.
  revert found. induction gs as [|g gs IH]; intros found; cbn [fold_left].
  - split; [done|]. intros y. rewrite elem_of_nil. tauto.
  - destruct (IH (set_add found g)) as [IH1 IH2]. split.
    + intros Hnd. by apply IH1, set_add_nodup.
    + intros y. rewrite IH2, elem_of_set_add, elem_of_cons. tauto.
Qed.

Section WithMapping.
Variable mappings : list (str * MappingData).

(** X21. [extract_muscle_groups_from_exercises], without a knowledge
    base, returns every mapped group of every exercise, each once, and
    nothing else. *)
Theorem muscle_groups_are_the_distinct_mapped_groups (exercises : list ParsedExercise) :
  NoDup (extract_muscle_groups_from_exercises mappings exercises)
  ∧ ∀ group,
      group ∈ extract_muscle_groups_from_exercises mappings exercises
      ↔ ∃ ex, ex ∈ exercises
              ∧ group ∈ snd (normalize_exercise_name mappings (exercise ex)).
Proof.
  unfold extract_muscle_groups_from_exercises.
  assert (∀ found,
    (NoDup found →
     NoDup (fold_left
              (fun found ex =>
                 fold_left set_add
                   (snd (normalize_exercise_name mappings (exercise ex))) found)
              exercises found))
    ∧ ∀ group,
        group ∈ fold_left
                  (fun found ex =>
                     fold_left set_add
                       (snd (normalize_exercise_name mappings (exercise ex))) found)
                  exercises found
        ↔ group ∈ found
          ∨ ∃ ex, ex ∈ exercises
                  ∧ group ∈ snd (normalize_exercise_name mappings (exercise ex))) as H.
  { induction exercises as [|e exs IH]; intros found; cbn [fold_left].
    - split; [done|]. intros g. split; [by left|].
      intros [?|(ex & []%elem_of_nil & _)]. done.
    - destruct (IH (fold_left set_add
                      (snd (normalize_exercise_name mappings (exercise e))) found))
        as [IH1 IH2].
      destruct (set_add_all_spec
                  (snd (normalize_exercise_name mappings (exercise e))) found)
        as [S1 S2].
      split; [intros Hnd; by apply IH1, S1|].
      intros g. rewrite IH2, S2. split.
      + intros [[?|?]|(ex & Hex & Hg)]; [by left| |].
        * right. exists e. split; [by left|done].
        * right. exists ex. split; [by right|done].
      + intros [?|(ex & [->|Hex]%elem_of_cons & Hg)].
        * left. by left.
        * left. by right.
        * right. by exists ex. }
  destruct (H []) as [H1 H2]. split; [apply H1; constructor|].
  intros g. rewrite H2, elem_of_nil. tauto.
Qed.

(** X22. The groups of a name depend on the name only through its
    lowercase, stripped form; the normalized name is then the same too,
    unless the entry has none and the name itself is returned. *)
Theorem mapped_groups_ignore_case_and_outer_blanks (a b : str) :
  strip (lower a) = strip (lower b) →
  snd (normalize_exercise_name mappings a) = snd (normalize_exercise_name mappings b)
  ∧ (fst (normalize_exercise_name mappings a) = a
     ∨ fst (normalize_exercise_name mappings a)
       = fst (normalize_exercise_name mappings b)).
Proof.
  intros Heq. unfold normalize_exercise_name. rewrite Heq.
  destruct (lookup_mapping mappings (strip (lower b))) as [d|].
  - unfold mapped. cbn [fst snd]. split; [done|].
    destruct (normalized d); [by right|by left].
  - destruct (find _ mappings) as [kv|]; [|by split; [|left]].
    unfold mapped. cbn [fst snd]. split; [done|].
    destruct (normalized (snd kv)); [by right|by left].
Qed.
End WithMapping.

Lemma mapped_groups_sample :
  let a := lit " Bench Press" in
  let b := lit "bench press" in
  strip (lower a) = strip (lower b)
  ∧ snd (normalize_exercise_name sample_mappings a) = [lit "chest"; lit "triceps"]
  ∧ snd (normalize_exercise_name sample_mappings a)
    = snd (normalize_exercise_name sample_mappings b).
Proof.
  intros a b.
  assert (strip (lower a) = strip (lower b)) as H by (vm_compute; reflexivity).
  split; [exact H|]. split; [vm_compute; reflexivity|].
  exact (proj1 (mapped_groups_ignore_case_and_outer_blanks sample_mappings a b H)).
Defined.

End MappingFacts.

(** ** The last performance and the suggestions *)

Module LastDoneFacts.
Import PyStr Parser Dates History Overload LastDone Runs Notions Samples ParserFacts.

Lemma find_first_weight m (ss : list ExerciseSet) :
  m ∈ map weight ss →
  ∃ s, find (fun s => weight s =? m) ss = Some s ∧ s ∈ ss ∧ weight s = m.
Proof.
  induction ss as [|s ss IH]; [by intros []%elem_of_nil|].
  cbn [map find]. destruct (Z.eqb_spec (weight s) m) as [Heq|Hne].
  - intros _. exists s. split; [done|]. split; [by left|done].
  - intros [?|Hin]%elem_of_cons; [congruence|].
    destruct (IH Hin) as (s' & Hf & Hs' & Hw). exists s'. split; [done|]. split; [by right|done].
Qed.

(** X23. For a parsed exercise the search for the heaviest set always
    succeeds: the first set at [max_weight] exists and gives the reps, so
    the fallback that would report the weight as the reps is never
    taken. *)
Theorem heaviest_set_is_always_found (line : str) (e : ParsedExercise) :
  parse_exercise_line line = Some e →
  ∃ s, find (fun s => weight s =? max_weight e) (sets e) = Some s
       ∧ s ∈ sets e
       ∧ weight s = max_weight e
       ∧ reps_at_max_weight e = reps s.
Proof.
  intros ((s0 & rest & Hsets & _) & _ & _ & _ & Hmax & _)%parse_exercise_line_wf.
  destruct (py_max_bounds (map weight (sets e))) as [Hin _]; [by rewrite Hsets|].
  rewrite <- Hmax in Hin.
  destruct (find_first_weight _ _ Hin) as (s & Hf & Hs & Hw).
  exists s. unfold reps_at_max_weight. by rewrite Hf.
Qed.

Lemma heaviest_set_sample :
  let line := lit "smith bench press - 225 * 5, 5, 4, 195 * 4, 105 * 10" in
  let e := mkExercise (lit "smith bench press")
             [mkSet 225 5; mkSet 225 5; mkSet 225 4; mkSet 195 4; mkSet 105 10]
             225 5 5 225 10 false (Some line) in
  parse_exercise_line line = Some e
  ∧ ∃ s, find (fun s => weight s =? max_weight e) (sets e) = Some s
         ∧ s ∈ sets e
         ∧ weight s = max_weight e
         ∧ reps_at_max_weight e = reps s.
Proof.
  intros line e.
  assert (parse_exercise_line line = Some e) as H by (vm_compute; reflexivity).
  split; [exact H|]. exact (heaviest_set_is_always_found line e H).
Defined.

Section WithClock.
Variable strptime : str -> str -> option datetime.
Variable today : datetime.

Lemma note_exercise_lookup days acc ex k :
  note_exercise days acc ex !! k
  = if decide (ex_key ex = k ∧ 0 <= days <= 3650)
    then match acc !! k with
         | Some p => if days <? days_ago p then Some (performance days ex)
                     else Some p
         | None => Some (performance days ex)
         end
    else acc !! k.
Proof.
  unfold note_exercise.
  destruct (Z.ltb_spec days 0); [by rewrite decide_False by lia|].
  destruct (Z.gtb_spec days 3650); [by rewrite decide_False by lia|].
  cbn [orb]. cbv zeta. case_decide as Hk.
  - destruct Hk as [Hk _]. subst k. destruct (acc !! ex_key ex) as [p|] eqn:Hp.
    + destruct (days <? days_ago p); [by rewrite lookup_insert_eq|done].
    + by rewrite lookup_insert_eq.
  - assert (ex_key ex ≠ k) by (intros Heq; apply Hk; split; [done|lia]).
    destruct (acc !! ex_key ex) as [p|]; [destruct (days <? days_ago p)|];
      by rewrite ?lookup_insert_ne.
Qed.

Lemma exercise_last_done_performances workouts :
  exercise_last_done strptime today workouts
  = note_all (performances strptime today workouts) ∅.
Proof.
  unfold exercise_last_done, performances, note_all.
  generalize (∅ : gmap str LastPerf).
  induction (firstn 30 workouts) as [|w ws IH]; intros acc; [done|].
  cbn [fold_left map concat]. rewrite fold_left_app, <- IH. f_equal.
  destruct (parse_workout_date strptime today (date w)) as [d|]; [|done].
  generalize (exercises (parse_workout_text (text w))). intros exs. revert acc.
  induction exs as [|e exs IHe]; intros acc; [done|]. cbn [fold_left map]. by rewrite IHe.
Qed.

Lemma note_all_spec perfs acc k :
  match note_all perfs acc !! k with
  | Some p =>
      (acc !! k = Some p
       ∨ ∃ ex, (days_ago p, ex) ∈ perfs ∧ ex_key ex = k
               ∧ 0 <= days_ago p <= 3650
               ∧ p = performance (days_ago p) ex)
      ∧ (∀ p0, acc !! k = Some p0 → days_ago p <= days_ago p0)
      ∧ (∀ d ex, (d, ex) ∈ perfs → ex_key ex = k → 0 <= d <= 3650 →
                 days_ago p <= d)
  | None =>
      acc !! k = None
      ∧ ∀ d ex, (d, ex) ∈ perfs → ex_key ex = k → ¬ 0 <= d <= 3650
  end.
Proof.
  revert acc. induction perfs as [|[d1 e1] perfs IH]; intros acc.
  - cbn. destruct (acc !! k) as [p|] eqn:Hk.
    + split; [by left|]. split; [by intros ? [= <-]|]. by intros ?? []%elem_of_nil.
    + split; [done|]. by intros ?? []%elem_of_nil.
  - unfold note_all in *. cbn [fold_left fst snd].
    specialize (IH (note_exercise d1 acc e1)). rewrite note_exercise_lookup in IH.
    destruct (fold_left _ perfs _ !! k) as [p|].
    + destruct IH as (Hex & Hacc & Hall).
      destruct (decide (ex_key e1 = k ∧ 0 <= d1 <= 3650)) as [[Hk Hd1]|Hk].
      * destruct (acc !! k) as [p0|] eqn:Hp0.
        -- destruct (Z.ltb_spec d1 (days_ago p0)).
           ++ specialize (Hacc _ eq_refl). cbn in Hacc. split; [|split].
              ** destruct Hex as [[= <-]|(ex & Hin & ?)].
                 --- right. exists e1. cbn. split; [by left|done].
                 --- right. exists ex. split; [by right|done].
              ** intros ? [= <-]. lia.
              ** intros d ex [[= -> ->]|Hin]%elem_of_cons Hkey Hr; [done|by apply (Hall d ex)].
           ++ specialize (Hacc _ eq_refl). split; [|split].
              ** destruct Hex as [[= <-]|(ex & Hin & ?)]; [by left|].
                 right. exists ex. split; [by right|done].
              ** by intros ? [= <-].
              ** intros d ex [[= -> ->]|Hin]%elem_of_cons Hkey Hr; [lia|by apply (Hall d ex)].
        -- specialize (Hacc _ eq_refl). cbn in Hacc. split; [|split].
           ++ destruct Hex as [[= <-]|(ex & Hin & ?)].
              ** right. exists e1. cbn. split; [by left|done].
              ** right. exists ex. split; [by right|done].
           ++ done.
           ++ intros d ex [[= -> ->]|Hin]%elem_of_cons Hkey Hr; [done|by apply (Hall d ex)].
      * split; [|split].
        -- destruct Hex as [?|(ex & Hin & ?)]; [by left|].
           right. exists ex. split; [by right|done].
        -- done.
        -- intros d ex [[= -> ->]|Hin]%elem_of_cons Hkey Hr; [by destruct Hk|by apply (Hall d ex)].
    + destruct IH as (Hnone & Hall).
      destruct (decide (ex_key e1 = k ∧ 0 <= d1 <= 3650)) as [[Hk Hd1]|Hk].
      * destruct (acc !! k) as [p0|]; [destruct (d1 <? days_ago p0)|]; done.
      * split; [done|].
        intros d ex [[= -> ->]|Hin]%elem_of_cons Hkey Hr; [by destruct Hk|by apply (Hall d ex)].
Qed.

(** X24. What [exercise_last_done] holds for a key is the performance of
    an exercise of that key met in the 30 most recent workouts, done
    between 0 and 3650 days ago, and no other such performance is more
    recent. A key with no such performance has no entry. *)
Theorem last_done_is_most_recent (workouts : list Workout) (k : str) :
  match exercise_last_done strptime today workouts !! k with
  | Some p =>
      0 <= days_ago p <= 3650
      ∧ (∃ ex, (days_ago p, ex) ∈ performances strptime today workouts
               ∧ ex_key ex = k
               ∧ p = performance (days_ago p) ex)
      ∧ ∀ d ex, (d, ex) ∈ performances strptime today workouts →
                ex_key ex = k → 0 <= d <= 3650 → days_ago p <= d
  | None =>
      ∀ d ex, (d, ex) ∈ performances strptime today workouts →
              ex_key ex = k → ¬ 0 <= d <= 3650
  end.
Proof.
  rewrite exercise_last_done_performances.
  pose proof (note_all_spec (performances strptime today workouts) ∅ k) as H.
  destruct (note_all _ _ !! k) as [p|].
  - destruct H as ([H|(ex & H1 & H2 & H3 & H4)] & _ & Hmin); [by rewrite lookup_empty in H|].
    split; [done|]. split; [by exists ex|done].
  - by destruct H.
Qed.

Lemma last_done_days workouts k p :
  exercise_last_done strptime today workouts !! k = Some p →
  0 <= days_ago p <= 3650.
Proof.
  rewrite exercise_last_done_performances. intros Hp.
  pose proof (note_all_spec (performances strptime today workouts) ∅ k) as H.
  rewrite Hp in H.
  destruct H as ([H|(ex & _ & _ & H & _)] & _); [by rewrite lookup_empty in H|done].
Qed.

(** X25. The answer to an empty workout is the error; otherwise there is
    at most one suggestion for each exercise of the workout, and every
    suggestion is the one computed for an exercise of the workout from
    the entry of [exercise_last_done] under its key: no exercise without
    a dated performance in the history gets a suggestion. *)
Theorem suggestions_come_from_the_history
    (workouts : list Workout) (workout : str) :
  match suggestions strptime today workouts workout with
  | None => strip workout = []
  | Some l =>
      strip workout ≠ []
      ∧ (length l <= length (exercises (parse_workout_text (strip workout))))%nat
      ∧ ∀ name s, (name, s) ∈ l →
          ∃ ex p,
            ex ∈ exercises (parse_workout_text (strip workout))
            ∧ name = exercise ex
            ∧ exercise_last_done strptime today workouts !! ex_key ex = Some p
            ∧ 0 <= days_ago p <= 3650
            ∧ suggestion (Some p) ex = Some s
  end.
Proof.
  unfold suggestions. destruct (strip workout) as [|c s0] eqn:Hs; [done|].
  split; [done|]. split.
  - generalize (exercises (parse_workout_text (c :: s0))). intros exs.
    induction exs as [|e exs IH]; [done|]. cbn [omap list_omap length].
    destruct (_ <$> _); cbn [length]; lia.
  - intros name s (ex & Hex & Hsug)%list_elem_of_omap.
    destruct (exercise_last_done strptime today workouts !! ex_key ex) as [p|] eqn:Hp;
      [|done].
    destruct (suggestion (Some p) ex) as [s'|] eqn:Hs'; [|done].
    injection Hsug as <- <-. exists ex, p. repeat split; try done.
    + by destruct (last_done_days _ _ _ Hp).
    + by destruct (last_done_days _ _ _ Hp).
Qed.

End WithClock.

End LastDoneFacts.

(** ** The lines written by [progressive_overload] *)

Module ImprovedLineFacts.
Import PyStr Parser Overload Notions Samples ParserFacts.

(** A line made of the name of an exercise parsed in the weighted form,
    of a weight and of reps parses to that one set. *)
Lemma name_line_parses (line : str) (e : ParsedExercise) (W R : Z) :
  parse_exercise_line line = Some e →
  original_line e ≠ None →
  endswith (lit " -") (exercise e) = false →
  0 <= W → 0 <= R →
  let l := exercise e ++ lit " - " ++ str_of_int W ++ lit " * " ++ str_of_int R in
  parse_exercise_line l
  = Some (mkExercise (exercise e) [mkSet W R] W R 1 W R (W =? 0) (Some l)).
Proof.
  intros Hparse Hol Hends HW HR l. subst l.
  destruct (parse_exercise_line_weighted _ _ Hparse Hol) as (Hne & Hskip & Hrun & Hw).
  destruct (parse_weighted_inv _ _ Hw) as (p0 & p1 & Hsplit & HE).
  apply split1_spec in Hsplit as [Hline Hno]; [|done].
  pose proof (strip_head line) as Hhead.
  destruct p0 as [|c p0'].
  { rewrite Hline in Hhead. done. }
  rewrite Hline in Hhead. cbn [app] in Hhead.
  assert (strip (c :: p0') = rstrip (c :: p0')) as Hstrip
    by (unfold strip; by rewrite lstrip_id).
  destruct (rstrip_cons c p0' Hhead) as (E0 & HE0).
  destruct (rstrip_prefix (c :: p0')) as (ws & Hws & _).
  rewrite Hstrip in HE.
  destruct (str_of_int_digits _ HW) as (HneW & HdigW & HvalW).
  destruct (str_of_int_digits _ HR) as (HneR & HdigR & HvalR).
  apply (canonical_parse (exercise e) _ _ _ _ c E0); try done.
  - by rewrite HE.
  - rewrite HE, <- Hstrip. apply strip_fixed.
  - apply not_true_is_false. intros Habs. rewrite Hline, Hws in Hskip.
    rewrite <- HE, <- app_assoc in Hskip.
    apply (startswith_word (lit "SKIP") (exercise e)
             (lit "- " ++ str_of_int W ++ lit " * " ++ str_of_int R)
             (ws ++ lit " - " ++ p1)) in Habs; [|done].
    by rewrite Habs in Hskip.
  - apply not_true_is_false. intros Habs. rewrite Hline, Hws in Hrun.
    rewrite <- HE, <- app_assoc in Hrun.
    apply (startswith_word (lit "run") (exercise e)
             (lit "- " ++ str_of_int W ++ lit " * " ++ str_of_int R)
             (ws ++ lit " - " ++ p1)) in Habs; [|done].
    by rewrite Habs in Hrun.
  - rewrite Hws, <- HE in Hno. by apply (no_match_rstrip _ ws (lit " - " ++ p1)).
Qed.

(** X26. A line written by [progressive_overload] for an exercise that
    was parsed in the weighted form, and whose name does not end in " -",
    parses again: to the same name with one set, of the positive weight
    and the positive reps that were computed from the last performance
    or, without one, taken from the exercise. *)
Theorem improved_line_parses_back
    (line : str) (ex : ParsedExercise) (last_perf : option LastPerf) (l : str) :
  parse_exercise_line line = Some ex →
  original_line ex ≠ None →
  endswith (lit " -") (exercise ex) = false →
  improved_line last_perf ex = Some l →
  ∃ new_weight new_reps,
    0 < new_weight ∧ 0 < new_reps
    ∧ (new_weight, new_reps)
      = match last_perf with
        | Some p =>
            if perf_weight p >? 0
            then progressive_overload (perf_weight p) (perf_reps p) (days_ago p)
            else (max_weight ex, first_reps ex)
        | None => (max_weight ex, first_reps ex)
        end
    ∧ parse_exercise_line l
      = Some (mkExercise (exercise ex) [mkSet new_weight new_reps]
                new_weight new_reps 1 new_weight new_reps false (Some l)).
Proof.
  intros Hparse Hol Hends. unfold improved_line.
  set (target :=
         match last_perf with
         | Some p =>
             if perf_weight p >? 0
             then progressive_overload (perf_weight p) (perf_reps p) (days_ago p)
             else if (max_weight ex >? 0) && (first_reps ex >? 0)
                  then (max_weight ex, first_reps ex) else (0, 0)
         | None =>
             if (max_weight ex >? 0) && (first_reps ex >? 0)
             then (max_weight ex, first_reps ex) else (0, 0)
         end).
  destruct target as [w r] eqn:Ht.
  destruct (Z.gtb_spec w 0) as [Hw|]; [|done].
  destruct (Z.gtb_spec r 0) as [Hr|]; [|done].
  cbn [andb]. intros [= <-]. exists w, r. split; [lia|]. split; [lia|]. split.
  - subst target. destruct last_perf as [p|].
    + destruct (perf_weight p >? 0); [done|].
      destruct (_ && _); [done|]. injection Ht as <- <-. lia.
    + destruct (_ && _); [done|]. injection Ht as <- <-. lia.
  - pose proof (name_line_parses line ex w r Hparse Hol Hends
                  ltac:(lia) ltac:(lia)) as H. cbv zeta in H.
    replace (w =? 0) with false in H by lia. exact H.
Qed.

Lemma improved_line_sample :
  let line := lit "bench press - 100 * 5, 5, 4" in
  let ex := mkExercise (lit "bench press")
              [mkSet 100 5; mkSet 100 5; mkSet 100 4] 100 5 3 100 5 false
              (Some line) in
  let l := lit "bench press - 100 * 6" in
  parse_exercise_line line = Some ex
  ∧ original_line ex ≠ None
  ∧ endswith (lit " -") (exercise ex) = false
  ∧ improved_line (Some (mkPerf 3 100 5)) ex = Some l
  ∧ ∃ new_weight new_reps,
      0 < new_weight ∧ 0 < new_reps
      ∧ (new_weight, new_reps) = progressive_overload 100 5 3
      ∧ parse_exercise_line l
        = Some (mkExercise (exercise ex) [mkSet new_weight new_reps]
                  new_weight new_reps 1 new_weight new_reps false (Some l)).
Proof.
  intros line ex l.
  assert (parse_exercise_line line = Some ex) as H1 by (vm_compute; reflexivity).
  assert (original_line ex ≠ None) as H2 by (vm_compute; discriminate).
  assert (endswith (lit " -") (exercise ex) = false) as H3 by (vm_compute; reflexivity).
  assert (improved_line (Some (mkPerf 3 100 5)) ex = Some l) as H4
    by (vm_compute; reflexivity).
  split; [exact H1|]. split; [exact H2|]. split; [exact H3|]. split; [exact H4|].
  exact (improved_line_parses_back line ex (Some (mkPerf 3 100 5)) l H1 H2 H3 H4).
Defined.

End ImprovedLineFacts.

(** ** The positions after a workout is logged *)

Module RenumberingFacts.
Import PyStr Parser Dates History Mapping Index Build Notions Samples.
Import IndexFacts BuildFacts.

Lemma enumerate_from_shift {A} (p : A → bool) start (l : list A) :
  map fst (filter (fun iw => p (snd iw) = true) (enumerate_from (start + 1) l))
  = map Z.succ
      (map fst (filter (fun iw => p (snd iw) = true) (enumerate_from start l))).
Proof.
  revert start. induction l as [|x l IH]; intros start; [done|].
  cbn [enumerate_from]. rewrite !filter_cons. cbn [snd].
  case_decide; cbn [map fst]; rewrite IH; [f_equal; lia|done].
Qed.

(** The positions of a log with one more workout on top. *)
Lemma indices_where_cons p w ws :
  indices_where p (w :: ws)
  = firstn 20 ((if p w then [0] else [])
               ++ map Z.succ
                    (map fst (filter (fun iw => p (snd iw) = true)
                                     (enumerate_from 0 ws)))).
Proof.
  unfold indices_where. cbn [enumerate_from]. rewrite filter_cons. cbn [snd].
  case_decide as Hp.
  - rewrite Hp. cbn [map fst app]. by rewrite (enumerate_from_shift p 0 ws).
  - apply not_true_is_false in Hp. rewrite Hp. cbn [app].
    by rewrite (enumerate_from_shift p 0 ws).
Qed.

Lemma stale_list p w ws :
  indices_where p ws ≠ [] →
  readd 0 (p w) (Some (indices_where p ws)) ≠ Some (indices_where p (w :: ws)).
Proof.
  intros Hne Heq. rewrite indices_where_cons in Heq.
  destruct (indices_where_spec p ws) as (Hsorted & _ & _).
  apply StronglySorted_lt_NoDup in Hsorted.
  destruct (without_nodup 0 _ Hsorted) as [_ Hnot].
  unfold indices_where in *.
  set (all := map fst (filter (fun iw => p (snd iw) = true) (enumerate_from 0 ws))) in *.
  unfold readd in Heq. cbn [fmap option_fmap option_map default] in Heq.
  destruct (p w).
  - injection Heq as Heq. unfold with_new in Heq.
    rewrite (proj2 (pos_mem_false _ _) Hnot) in Heq.
    destruct all as [|a all']; [done|].
    remember (without 0 (firstn 20 (a :: all'))) as U eqn:HU. clear HU.
    cbn [app map firstn] in Heq.
    destruct U as [|u U]; cbn [app] in Heq.
    + discriminate Heq.
    + injection Heq as -> _. apply Hnot. by left.
  - injection Heq as Heq. cbn [app] in Heq. rewrite firstn_map in Heq.
    destruct (firstn 20 all) as [|l0 L'] eqn:HL; [done|].
    unfold without in Heq. cbn [map] in Heq.
    destruct (pos_mem 0 (l0 :: L')) eqn:Hm.
    + cbn [remove_first] in Heq. destruct (Z.eqb_spec 0 l0) as [<-|Hl0].
      * apply (f_equal length) in Heq. cbn [length] in Heq.
        rewrite length_map in Heq. lia.
      * injection Heq as Heq _. lia.
    + injection Heq as Heq _. lia.
Qed.

Section WithEnvironment.
Variable strptime : str -> str -> option datetime.
Variable today : datetime.
Variable mappings : list (str * MappingData).
Variable current_hash now_iso : str.

Lemma qualifies_chest pr w :
  qualifies mappings (mkData pr (text w)) chest_category = is_chest mappings w.
Proof.
  destruct categories_distinct as (H1 & H2 & H3).
  unfold qualifies, is_chest. cbn [data_text has_pr].
  rewrite decide_False by done. rewrite decide_True by done.
  rewrite scan_exercises_spec. cbn [snd].
  destruct (exercises _) as [|e exs]; [done|]. done.
Qed.

Lemma qualifies_full_body pr w :
  qualifies mappings (mkData pr (text w)) full_body_category
  = is_full_body mappings w.
Proof.
  destruct categories_distinct as (H1 & H2 & H3).
  unfold qualifies, is_full_body. cbn [data_text has_pr].
  rewrite decide_False by done. rewrite decide_False by done.
  rewrite decide_True by done.
  rewrite scan_exercises_spec. cbn [fst].
  destruct (exercises _) as [|e exs]; [done|]. done.
Qed.

(** X27. The incremental update does not renumber. When a workout is put
    on top of a log whose build has a chest list, or a full-body list,
    that is not empty, a build of the new log moves every old position up
    by one, while the update at the position 0 leaves the old positions
    where they were: the list of the updated index is never the list of a
    build of the new log. *)
Theorem incremental_add_does_not_renumber
    (workouts : list Workout) (new_workout : Workout) (pr : bool)
    (meta : Metadata) (c : str) :
  c = chest_category ∨ c = full_body_category →
  let index := mkIndex (build_rule_based strptime today mappings workouts)
                       (Some meta) in
  let updated := update_index_for_workout mappings current_hash now_iso
                   index 0 (mkData pr (text new_workout)) (lit "add") in
  let rebuilt := build_rule_based strptime today mappings
                   (new_workout :: workouts) in
  default [] (categories index !! c) ≠ [] →
  categories updated !! c ≠ rebuilt !! c.
Proof.
  destruct categories_distinct as (H1 & H2 & H3).
  intros Hc index updated rebuilt Hne. subst index updated rebuilt.
  cbn [categories] in Hne.
  unfold update_index_for_workout. cbn [metadata categories].
  change (str_eqb (lit "add") (lit "add") || str_eqb (lit "add") (lit "update"))
    with true. cbn match.
  assert (c ∈ rule_based_categories) as Hrule
    by (apply rule_based_cases; destruct Hc; tauto).
  rewrite add_or_update_lookup, decide_True by done.
  destruct workouts as [|w0 ws];
    [unfold build_rule_based in Hne; by rewrite lookup_empty in Hne|].
  assert (w0 :: ws ≠ []) as Hws by done.
  revert Hne Hws. generalize (w0 :: ws). clear w0 ws. intros ws Hne Hws.
  destruct Hc as [-> | ->].
  - rewrite qualifies_chest.
    assert (∀ l, l ≠ [] →
              build_rule_based strptime today mappings l !! chest_category
              = Some (indices_where (is_chest mappings) l)) as Hb.
    { intros [|x l] Hl; [done|]. unfold build_rule_based.
      by rewrite lookup_insert_eq. }
    rewrite (Hb ws Hws) in Hne |- *. rewrite (Hb (new_workout :: ws)) by done.
    by apply stale_list.
  - rewrite qualifies_full_body.
    assert (∀ l, l ≠ [] →
              build_rule_based strptime today mappings l !! full_body_category
              = Some (indices_where (is_full_body mappings) l)) as Hb.
    { intros [|x l] Hl; [done|]. unfold build_rule_based.
      rewrite lookup_insert_ne by done. by rewrite lookup_insert_eq. }
    rewrite (Hb ws Hws) in Hne |- *. rewrite (Hb (new_workout :: ws)) by done.
    by apply stale_list.
Qed.
End WithEnvironment.

Lemma incremental_add_sample :
  let new_workout := mkEntry (lit "02/01/24") (lit "squat - 140 * 5") in
  let meta := mkMeta (lit "h0") 4 (lit "2024-02-01T12:00:00") in
  let index := mkIndex (build_rule_based sample_strptime sample_today
                          sample_mappings sample_window) (Some meta) in
  let updated := update_index_for_workout sample_mappings (lit "h1")
                   (lit "2024-02-02T08:00:00") index 0
                   (mkData false (text new_workout)) (lit "add") in
  let rebuilt := build_rule_based sample_strptime sample_today sample_mappings
                   (new_workout :: sample_window) in
  default [] (categories index !! chest_category) ≠ []
  ∧ categories updated !! chest_category ≠ rebuilt !! chest_category.
Proof.
  intros new_workout meta index updated rebuilt.
  assert (default [] (categories index !! chest_category) ≠ []) as H
    by (vm_compute; discriminate).
  split; [exact H|].
  exact (incremental_add_does_not_renumber sample_strptime sample_today
           sample_mappings (lit "h1") (lit "2024-02-02T08:00:00")
           sample_window new_workout false meta chest_category
           (or_introl eq_refl) H).
Defined.

(** The sample: the bench presses of the old log are at the positions 1
    and 3; with a workout on top they are at 2 and 4, and the updated
    index still says 1 and 3. *)
Example incremental_add_sample_lists :
  let new_workout := mkEntry (lit "02/01/24") (lit "squat - 140 * 5") in
  let meta := mkMeta (lit "h0") 4 (lit "2024-02-01T12:00:00") in
  let index := mkIndex (build_rule_based sample_strptime sample_today
                          sample_mappings sample_window) (Some meta) in
  let updated := update_index_for_workout sample_mappings (lit "h1")
                   (lit "2024-02-02T08:00:00") index 0
                   (mkData false (text new_workout)) (lit "add") in
  let rebuilt := build_rule_based sample_strptime sample_today sample_mappings
                   (new_workout :: sample_window) in
  categories index !! chest_category = Some [1; 3]
  ∧ categories updated !! chest_category = Some [1; 3]
  ∧ rebuilt !! chest_category = Some [2; 4].
Proof. repeat split; by vm_compute. Qed.

End RenumberingFacts.

(** ** The callers of the index update *)

Module CallerFacts.
Import PyStr Parser Dates History Mapping Index Build Notions Samples.
Import ParserFacts HistoryFacts HistoryInvariants IndexFacts BuildFacts Callers.

Lemma record_place_of hp hf ex :
  (∀ k, hp !! k = place_of <$> hf !! k) →
  ∀ k, record_place hp ex !! k = place_of <$> record_exercise hf ex !! k.
Proof.
  intros H k. unfold record_place, record_exercise.
  pose proof (H (ex_key ex)) as Hk.
  destruct (hf !! ex_key ex) as [r|] eqn:Hr; rewrite Hk; cbn [fmap option_fmap option_map].
  - destruct (decide (ex_key ex = k)) as [<-|Hne].
    + rewrite !lookup_insert_eq. cbn. f_equal. unfold place_of. cbn.
      destruct (max_weight ex >? History.best_weight r); cbn;
        destruct (first_reps ex >? History.best_reps r); done.
    + rewrite !lookup_insert_ne by done. apply H.
  - destruct (decide (ex_key ex = k)) as [<-|Hne].
    + by rewrite !lookup_insert_eq.
    + rewrite !lookup_insert_ne by done. apply H.
Qed.

Lemma record_places_of exs hp hf :
  (∀ k, hp !! k = place_of <$> hf !! k) →
  ∀ k, fold_left record_place exs hp !! k
       = place_of <$> fold_left record_exercise exs hf !! k.
Proof.
  revert hp hf. induction exs as [|e exs IH]; intros hp hf H; [done|].
  cbn [fold_left]. apply IH. by apply record_place_of.
Qed.

Lemma history_of_flat prev_workouts :
  history_of prev_workouts
  = fold_left record_place
      (concat (map (fun w => exercises (parse_workout_text (text w))) prev_workouts)) ∅.
Proof.
  unfold history_of. generalize (∅ : gmap str PlaceRecord).
  induction prev_workouts as [|w ws IH]; intros h; [done|].
  cbn [fold_left map concat]. by rewrite fold_left_app, IH.
Qed.

Lemma beats_place_of hp hf ex :
  (∀ k, hp !! k = place_of <$> hf !! k) →
  beats hp ex = fst (exercise_flags hf ex).
Proof.
  intros H. unfold beats, exercise_flags, check_exercise. rewrite H.
  destruct (hf !! ex_key ex) as [r|]; [|done]. cbn.
  destruct (is_bodyweight ex || (max_weight ex =? 0)).
  - by destruct (first_reps ex >? History.best_reps r).
  - destruct (max_weight ex >? History.best_weight r); [done|].
    by destruct (_ && _).
Qed.

Section WithEnvironment.
Variable strptime : str -> str -> option datetime.
Variable today : datetime.
Variable mappings : list (str * MappingData).
Variable current_hash now_iso : str.

(** X30. On a log in which every older workout has a date that parses
    and lies strictly before the date of the new workout, the PR flag
    that [log_workout] computes by place is the PR flag that a build of
    the search index computes by date. *)
Theorem logged_pr_agrees_with_build
    (existing : list Workout) (new_workout : Workout) (d : datetime) :
  parse_workout_date strptime today (date new_workout) = Some d →
  (∀ w, w ∈ existing →
     ∃ d', parse_workout_date strptime today (date w) = Some d'
           ∧ total_usec d' < total_usec d) →
  has_pr (logged_workout_data (new_workout :: existing) (text new_workout))
  = fst (detect_pr strptime today (new_workout :: existing) new_workout).
Proof.
  intros Hd Hall. unfold logged_workout_data. cbn [has_pr tail length].
  assert ((if 1 <? Z.of_nat (S (length existing))
           then pr_against existing
                  (exercises (parse_workout_text (text new_workout)))
           else false)
          = pr_against existing (exercises (parse_workout_text (text new_workout))))
    as ->.
  { destruct existing as [|w ws];
      [|by destruct (Z.ltb_spec 1 (Z.of_nat (S (length (w :: ws))))) as [|Hle];
           [|cbn [length] in Hle; lia]].
    change (1 <? Z.of_nat (S (length (@nil Workout)))) with false. cbn match.
    unfold pr_against, history_of. cbn [fold_left].
    induction (exercises (parse_workout_text (text new_workout))) as [|e exs IH];
      [done|].
    cbn [existsb]. unfold beats at 1. by rewrite lookup_empty. }
  unfold detect_pr. rewrite Hd, check_exercises_flags. cbn [fst orb].
  unfold pr_against. rewrite history_before_fold, history_of_flat.
  assert (earlier_exercises strptime today (new_workout :: existing) d
          = concat (map (fun w => exercises (parse_workout_text (text w))) existing))
    as ->.
  { unfold earlier_exercises. rewrite filter_cons.
    assert (is_earlier strptime today d new_workout = false) as Hnew.
    { unfold is_earlier. rewrite Hd. unfold dt_ltb. lia. }
    rewrite decide_False by (by rewrite Hnew). f_equal. f_equal.
    clear Hnew. induction existing as [|w ws IH]; [done|].
    rewrite filter_cons.
    destruct (Hall w ltac:(by left)) as (d' & Hd' & Hlt).
    rewrite decide_True.
    - f_equal. apply IH. intros w' Hw'. apply Hall. by right.
    - unfold is_earlier. rewrite Hd'. unfold dt_ltb. lia. }
  set (exs := concat _).
  assert (∀ k, fold_left record_place exs ∅ !! k
               = place_of <$> fold_left record_exercise exs ∅ !! k) as Hp.
  { apply record_places_of. intros k. by rewrite !lookup_empty. }
  induction (exercises (parse_workout_text (text new_workout))) as [|e es IH];
    [done|].
  cbn [existsb]. by rewrite IH, (beats_place_of _ _ _ Hp).
Qed.

Lemma indices_where_at_spec p workouts :
  ∀ i, i ∈ indices_where_at p workouts →
    ∃ w, 0 <= i ∧ workouts !! Z.to_nat i = Some w ∧ p i w = true.
Proof.
  intros i Hi. unfold indices_where_at in Hi. apply elem_of_firstn in Hi.
  change (map ?f ?x) with (f <$> x) in Hi.
  apply list_elem_of_fmap in Hi as ([i' w] & -> & [Hp Hin]%list_elem_of_filter).
  apply enumerate_from_bounds in Hin as [Hb Hl]. simpl in *.
  exists w. rewrite Z.sub_0_r in Hl. split; [lia|done].
Qed.

Lemma indices_where_at_ext p q workouts :
  (∀ i w, p i w = q w) → indices_where_at p workouts = indices_where q workouts.
Proof.
  intros H. unfold indices_where_at, indices_where. f_equal. f_equal.
  generalize 0. induction workouts as [|w ws IH]; intros s; [done|].
  cbn [enumerate_from]. rewrite !filter_cons. cbn [fst snd]. rewrite H, IH.
  done.
Qed.

Lemma place_flags_chest ws i w :
  snd (fst (place_flags mappings ws i w)) = is_chest mappings w.
Proof.
  unfold place_flags, is_chest.
  destruct (exercises (parse_workout_text (text w))) as [|e exs] eqn:He; [done|].
  rewrite scan_exercises_spec. done.
Qed.

Lemma place_flags_full_body ws i w :
  snd (place_flags mappings ws i w) = is_full_body mappings w.
Proof.
  unfold place_flags, is_full_body.
  destruct (exercises (parse_workout_text (text w))) as [|e exs] eqn:He; [done|].
  rewrite scan_exercises_spec. done.
Qed.

(** X28. After a delete, on an index with metadata, the chest list and
    the full-body list are those a build of the remaining log writes,
    the workout count is the length of that log, and the lists of "leg
    day" and "upper body" are as they were. *)
Theorem delete_rebuild_matches_build
    (index : SearchIndex) (workouts_after : list Workout) :
  metadata index ≠ None →
  let after := index_after_delete mappings current_hash now_iso index
                 workouts_after in
  let built := build_rule_based strptime today mappings workouts_after in
  categories after !! chest_category
  = Some (indices_where (is_chest mappings) workouts_after)
  ∧ categories after !! full_body_category
    = Some (indices_where (is_full_body mappings) workouts_after)
  ∧ (workouts_after ≠ [] →
     categories after !! chest_category = built !! chest_category
     ∧ categories after !! full_body_category = built !! full_body_category)
  ∧ (workout_count <$> metadata after)
    = Some (Z.of_nat (length workouts_after))
  ∧ categories after !! leg_day_category = categories index !! leg_day_category
  ∧ categories after !! upper_body_category
    = categories index !! upper_body_category.
Proof.
  destruct categories_distinct as (H1 & H2 & H3).
  destruct language_model_categories_not_rule_based as [Hleg Hupper].
  rewrite rule_based_cases in Hleg, Hupper.
  intros Hmeta after built. subst after built. unfold index_after_delete.
  destruct (metadata index) as [meta|]; [|done]. cbn [categories metadata].
  assert (∀ ws, indices_where_at
                  (fun i w => snd (fst (place_flags mappings ws i w))) ws
                = indices_where (is_chest mappings) ws) as Hchest.
  { intros ws. apply indices_where_at_ext. intros i w. apply place_flags_chest. }
  assert (∀ ws, indices_where_at
                  (fun i w => snd (place_flags mappings ws i w)) ws
                = indices_where (is_full_body mappings) ws) as Hfull.
  { intros ws. apply indices_where_at_ext. intros i w. apply place_flags_full_body. }
  rewrite Hchest, Hfull.
  split; [by rewrite lookup_insert_ne, lookup_insert_eq by done|].
  split; [by rewrite lookup_insert_eq|].
  split.
  { intros Hne. unfold build_rule_based.
    destruct workouts_after as [|w ws]; [done|]. split.
    - by rewrite lookup_insert_ne, !lookup_insert_eq by done.
    - rewrite lookup_insert_eq. rewrite lookup_insert_ne by done.
      by rewrite lookup_insert_eq. }
  split; [done|].
  split; rewrite !lookup_insert_ne; try done; intros <-; tauto.
Qed.

(** X29. After a delete, the PR list holds only positions of workouts
    that beat the history of the workouts listed before them; the
    position 0, which has none before it, is never in the list. *)
Theorem delete_rebuild_pr_by_place
    (index : SearchIndex) (workouts_after : list Workout) (l : list Z) :
  metadata index ≠ None →
  categories (index_after_delete mappings current_hash now_iso index
                workouts_after) !! pr_category = Some l →
  (0 ∉ l)
  ∧ ∀ i, i ∈ l →
      ∃ w, 0 < i ∧ workouts_after !! Z.to_nat i = Some w
           ∧ pr_against (firstn (Z.to_nat i) workouts_after)
                        (exercises (parse_workout_text (text w))) = true.
Proof.
  destruct categories_distinct as (H1 & H2 & H3).
  intros Hmeta. unfold index_after_delete.
  destruct (metadata index) as [meta|]; [|done]. cbn [categories].
  rewrite !lookup_insert_ne by done. rewrite lookup_insert_eq. intros [= <-].
  assert (∀ i, i ∈ indices_where_at
                     (fun i w => fst (fst (place_flags mappings workouts_after i w)))
                     workouts_after →
            ∃ w, 0 < i ∧ workouts_after !! Z.to_nat i = Some w
                 ∧ pr_against (firstn (Z.to_nat i) workouts_after)
                              (exercises (parse_workout_text (text w))) = true) as H.
  { intros i (w & Hi & Hw & Hp)%indices_where_at_spec. exists w.
    unfold place_flags in Hp.
    destruct (exercises (parse_workout_text (text w))) as [|e exs] eqn:He; [done|].
    destruct (scan_exercises mappings (e :: exs)) as [mg hc]. cbn [fst] in Hp.
    split; [|done].
    destruct (Z.eq_dec i 0) as [->|]; [|lia]. exfalso.
    change (firstn (Z.to_nat 0) workouts_after) with (@nil Workout) in Hp.
    revert Hp. unfold pr_against, history_of.
    cbn [fold_left]. generalize (e :: exs). intros es.
    induction es as [|x es IH]; [done|]. cbn [existsb].
    unfold beats at 1. by rewrite lookup_empty. }
  split; [|exact H]. intros H0. destruct (H 0 H0) as (w & Hlt & _). lia.
Qed.
End WithEnvironment.

Lemma delete_rebuild_matches_build_sample :
  let after := index_after_delete sample_mappings (lit "h1")
                 (lit "2024-02-02T08:00:00") sample_index sample_window in
  let built := build_rule_based sample_strptime sample_today sample_mappings
                 sample_window in
  metadata sample_index ≠ None
  ∧ categories after !! chest_category = Some [1; 3]
  ∧ categories after !! chest_category = built !! chest_category
  ∧ (workout_count <$> metadata after) = Some 4.
Proof.
  intros after built.
  assert (metadata sample_index ≠ None) as H by discriminate.
  split; [exact H|].
  destruct (delete_rebuild_matches_build sample_strptime sample_today
              sample_mappings (lit "h1") (lit "2024-02-02T08:00:00")
              sample_index sample_window H) as (H1 & _ & H3 & H4 & _).
  split; [exact H1|]. split; [|exact H4].
  exact (proj1 (H3 ltac:(discriminate))).
Defined.

Lemma delete_rebuild_pr_sample :
  let log := [mkEntry (lit "01/08/24") (lit "bench press - 95 * 5");
              mkEntry (lit "01/29/24") (lit "bench press - 100 * 5")] in
  let after := index_after_delete sample_mappings (lit "h1")
                 (lit "2024-02-02T08:00:00") sample_index log in
  metadata sample_index ≠ None
  ∧ categories after !! pr_category = Some [1]
  ∧ (0 ∉ [1]).
Proof.
  intros log after.
  assert (metadata sample_index ≠ None) as H by discriminate.
  assert (categories after !! pr_category = Some [1]) as Hl
    by (vm_compute; reflexivity).
  split; [exact H|]. split; [exact Hl|].
  exact (proj1 (delete_rebuild_pr_by_place sample_mappings (lit "h1")
                  (lit "2024-02-02T08:00:00") sample_index log [1] H Hl)).
Defined.

(** By place and by date: in the sample window, listed from the newest
    to the oldest, the bench press of 29 January beats the one of 8
    January; a build flags it, the rebuild after a delete, which looks at
    the workouts listed before it, does not. *)
Example pr_by_place_and_by_date :
  categories (index_after_delete sample_mappings (lit "h1")
                (lit "2024-02-02T08:00:00") sample_index sample_window)
    !! pr_category = Some []
  ∧ build_rule_based sample_strptime sample_today sample_mappings sample_window
      !! pr_category = Some [1].
Proof. split; by vm_compute. Qed.

Lemma sample_log_in_order :
  let d := mkDatetime 2024 738917 0 in
  ∀ w, w ∈ tail sample_window →
    ∃ d', parse_workout_date sample_strptime sample_today (date w) = Some d'
          ∧ total_usec d' < total_usec d.
Proof.
  intros d w Hin. unfold sample_window in Hin. cbn [tail] in Hin.
  repeat (apply elem_of_cons in Hin as [-> | Hin];
          [eexists; split; [vm_compute; reflexivity | by vm_compute]|]).
  by apply elem_of_nil in Hin.
Defined.

Lemma logged_pr_sample :
  let new_workout := mkEntry (lit "02/01/24") (lit "bench press - 105 * 5") in
  let d := mkDatetime 2024 738917 0 in
  parse_workout_date sample_strptime sample_today (date new_workout) = Some d
  ∧ has_pr (logged_workout_data (new_workout :: tail sample_window)
              (text new_workout)) = true
  ∧ has_pr (logged_workout_data (new_workout :: tail sample_window)
              (text new_workout))
    = fst (detect_pr sample_strptime sample_today
             (new_workout :: tail sample_window) new_workout).
Proof.
  intros new_workout d.
  assert (parse_workout_date sample_strptime sample_today (date new_workout)
          = Some d) as H by (vm_compute; reflexivity).
  split; [exact H|]. split; [vm_compute; reflexivity|].
  exact (logged_pr_agrees_with_build sample_strptime sample_today
           (tail sample_window) new_workout d H sample_log_in_order).
Defined.

End CallerFacts.
